(** * Axis tick-scale computation of tui.chart (src/js/models/axisModel.js)

    A shallow embedding of [AxisModel]: its value-axis pipeline, the axis
    object around it, the properties its specification states about them
    and further properties of the code.

    Numbers.  A JavaScript number is modelled by [num]: an exact rational
    [Fin q], the two infinities and [NaN].  Arithmetic on finite values is
    exact, where the doubles of the code round every operation to 53
    bits, and the two zeros are identified (a zero divisor counts as
    [+0]).  An equation between fractions that holds over the rationals
    may therefore fail in the code by a rounding error (0.55 * 100 is
    55.00000000000001).  The lemmas are facts of the exact model; the
    theorems of the claims and the numbered properties are about
    integers, on which doubles compute exactly, about order and failure,
    or they are stated up to the tolerance of the specification, 1e-9
    ([tolerance], [near], [le_upto]).  The concrete inputs of the
    counterexamples go through integers and dyadic fractions only.

    Control.  A JavaScript call that does not return normally is modelled
    by [Err]: a property read on [undefined] ([TypeError]), a recursion that
    never reaches its base case ([RangeError], the stack overflows) or a loop
    that never ends ([NoReturn]).  [Unspecified] stands for a call into a
    helper that is not part of the sources, on an argument for which the
    specification does not give its result. *)

From Stdlib Require Import String QArith Qround Qabs ZArith List Bool Lia Lqa.
Import ListNotations.
Open Scope Q_scope.

(** ** JavaScript numbers *)

Inductive num : Type :=
| Fin (q : Q)
| PInf
| NInf
| NaN.

Declare Scope num_scope.
Delimit Scope num_scope with num.
Bind Scope num_scope with num.

Module Num.

Definition of_Z (z : Z) : num := Fin (inject_Z z).
Definition of_nat (n : nat) : num := of_Z (Z.of_nat n).

Definition is_zero (q : Q) : bool := Qeq_bool q 0.
Definition is_pos (q : Q) : bool := negb (Qle_bool q 0).
Definition is_neg (q : Q) : bool := negb (Qle_bool 0 q).

(** Truncation toward zero. *)
Definition Qtrunc (q : Q) : Z :=
  if Qle_bool 0 q then Qfloor q else Qceiling q.

(** The remainder of [%] on finite operands: it has the sign of the
    dividend. *)
Definition Qrem (a b : Q) : Q := a - b * inject_Z (Qtrunc (a / b)).

Definition neg (a : num) : num :=
  match a with
  | Fin q => Fin (- q)
  | PInf => NInf
  | NInf => PInf
  | NaN => NaN
  end.

(** The operators [+], [-], [*], [/] and [%].  On finite operands the
    result is the exact one; the code gets it rounded to the nearest
    double. *)
Definition add (a b : num) : num :=
  match a, b with
  | NaN, _ | _, NaN => NaN
  | Fin x, Fin y => Fin (x + y)
  | PInf, NInf | NInf, PInf => NaN
  | PInf, _ | _, PInf => PInf
  | NInf, _ | _, NInf => NInf
  end.

Definition sub (a b : num) : num := add a (neg b).

(** The infinity of the given sign. *)
Definition signed_inf (positive : bool) : num :=
  if positive then PInf else NInf.

Definition mul (a b : num) : num :=
  match a, b with
  | NaN, _ | _, NaN => NaN
  | Fin x, Fin y => Fin (x * y)
  | Fin x, PInf | PInf, Fin x =>
      if is_zero x then NaN else signed_inf (is_pos x)
  | Fin x, NInf | NInf, Fin x =>
      if is_zero x then NaN else signed_inf (is_neg x)
  | PInf, PInf | NInf, NInf => PInf
  | PInf, NInf | NInf, PInf => NInf
  end.

Definition div (a b : num) : num :=
  match a, b with
  | NaN, _ | _, NaN => NaN
  | Fin x, Fin y =>
      if is_zero y
      then (if is_zero x then NaN else signed_inf (is_pos x))
      else Fin (x / y)
  | Fin _, (PInf | NInf) => Fin 0
  | PInf, Fin y => signed_inf (negb (is_neg y))
  | NInf, Fin y => signed_inf (is_neg y)
  | (PInf | NInf), (PInf | NInf) => NaN
  end.

(** The [%] operator. *)
Definition rem (a b : num) : num :=
  match a, b with
  | NaN, _ | _, NaN => NaN
  | (PInf | NInf), _ => NaN
  | Fin x, (PInf | NInf) => Fin x
  | Fin x, Fin y => if is_zero y then NaN else Fin (Qrem x y)
  end.

Definition lt (a b : num) : bool :=
  match a, b with
  | NaN, _ | _, NaN => false
  | Fin x, Fin y => negb (Qle_bool y x)
  | _, NInf => false
  | NInf, _ => true
  | PInf, _ => false
  | _, PInf => true
  end.

Definition le (a b : num) : bool :=
  match a, b with
  | NaN, _ | _, NaN => false
  | Fin x, Fin y => Qle_bool x y
  | NInf, _ => true
  | _, PInf => true
  | _, NInf => false
  | PInf, _ => false
  end.

Definition gt (a b : num) : bool := lt b a.
Definition ge (a b : num) : bool := le b a.

(** Strict equality [===] on numbers. *)
Definition eq (a b : num) : bool :=
  match a, b with
  | Fin x, Fin y => Qeq_bool x y
  | PInf, PInf | NInf, NInf => true
  | _, _ => false
  end.

(** [Math.abs] *)
Definition abs (a : num) : num :=
  match a with
  | Fin q => Fin (Qabs q)
  | PInf | NInf => PInf
  | NaN => NaN
  end.

(** [Math.floor] *)
Definition floor (a : num) : num :=
  match a with
  | Fin q => of_Z (Qfloor q)
  | _ => a
  end.

(** The first significant digit of a rational in (0, 10): it is multiplied
    by 10 until it reaches 1. *)
Fixpoint leading_digit (fuel : nat) (q : Q) : Z :=
  if Qle_bool 1 q then Qfloor q
  else match fuel with
       | O => 0
       | S fuel' => leading_digit fuel' (q * 10)
       end.

(** [parseInt(x, 10)] on a number: the number is converted to its decimal
    notation and the integer in front of it is read; [NaN] on a non-finite
    number.  The notation of a number that is 0 or at least 1e-6 in
    magnitude is positional and the integer read is the integer part.
    Below 1e-6 the notation is [d.ddde-n] and the integer read is the
    signed first digit [d]: [parseInt(8.3e-7, 10)] is 8.  (The notation
    has an exponent from 1e21 upward too, which is left out: the numbers
    parsed here are pixel lengths divided by 40 and 60.) *)
Definition parseInt (a : num) : num :=
  match a with
  | Fin q =>
      if is_zero q || Qle_bool (1 # 1000000) (Qabs q)
      then of_Z (Qtrunc q)
      else of_Z (Z.sgn (Qnum q)
                 * leading_digit (Pos.size_nat (Qden q)) (Qabs q))
  | _ => NaN
  end.

(** Truthiness of a number: [0] and [NaN] are falsy. *)
Definition truthy (a : num) : bool :=
  match a with
  | Fin q => negb (is_zero q)
  | NaN => false
  | _ => true
  end.

(** [Math.pow(10, n)] for a natural exponent. *)
Definition pow10 (n : nat) : num := of_Z (10 ^ Z.of_nat n).

Definition is_finite (a : num) : bool :=
  match a with Fin _ => true | _ => false end.

End Num.

Infix "+" := Num.add : num_scope.
Infix "-" := Num.sub : num_scope.
Infix "*" := Num.mul : num_scope.
Infix "/" := Num.div : num_scope.
Infix "%%" := Num.rem (at level 40, left associativity) : num_scope.
Infix "<?" := Num.lt : num_scope.
Infix "<=?" := Num.le : num_scope.
Infix ">?" := Num.gt (at level 70) : num_scope.
Infix ">=?" := Num.ge (at level 70) : num_scope.
Infix "===" := Num.eq (at level 70) : num_scope.
Notation "- x" := (Num.neg x) : num_scope.

(** Integer literals as numbers. *)
Definition n_ (z : Z) : num := Num.of_Z z.

(** ** Outcomes of a call *)

Inductive failure : Type :=
| TypeError    (* a property is read on [undefined] *)
| RangeError   (* unbounded recursion: the call stack overflows *)
| NoReturn     (* a loop that never ends *)
| Unspecified. (* the outcome is that of code outside the sources *)

Inductive result (A : Type) : Type :=
| Ok (a : A)
| Err (e : failure).
Arguments Ok {A} a.
Arguments Err {A} e.

Definition bind {A B} (r : result A) (k : A -> result B) : result B :=
  match r with
  | Ok a => k a
  | Err e => Err e
  end.

Notation "x <- r ;; k" := (bind r (fun x => k))
  (at level 61, r at next level, right associativity).

(** [ne.util.map] with a callback that may fail: the first failure, in
    array order, is the failure of the whole call. *)
Fixpoint mapM {A B} (f : A -> result B) (l : list A) : result (list B) :=
  match l with
  | [] => Ok []
  | a :: l' => b <- f a ;; bs <- mapM f l' ;; Ok (b :: bs)
  end.

(** [ne.util.forEachArray]: the callback is run on the elements in order
    and the iteration stops as soon as it returns [false].  The state the
    callback closes over is threaded explicitly; the callback returns the
    new state and whether to go on. *)
Fixpoint forEachArray {A S} (l : list A) (f : A -> S -> S * bool) (s : S) : S :=
  match l with
  | [] => s
  | a :: l' =>
      let (s', continue) := f a s in
      if continue then forEachArray l' f s' else s'
  end.

(** ** Helpers of the [ne.util] namespace *)

(** [ne.util.range(start, stop, step)]:
    [step = step || 1; flag = step < 0 ? -1 : 1; stop *= flag;
     for (; start * flag < stop; start += step) arr.push(start);].
    [fuel] bounds the number of pushes; the loop is [NoReturn] when the
    bound is reached with the loop condition still true. *)
Fixpoint range_loop (fuel : nat) (flag start stop step : num)
  : result (list num) :=
  if (start * flag <? stop)%num then
    match fuel with
    | O => Err NoReturn
    | S fuel' =>
        rest <- range_loop fuel' flag (start + step)%num stop step ;;
        Ok (start :: rest)
    end
  else Ok [].

(** The number of pushes of a loop over finite numbers; one push is enough
    to decide the other cases (an infinite [start] or [stop] with a true
    loop condition never makes it false). *)
Definition range_fuel (flag start stop step : num) : nat :=
  match start, stop, step, flag with
  | Fin a, Fin b, Fin s, Fin f =>
      Z.to_nat (Qceiling ((b - a * f) / Qabs s))
  | _, _, _, _ => 1%nat
  end.

Definition range (start stop : num) (step : option num) : result (list num) :=
  let step := match step with
              | Some s => if Num.truthy s then s else n_ 1
              | None => n_ 1
              end in
  let flag := if (step <? n_ 0)%num then n_ (-1) else n_ 1 in
  let stop := (stop * flag)%num in
  range_loop (range_fuel flag start stop step) flag start stop step.

(** The lesser and the greater of two numbers; [NaN] when one is [NaN]. *)
Definition min2 (a b : num) : num :=
  match a, b with
  | NaN, _ | _, NaN => NaN
  | _, _ => if (b <? a)%num then b else a
  end.

Definition max2 (a b : num) : num :=
  match a, b with
  | NaN, _ | _, NaN => NaN
  | _, _ => if (a <? b)%num then b else a
  end.

(** Modelled from the spec: [ne.util.min], which is not part of the
    sources, is the [min(values)] of the specification, the least of the
    values.  The specification gives it for values that are not empty;
    what the helper returns on an empty array is not known, and the call
    is modelled as [Unspecified] there. *)
Definition util_min (arr : list num) : result num :=
  match arr with
  | [] => Err Unspecified
  | x :: rest => Ok (fold_left min2 rest x)
  end.

(** Modelled from the spec: [ne.util.max], likewise the [max(values)] of
    the specification, the greatest of values that are not empty. *)
Definition util_max (arr : list num) : result num :=
  match arr with
  | [] => Err Unspecified
  | x :: rest => Ok (fold_left max2 rest x)
  end.

(** ** Records of the axis model *)

Record scale : Type := mkScale { scale_min : num; scale_max : num }.

Record tickInfo : Type := mkTickInfo {
  ti_scale : scale;
  ti_step : num;
  ti_tickCount : num;
  ti_labels : list num
}.

(** The axis options; [None] is a property that is [undefined]. *)
Record options : Type := mkOptions {
  opt_min : option num;
  opt_max : option num;
  opt_tickCount : option num
}.

Definition no_options : options := mkOptions None None None.

Record dimension : Type := mkDimension { width : num; height : num }.

Record intTypeInfo : Type := mkIntTypeInfo {
  iti_min : num;
  iti_max : num;
  iti_options : options;
  iti_divideNum : num
}.

Definition isUndefined (o : option num) : bool :=
  match o with None => true | Some _ => false end.

(** [o || d] for an optional number [o]. *)
Definition or_default (o : option num) (d : num) : num :=
  match o with
  | Some v => if Num.truthy v then v else d
  | None => d
  end.

Definition MIN_PIXEL_STEP_SIZE : num := n_ 40.
Definition MAX_PIXEL_STEP_SIZE : num := n_ 60.
Definition CHART_TITLE_HEIGHT : num := n_ 80.
Definition VERTICAL_AXIS_WIDTH : num := n_ 90.
Definition LEGEND_WIDTH : num := n_ 90.

(** ** The axis model *)

Section AxisModel.

(** [ne.util.underPointLength(value)], the number of digits the decimal
    notation of [value] has after the point, is one of the chart's own
    extensions of [ne.util] and is not part of the sources at hand: it is a
    parameter of the development, and no theorem below depends on what it
    returns. *)
Variable underPointLength : num -> nat.

(** Modelled from the spec: [ne.util.findMultipleNum], missing from the
    sources, is the power of ten [10^decimalPlaces] that turns its arguments
    into integers (for several arguments, the largest of their powers). *)
Definition findMultipleNum (args : list num) : num :=
  Num.pow10 (list_max (map underPointLength args)).

(** Modelled from the spec: [ne.util.mod], [ne.util.addition],
    [ne.util.subtraction] and [ne.util.division], missing from the sources,
    are the four operations computed on an integer-scaled intermediate
    (multiply by [10^decimalPlaces], operate, divide back). *)
Definition util_mod (target modNum : num) : num :=
  let multipleNum := findMultipleNum [modNum] in
  (((target * multipleNum) %% (modNum * multipleNum)) / multipleNum)%num.

Definition addition (a b : num) : num :=
  let multipleNum := findMultipleNum [a; b] in
  (((a * multipleNum) + (b * multipleNum)) / multipleNum)%num.

Definition subtraction (a b : num) : num :=
  let multipleNum := findMultipleNum [a; b] in
  (((a * multipleNum) - (b * multipleNum)) / multipleNum)%num.

Definition division (a b : num) : num :=
  let multipleNum := findMultipleNum [a; b] in
  ((a * multipleNum) / (b * multipleNum))%num.

(** Modelled from the spec: [getScaleStep] of the base class [Model],
    missing from the sources: [step = (scale.max - scale.min) / (tickCount - 1)]. *)
Definition getScaleStep (sc : scale) (count : num) : num :=
  ((scale_max sc - scale_min sc) / (count - n_ 1))%num.

(** [_getBaseSize] *)
Definition getBaseSize (isVertical : bool) (dim : dimension) : num :=
  if isVertical
  then (height dim - CHART_TITLE_HEIGHT)%num
  else (width dim - VERTICAL_AXIS_WIDTH - LEGEND_WIDTH)%num.

(** [_getCandidateTickCounts] *)
Definition getCandidateTickCounts (isVertical : bool) (chartDimension : dimension)
  : result (list num) :=
  let baseSize := getBaseSize isVertical chartDimension in
  let start := Num.parseInt (baseSize / MAX_PIXEL_STEP_SIZE)%num in
  let end_ := (Num.parseInt (baseSize / MIN_PIXEL_STEP_SIZE) + n_ 1)%num in
  range start end_ None.

(** [_getComparingValue] *)
Definition getComparingValue (sc : scale) (step min max : num) : num :=
  let diffMax := Num.abs (scale_max sc - max)%num in
  let diffMin := Num.abs (min - scale_min sc)%num in
  let weight := Num.pow10 (underPointLength step) in
  ((diffMax + diffMin) * weight)%num.

(** The comparing value of a candidate. *)
Definition comparingValueOf (min max : num) (c : tickInfo) : num :=
  getComparingValue (ti_scale c) (ti_step c) min max.

(** The callback of the loop of [_selectTickInfo]; the state is the pair
    of [tickInfo] and [minValue]. *)
Definition selectTickInfo_each (min max : num) (info : tickInfo)
  (st : tickInfo * num) : (tickInfo * num) * bool :=
  let '(tickInfo, minValue) := st in
  let compareValue := getComparingValue (ti_scale info) (ti_step info) min max in
  if (minValue >? compareValue)%num
  then ((info, compareValue), true)
  else ((tickInfo, minValue), true).

(** [_selectTickInfo]; [candidates[0]] of an empty array is [undefined] and
    reading its [scale] throws. *)
Definition selectTickInfo (min max : num) (candidates : list tickInfo)
  : result tickInfo :=
  match candidates with
  | [] => Err TypeError
  | first :: rest =>
      let minValue :=
        getComparingValue (ti_scale first) (ti_step first) min max in
      Ok (fst (forEachArray rest (selectTickInfo_each min max) (first, minValue)))
  end.

(** [_makeIntegerTypeInfo] *)
Definition makeIntegerTypeInfo (min max : num) (opts : options) : intTypeInfo :=
  if (Num.abs min >=? n_ 1)%num || (Num.abs max >=? n_ 1)%num
  then mkIntTypeInfo min max opts (n_ 1)
  else
    let multipleNum := findMultipleNum [min; max] in
    let changeOptions :=
      mkOptions
        (match opt_min opts with
         | Some m => if Num.truthy m then Some (m * multipleNum)%num else None
         | None => None
         end)
        (match opt_max opts with
         | Some m => if Num.truthy m then Some (m * multipleNum)%num else None
         | None => None
         end)
        None in
    mkIntTypeInfo (min * multipleNum)%num (max * multipleNum)%num
                  changeOptions multipleNum.

(** [_makeOriginalTypeTickInfo] *)
Definition makeOriginalTypeTickInfo (ti : tickInfo) (divideNum : num) : tickInfo :=
  if (divideNum === n_ 1)%num then ti
  else
    mkTickInfo
      (mkScale (division (scale_min (ti_scale ti)) divideNum)
               (division (scale_max (ti_scale ti)) divideNum))
      (division (ti_step ti) divideNum)
      (ti_tickCount ti)
      (map (fun label => division label divideNum) (ti_labels ti)).

(** The loop of [_normalizeStep] over [[1, 2, 5, 10]] that chooses
    [standard]. *)
Definition normalizeStep_standard (step : num) : num :=
  forEachArray [n_ 1; n_ 2; n_ 5; n_ 10]
    (fun num standard =>
       if (step <? num)%num
       then ((if (num >? n_ 1)%num then num else standard), false)
       else if (num === n_ 10)%num then (n_ 10, true)
       else (standard, true))
    (n_ 0).

(** [_normalizeStep]; [fuel] bounds the depth of the recursion on
    [step * 10]. *)
Fixpoint normalizeStep_rec (fuel : nat) (step : num) : result num :=
  if (step === n_ 0)%num then Ok step
  else
    let standard := normalizeStep_standard step in
    if (standard <? n_ 1)%num then
      match fuel with
      | O => Err RangeError
      | S fuel' =>
          r <- normalizeStep_rec fuel' (step * n_ 10)%num ;;
          Ok (r * Fin (1 # 10))%num
      end
    else
      let mod_ := util_mod step standard in
      Ok (addition step (if (mod_ >? n_ 0)%num then (standard - mod_)%num else n_ 0)).

(** A positive finite step [n/d] is at least 1 after it was multiplied by
    10 as many times as [d] has binary digits; a negative step never gets
    there. *)
Definition normalizeStep_fuel (step : num) : nat :=
  match step with
  | Fin q => S (Pos.size_nat (Qden q))
  | _ => O
  end.

Definition normalizeStep (step : num) : result num :=
  normalizeStep_rec (normalizeStep_fuel step) step.

(** [_normalizeMin] *)
Definition normalizeMin (min step : num) : num :=
  let mod_ := util_mod min step in
  if (mod_ === n_ 0)%num then min
  else subtraction min (if (min >=? n_ 0)%num then mod_ else (step + mod_)%num).

(** [_calculateScale] *)
Definition calculateScale (min max : num) : scale :=
  let '(saveMin, max, min) :=
    if (min <? n_ 0)%num then (min, (max - min)%num, n_ 0)
    else (n_ 0, max, min) in
  let iodValue := ((max - min) / n_ 20)%num in
  let scale_max := (max + iodValue + saveMin)%num in
  let scale_min :=
    if (max / n_ 6 >? min)%num then (n_ 0 + saveMin)%num
    else (min - iodValue + saveMin)%num in
  mkScale scale_min scale_max.

(** [_makeLabelsFromScale] *)
Definition makeLabelsFromScale (sc : scale) (step : num) : result (list num) :=
  let multipleNum := findMultipleNum [step] in
  let min := (scale_min sc * multipleNum)%num in
  let max := (scale_max sc * multipleNum)%num in
  labels <- range min (max + n_ 1)%num (Some (step * multipleNum)%num) ;;
  Ok (map (fun label => (label / multipleNum)%num) labels).

(** The callback of the loop of [_minimizeTickScale] over the tick
    indexes; the state is the scale being tightened. *)
Definition minimizeTickScale_each (userMin userMax step tickMin tickMax : num)
  (opts : options) (tickIndex : num) (sc : scale) : scale * bool :=
  let isUndefinedMin := isUndefined (opt_min opts) in
  let isUndefinedMax := isUndefined (opt_max opts) in
  let curStep := (step * tickIndex)%num in
  let curMin := (tickMin + curStep)%num in
  let curMax := (tickMax - curStep)%num in
  if (userMin <=? curMin)%num && (userMax >=? curMax)%num
  then (sc, false)
  else
    let sc1 :=
      if (isUndefinedMin && (userMin >? curMin)%num)
         || (negb isUndefinedMin
             && match opt_min opts with
                | Some m => (m >=? curMin)%num
                | None => false
                end)
      then mkScale curMin (scale_max sc)
      else sc in
    let sc2 :=
      if (isUndefinedMin && (userMax <? curMax)%num)
         || (negb isUndefinedMax
             && match opt_max opts with
                | Some m => (m <=? curMax)%num
                | None => false
                end)
      then mkScale (scale_min sc1) curMax
      else sc1 in
    (sc2, true).

(** [_minimizeTickScale] *)
Definition minimizeTickScale (userMin userMax : num) (ti : tickInfo)
  (opts : options) : result tickInfo :=
  ticks <- range (n_ 1) (ti_tickCount ti) None ;;
  let step := ti_step ti in
  let tickMax := scale_max (ti_scale ti) in
  let tickMin := scale_min (ti_scale ti) in
  let sc :=
    forEachArray ticks
      (minimizeTickScale_each userMin userMax step tickMin tickMax opts)
      (ti_scale ti) in
  labels <- makeLabelsFromScale sc step ;;
  Ok (mkTickInfo sc step (Num.of_nat (length labels)) labels).

(** [_divideTickStep] *)
Definition divideTickStep (ti : tickInfo) (orgTickCount : num) : result tickInfo :=
  let step := ti_step ti in
  let sc := ti_scale ti in
  let tickCount := ti_tickCount ti in
  if ((step %% n_ 2) === n_ 0)%num
     && Num.truthy (tickCount %% n_ 2)%num
     && (Num.abs (orgTickCount - tickCount * n_ 2) <?
         Num.abs (orgTickCount - tickCount))%num
  then
    let step := (step / n_ 2)%num in
    labels <- makeLabelsFromScale sc step ;;
    Ok (mkTickInfo sc step (Num.of_nat (length labels)) labels)
  else Ok ti.

(** [_makeTickInfo], first part: the padded scale of [_calculateScale],
    mirrored back for a negative range, with the option bounds substituted
    ([scale.min = options.min || scale.min], and the same for [max]). *)
Definition makeTickInfo_scale (min max : num) (isMinus : bool) (opts : options)
  : scale :=
  let sc := calculateScale min max in
  let sc := if isMinus
            then mkScale (- scale_max sc)%num (- scale_min sc)%num
            else sc in
  let sc := mkScale (or_default (opt_min opts) (scale_min sc)) (scale_max sc) in
  mkScale (scale_min sc) (or_default (opt_max opts) (scale_max sc)).

(** [_makeTickInfo], second part: the scale aligned to the multiples of
    [step]: [scale.min] is normalized, [scale.max] is recomputed from it and
    extended by whole steps up to the former maximum [orgScaleMax], and a
    bound that lands on the data bound is moved one step away. *)
Definition makeTickInfo_align (isLineChart : bool) (tickCount : num) (sc : scale)
  (step userMin userMax : num) (opts : options) : scale :=
  let orgScaleMax := scale_max sc in
  let smin := normalizeMin (scale_min sc) step in
  let multipleNum := findMultipleNum [step] in
  let smax := (((smin * multipleNum)
                + (step * multipleNum * (tickCount - n_ 1))) / multipleNum)%num in
  let diffMax := (orgScaleMax - smax)%num in
  let smax :=
    if (diffMax >? n_ 0)%num then
      let modDiff := (diffMax %% step)%num in
      let divideDiff := Num.floor (diffMax / step)%num in
      (smax + step * (if (modDiff >? n_ 0)%num
                      then (divideDiff + n_ 1)%num else divideDiff))%num
    else smax in
  let smax :=
    if isUndefined (opt_max opts) && (smax === userMax)%num
    then (smax + step)%num else smax in
  let smin :=
    if (isLineChart || (userMin >? n_ 0)%num)
       && isUndefined (opt_min opts) && (smin === userMin)%num
    then (smin - step)%num else smin in
  mkScale smin smax.

(** [_makeTickInfo] *)
Definition makeTickInfo (isLineChart : bool) (tickCount min max userMin userMax : num)
  (isMinus : bool) (opts : options) : result tickInfo :=
  let sc := makeTickInfo_scale min max isMinus opts in
  let tmpStep := getScaleStep sc tickCount in
  step <- normalizeStep tmpStep ;;
  let sc := makeTickInfo_align isLineChart tickCount sc step userMin userMax opts in
  let ti := mkTickInfo sc step tickCount [] in
  ti <- minimizeTickScale userMin userMax ti opts ;;
  divideTickStep ti tickCount.

(** [_getTickInfoCandidates] *)
Definition getTickInfoCandidates (isLineChart : bool) (min max : num)
  (tickCounts : list num) (opts : options) : result (list tickInfo) :=
  let userMin := min in
  let userMax := max in
  let '(isMinus, min, max) :=
    if (min <? n_ 0)%num && (max <=? n_ 0)%num
    then (true, (- max)%num, (- min)%num)
    else (false, min, max) in
  mapM (fun tickCount =>
          makeTickInfo isLineChart tickCount min max userMin userMax isMinus opts)
       tickCounts.

(** The candidate tick counts of [_getTickInfo]:
    [options.tickCount ? [options.tickCount] : this._getCandidateTickCounts(chartDimension)]. *)
Definition getTickInfo_tickCounts (isVertical : bool) (chartDimension : dimension)
  (opts : options) : result (list num) :=
  match opt_tickCount opts with
  | Some tc => if Num.truthy tc then Ok [tc]
               else getCandidateTickCounts isVertical chartDimension
  | None => getCandidateTickCounts isVertical chartDimension
  end.

(** [_getTickInfo] *)
Definition getTickInfo (isVertical isLineChart : bool) (min max : num)
  (chartDimension : dimension) (opts : options) : result tickInfo :=
  let iti := makeIntegerTypeInfo min max opts in
  tickCounts <- getTickInfo_tickCounts isVertical chartDimension opts ;;
  candidates <-
    getTickInfoCandidates isLineChart (iti_min iti) (iti_max iti) tickCounts
                          (iti_options iti) ;;
  ti <- selectTickInfo (iti_min iti) (iti_max iti) candidates ;;
  Ok (makeOriginalTypeTickInfo ti (iti_divideNum iti)).

(** [_setValueAxisData], up to the formatting of the labels: the tick
    info the axis takes its [tickCount], [labels] and [scale] from. *)
Definition setValueAxisData (isVertical isLineChart : bool)
  (groupValues : list (list num)) (chartDimension : dimension) (opts : options)
  : result tickInfo :=
  let values := concat groupValues in
  min <- util_min values ;;
  max <- util_max values ;;
  getTickInfo isVertical isLineChart min max chartDimension opts.

End AxisModel.

Arguments findMultipleNum : simpl never.
Arguments util_mod : simpl never.
Arguments addition : simpl never.
Arguments subtraction : simpl never.
Arguments division : simpl never.
Arguments normalizeStep_standard : simpl never.
Arguments normalizeStep : simpl never.
Arguments normalizeMin : simpl never.
Arguments getScaleStep : simpl never.
Arguments calculateScale : simpl never.
Arguments makeLabelsFromScale : simpl never.
Arguments minimizeTickScale : simpl never.
Arguments divideTickStep : simpl never.
Arguments makeTickInfo : simpl never.
Arguments makeTickInfo_scale : simpl never.
Arguments makeTickInfo_align : simpl never.
Arguments range : simpl never.

(** Modelled from the spec: [decimalPlaces(x)], the number of digits after
    the decimal point, for a finite number whose decimal notation is finite
    and has at most 17 such digits.  It instantiates [underPointLength]
    where the model is run on concrete inputs. *)
Fixpoint decimalPlaces_rec (fuel : nat) (q : Q) : nat :=
  match fuel with
  | O => O
  | S fuel' =>
      if Qeq_bool (inject_Z (Qfloor q)) q then O
      else S (decimalPlaces_rec fuel' (q * 10))
  end.

Definition decimalPlaces (x : num) : nat :=
  match x with
  | Fin q => decimalPlaces_rec 17 q
  | _ => O
  end.

(** ** Sample inputs *)

(** The chart of the stories under [src/unnamed]: 1000 x 500 pixels. *)
Definition dim_1000x500 : dimension := mkDimension (n_ 1000) (n_ 500).

(** The option bounds of the story [positiveAndNegativeWithMinMax], with a
    tick count. *)
Definition opts_scenario_C (tickCount : Z) : options :=
  mkOptions (Some (n_ (-8000))) (Some (n_ 12000)) (Some (n_ tickCount)).

(** Only the tick count is set, to 5. *)
Definition opts_tickCount_5 : options := mkOptions None None (Some (n_ 5)).

(** Three hand-made candidates for the data range [2, 8]; the first two
    have the same comparing value. *)
Definition candidate_a : tickInfo :=
  mkTickInfo (mkScale (n_ 0) (n_ 10)) (n_ 5) (n_ 3) [n_ 0; n_ 5; n_ 10].
Definition candidate_b : tickInfo :=
  mkTickInfo (mkScale (n_ 1) (n_ 11)) (n_ 2) (n_ 6)
             [n_ 1; n_ 3; n_ 5; n_ 7; n_ 9; n_ 11].
Definition candidate_c : tickInfo :=
  mkTickInfo (mkScale (n_ 0) (n_ 12)) (n_ 4) (n_ 4) [n_ 0; n_ 4; n_ 8; n_ 12].

(** A candidate without bounds, as the pipeline builds it for a tick count
    of 1 (its comparing value is [NaN]). *)
Definition candidate_nan : tickInfo :=
  mkTickInfo (mkScale (n_ 0) NaN) PInf (n_ 0) [].

(** ** Predicates of the statements *)

(** Whether a call returned a number equal to [expected]. *)
Definition returns (r : result num) (expected : num) : bool :=
  match r with
  | Ok x => (x === expected)%num
  | Err _ => false
  end.

Definition is_NaN (a : num) : bool :=
  match a with NaN => true | _ => false end.

(** A finite number that is at least [a]. *)
Definition finite_from (a : Q) (x : num) : Prop :=
  exists q, x = Fin q /\ a <= q.

(** A candidate tick count above 1. *)
Definition above_1 (tc : num) : Prop := exists t, tc = Fin t /\ 1 < t.

(** A candidate tick count other than 1. *)
Definition not_1 (tc : num) : Prop := exists t, tc = Fin t /\ ~ t == 1.

(** [q] rounded up to a multiple of [s]; what [_normalizeStep] computes
    for a step [q >= 1] and its [standard] [s]. *)
Definition roundUp (q s : Q) : Q :=
  q + (if Qle_bool (Num.Qrem q s) 0 then 0 else s - Num.Qrem q s).

(** The tick count of a tick info is the number of its labels. *)
Definition labels_counted (ti : tickInfo) : Prop :=
  ti_tickCount ti = Num.of_nat (length (ti_labels ti)).

(** A tick info the pipeline produces: a candidate of [_makeTickInfo], or
    the selected output of [_getTickInfo] or [_setValueAxisData]. *)
Inductive produced (upl : num -> nat) (ti : tickInfo) : Prop :=
| produced_candidate isLineChart tickCount min max userMin userMax isMinus opts :
    makeTickInfo upl isLineChart tickCount min max userMin userMax isMinus opts = Ok ti ->
    produced upl ti
| produced_selected isVertical isLineChart min max dim opts :
    getTickInfo upl isVertical isLineChart min max dim opts = Ok ti ->
    produced upl ti
| produced_axis isVertical isLineChart groupValues dim opts :
    setValueAxisData upl isVertical isLineChart groupValues dim opts = Ok ti ->
    produced upl ti.

(** A scale with finite bounds that contains the data range [[ua, ub]]. *)
Definition contains (ua ub : Q) (sc : scale) : Prop :=
  exists l h, sc = mkScale (Fin l) (Fin h) /\ l <= ua /\ ub <= h.

(** What the candidates of a non-degenerate range have in common. *)
Definition good_candidate (ua ub : Q) (ti : tickInfo) : Prop :=
  contains ua ub (ti_scale ti) /\ exists s, ti_step ti = Fin s /\ 0 < s.

(** What a candidate built under the option bounds [om] and [oM] satisfies:
    its scale covers them, and its minimum is the largest multiple of the
    normalized step [s] that is not above [om]; the final step is [s] or,
    after halving, [s / 2]. *)
Definition override_ok (om oM : Q) (ti : tickInfo) : Prop :=
  exists lo hi st s (k : Z),
    ti_scale ti = mkScale (Fin lo) (Fin hi) /\
    ti_step ti = Fin st /\ (st == s \/ st == s / 2) /\ 0 < s /\
    lo <= om /\ om < lo + s /\ lo == s * inject_Z k /\ oM <= hi.

(** The invariant of the tightening loop under option bounds: the minimum
    stays [r] and the maximum stays at or above [oM]. *)
Definition keeps_min (r oM : Q) (sc : scale) : Prop :=
  exists h, sc = mkScale (Fin r) (Fin h) /\ oM <= h.

(** The candidate of a range reduced to one value: no bound, no label, a
    step of 0. *)
Definition degenerate (ti : tickInfo) : Prop :=
  ti_scale ti = mkScale NaN NaN /\
  (exists z, ti_step ti = Fin z /\ z == 0) /\
  ti_tickCount ti = Num.of_nat 0 /\ ti_labels ti = [].

(** ** The axis object *)

(** A label of an axis: a category name on a label axis, a number on a
    value axis, or what the format functions make of one. *)
Inductive label : Type :=
| LNum (n : num)
| LStr (s : string).

Definition AXIS_TYPE_VALUE : string := "value".
Definition AXIS_TYPE_LABEL : string := "label".
Definition DEFAULT_TICK_COUNT : num := n_ 5.

(** The options of an axis: the title beside the numeric options. *)
Record axisOptions : Type := mkAxisOptions {
  opt_title : option string;
  opt_numbers : options
}.

(** The fields of an [AxisModel], typed as the JSDoc of the class types
    them; [None] is [null]. *)
Record axisModel : Type := mkAxisModel {
  this_options : axisOptions;
  this_chartType : string;
  this_title : string;
  this_labels : list label;
  this_tickCount : num;
  this_scale : option scale;
  this_axisType : option string;
  this_isVertical : bool
}.

(** The [data] of the constructor: [labels] or [values] (a property that is
    absent is [None]), with what a value axis needs.  A format function is
    a pure function from a label to what it displays. *)
Record axisData : Type := mkAxisData {
  data_isVertical : bool;
  data_chartType : string;
  data_labels : option (list string);
  data_values : option (list (list num));
  data_chartDimension : dimension;
  data_formatFunctions : option (list (label -> label))
}.

(** [_formatLabels]: [ne.util.reduce] over [[label, f1, f2, ...]] without
    an initial value starts from [label] and applies the functions in
    order. *)
Definition formatLabels (labels : list label)
  (formatFunctions : option (list (label -> label))) : list label :=
  match formatFunctions with
  | None | Some [] => labels
  | Some fns =>
      map (fun label => fold_left (fun stored fn => fn stored) fns label) labels
  end.

(** [isLabelAxis] *)
Definition isLabelAxis (this : axisModel) : bool :=
  match this_axisType this with
  | Some t => String.eqb t AXIS_TYPE_LABEL
  | None => false
  end.

(** [isValueAxis] *)
Definition isValueAxis (this : axisModel) : bool :=
  match this_axisType this with
  | Some t => String.eqb t AXIS_TYPE_VALUE
  | None => false
  end.

(** [changeVerticalState] *)
Definition changeVerticalState (this : axisModel) (isVertical : bool) : axisModel :=
  mkAxisModel (this_options this) (this_chartType this) (this_title this)
    (this_labels this) (this_tickCount this) (this_scale this)
    (this_axisType this) isVertical.

(** [getValidTickCount] *)
Definition getValidTickCount (this : axisModel) : num :=
  if isValueAxis this then this_tickCount this else n_ 0.

(** [_setLabelAxisData].  (The methods that assign to [this] keep the
    underscore of their names.) *)
Definition _setLabelAxisData (this : axisModel) (labels : list string) : axisModel :=
  mkAxisModel (this_options this) (this_chartType this) (this_title this)
    (map LStr labels) (Num.of_nat (length labels) + n_ 1)%num (this_scale this)
    (Some AXIS_TYPE_LABEL) (this_isVertical this).

Section AxisObject.

Variable underPointLength : num -> nat.

(** [chartConst.CHART_TYPE_LINE] of [const.js], which is not part of the
    sources at hand. *)
Variable CHART_TYPE_LINE : string.

(** [_setValueAxisData], the whole method: the tick info of
    [setValueAxisData] above, the formatting of its labels, and the
    assignments to [this]. *)
Definition _setValueAxisData (this : axisModel) (groupValues : list (list num))
  (chartDimension : dimension) (formatFunctions : option (list (label -> label)))
  : result axisModel :=
  let isLineChart := String.eqb (this_chartType this) CHART_TYPE_LINE in
  tickInfo <- setValueAxisData underPointLength (this_isVertical this) isLineChart
                groupValues chartDimension (opt_numbers (this_options this)) ;;
  Ok (mkAxisModel (this_options this) (this_chartType this) (this_title this)
        (formatLabels (map LNum (ti_labels tickInfo)) formatFunctions)
        (ti_tickCount tickInfo) (Some (ti_scale tickInfo))
        (Some AXIS_TYPE_VALUE) (this_isVertical this)).

(** [_setData] *)
Definition _setData (this : axisModel) (data : axisData) : result axisModel :=
  let this :=
    mkAxisModel (this_options this) (data_chartType data) (this_title this)
      (this_labels this) (this_tickCount this) (this_scale this)
      (this_axisType this) (data_isVertical data) in
  match data_labels data with
  | Some labels => Ok (_setLabelAxisData this labels)
  | None =>
      match data_values data with
      | Some values =>
          _setValueAxisData this values (data_chartDimension data)
                            (data_formatFunctions data)
      | None => Ok this
      end
  end.

(** [init], the constructor.  [options || {}] is the options without any
    property; the title defaults to the empty string, which also replaces
    an empty title (it is falsy). *)
Definition init (data : option axisData) (options : option axisOptions)
  : result axisModel :=
  let options := match options with
                 | Some o => o
                 | None => mkAxisOptions None no_options
                 end in
  let this :=
    mkAxisModel options EmptyString
      (match opt_title options with Some t => t | None => EmptyString end)
      [] DEFAULT_TICK_COUNT None None false in
  match data with
  | Some d => _setData this d
  | None => Ok this
  end.

End AxisObject.

(** ** Predicates on sequences and axes *)

(** The list [a, a + s, a + 2 s, ...] of finite numbers. *)
Fixpoint arith_seq (a s : Q) (l : list num) : Prop :=
  match l with
  | [] => True
  | x :: l' => (exists q, x = Fin q /\ q == a) /\ arith_seq (a + s) s l'
  end.

(** A finite number that is an integer. *)
Definition whole (x : num) : Prop :=
  exists q (n : Z), x = Fin q /\ q == inject_Z n.

(** The tolerance of the specification, 1e-9.  The code computes on
    doubles, whose operations round: a property of a value that the code
    reaches through several operations on numbers that are not integers
    is stated up to this tolerance, relative to a magnitude [m] that the
    statement names, and not as an equation. *)
Definition tolerance : Q := 1 # 1000000000.

(** [x] and [y] differ by at most the tolerance on [m]. *)
Definition near (m x y : Q) : Prop := Qabs (x - y) <= tolerance * m.

(** [x] is at most [y], up to the tolerance on [m]. *)
Definition le_upto (m x y : Q) : Prop := x <= y + tolerance * m.

(** The labels are numbers, and the label of index [k] is [lo + k * s] up
    to the tolerance on the magnitude of [lo] and of [k + 1] steps. *)
Definition labels_near (lo s : Q) (labels : list num) : Prop :=
  forall k : nat, (k < length labels)%nat ->
  exists q, nth k labels NaN = Fin q /\
            near (Qabs lo + (inject_Z (Z.of_nat k) + 1) * s)
                 q (lo + inject_Z (Z.of_nat k) * s).

(** The usable lengths whose quotients by 60 and by 40 have a positional
    notation, so that [parseInt] reads their integer part: 0, and the
    lengths from 0.0001 on.  (The quotient by 60 reaches 1e-6 at 0.00006.
    On a shorter positive length [parseInt] reads the first digit of a
    quotient, which depends on how the quotient is rounded: the statements
    leave these lengths out.) *)
Definition positional_length (b : Q) : Prop := b == 0 \/ 1 # 10000 <= b.

(** A candidate tick count [n] on a usable length of [b] pixels: [n] ticks
    of 40 pixels fit, [n + 1] ticks of 60 pixels do not. *)
Definition in_pixel_band (b : Q) (x : num) : Prop :=
  exists q, x = Fin q /\ 40 * q <= b /\ b < 60 * (q + 1).

(** How the tick count of an axis relates to its labels: one more than the
    labels on a label axis, as many as the labels on a value axis, and the
    default of 5 without labels on an axis that got no data. *)
Definition tickCount_fits (this : axisModel) : Prop :=
  (isLabelAxis this = true /\ isValueAxis this = false /\
   this_tickCount this = (Num.of_nat (length (this_labels this)) + n_ 1)%num /\
   getValidTickCount this = n_ 0) \/
  (isValueAxis this = true /\ isLabelAxis this = false /\
   this_tickCount this = Num.of_nat (length (this_labels this)) /\
   getValidTickCount this = Num.of_nat (length (this_labels this))) \/
  (isLabelAxis this = false /\ isValueAxis this = false /\
   this_labels this = [] /\ this_tickCount this = DEFAULT_TICK_COUNT /\
   getValidTickCount this = n_ 0).

(** A scale on the grid of the step [s] that has the data range
    [[ua, ub]] inside: both bounds are integer multiples of [s], the maximum
    is above [ub], and the minimum is below [ua] on a line chart or for a
    positive [ua] (at most [ua] otherwise). *)
Definition fine_scale (isLineChart : bool) (ua ub s : Q) (sc : scale) : Prop :=
  exists l h (i j : Z),
    sc = mkScale (Fin l) (Fin h) /\
    l <= ua /\ ub < h /\ (isLineChart = true \/ 0 < ua -> l < ua) /\
    l == s * inject_Z i /\ h == s * inject_Z j.

(** A candidate with a positive step and a scale that is fine for it. *)
Definition fine_candidate (isLineChart : bool) (ua ub : Q) (ti : tickInfo) : Prop :=
  exists st, ti_step ti = Fin st /\ 0 < st /\
             fine_scale isLineChart ua ub st (ti_scale ti).

(** An integer tick count above 1. *)
Definition whole_above_1 (tc : num) : Prop :=
  exists t (n : Z), tc = Fin t /\ t == inject_Z n /\ 1 < t.

(** The labels of a tick info are the labels of its scale and step. *)
Definition labels_from (upl : num -> nat) (ti : tickInfo) : Prop :=
  makeLabelsFromScale upl (ti_scale ti) (ti_step ti) = Ok (ti_labels ti).

(** * Properties *)

(** ** Truncation and remainder on rationals *)

Lemma Qtrunc_comp (a b : Q) : a == b -> Num.Qtrunc a = Num.Qtrunc b.
Proof.
  intros H. unfold Num.Qtrunc.
  rewrite (Qfloor_comp _ _ H), (Qceiling_comp _ _ H), (Qleb_comp 0 0 (Qeq_refl 0) _ _ H).
  reflexivity.
Qed.

Lemma Qrem_comp (a a' b b' : Q) :
  a == a' -> b == b' -> Num.Qrem a b == Num.Qrem a' b'.
Proof.
  intros Ha Hb. unfold Num.Qrem.
  rewrite (Qtrunc_comp (a / b) (a' / b')) by (rewrite Ha, Hb; reflexivity).
  rewrite Ha, Hb. reflexivity.
Qed.

Lemma Qtrunc_nonneg (q : Q) :
  0 <= q -> inject_Z (Num.Qtrunc q) <= q /\ q < inject_Z (Num.Qtrunc q) + 1.
Proof.
  intros H. unfold Num.Qtrunc.
  destruct (Qle_bool 0 q) eqn:E.
  - split; [apply Qfloor_le|].
    pose proof (Qlt_floor q) as L. rewrite inject_Z_plus in L. exact L.
  - rewrite <- Qle_bool_iff in H. congruence.
Qed.

Lemma Qtrunc_neg (q : Q) :
  q < 0 -> q <= inject_Z (Num.Qtrunc q) /\ inject_Z (Num.Qtrunc q) < q + 1.
Proof.
  intros H. unfold Num.Qtrunc.
  destruct (Qle_bool 0 q) eqn:E.
  - apply Qle_bool_iff in E. lra.
  - split; [apply Qle_ceiling|].
    pose proof (Qceiling_lt q) as L.
    replace (Qceiling q - 1)%Z with (Qceiling q + (-1))%Z in L by lia.
    rewrite inject_Z_plus in L. change (inject_Z (-1)) with (-1 # 1) in L. lra.
Qed.

Lemma Qdiv_mult_cancel (a b : Q) : ~ b == 0 -> b * (a / b) == a.
Proof. intros H. field. exact H. Qed.

Lemma Qrem_bounds_nonneg (a b : Q) :
  0 < b -> 0 <= a -> 0 <= Num.Qrem a b /\ Num.Qrem a b < b.
Proof.
  intros Hb Ha. unfold Num.Qrem.
  assert (Hx : b * (a / b) == a) by (apply Qdiv_mult_cancel; lra).
  assert (H0 : 0 <= a / b).
  { apply Qle_shift_div_l; lra. }
  destruct (Qtrunc_nonneg _ H0) as [L U].
  set (t := inject_Z (Num.Qtrunc (a / b))) in *.
  set (x := a / b) in *.
  split; nra.
Qed.

Lemma Qrem_bounds_nonpos (a b : Q) :
  0 < b -> a < 0 -> - b < Num.Qrem a b /\ Num.Qrem a b <= 0.
Proof.
  intros Hb Ha. unfold Num.Qrem.
  assert (Hx : b * (a / b) == a) by (apply Qdiv_mult_cancel; lra).
  assert (H0 : a / b < 0).
  { apply Qlt_shift_div_r; lra. }
  destruct (Qtrunc_neg _ H0) as [L U].
  set (t := inject_Z (Num.Qtrunc (a / b))) in *.
  set (x := a / b) in *.
  split; nra.
Qed.

Lemma Qrem_scale (a b m : Q) :
  0 < m -> Num.Qrem (a * m) (b * m) == Num.Qrem a b * m.
Proof.
  intros Hm. unfold Num.Qrem.
  assert (E : a * m / (b * m) == a / b).
  { destruct (Qeq_dec b 0) as [Hb|Hb].
    - rewrite Hb. unfold Qdiv. 
      assert (Z0: 0 * m == 0) by ring. rewrite Z0. change (/ 0) with 0. ring.
    - field. split; lra. }
  rewrite (Qtrunc_comp _ _ E). ring.
Qed.

Lemma is_zero_false (q : Q) : ~ q == 0 -> Num.is_zero q = false.
Proof.
  intros H. unfold Num.is_zero. destruct (Qeq_bool q 0) eqn:E; [|reflexivity].
  apply Qeq_bool_eq in E. contradiction.
Qed.

Lemma is_zero_true (q : Q) : q == 0 -> Num.is_zero q = true.
Proof. intros H. apply Qeq_eq_bool. exact H. Qed.

Lemma pow10_fin (k : nat) : exists m, Num.pow10 k = Fin m /\ 1 <= m.
Proof.
  exists (inject_Z (10 ^ Z.of_nat k)). split; [reflexivity|].
  change 1 with (inject_Z 1). rewrite <- Zle_Qle.
  assert (0 < 10 ^ Z.of_nat k)%Z by (apply Z.pow_pos_nonneg; lia). lia.
Qed.

Section Helpers.
Variable upl : num -> nat.

Lemma findMultipleNum_fin (args : list num) :
  exists m, findMultipleNum upl args = Fin m /\ 1 <= m.
Proof. apply pow10_fin. Qed.

Lemma util_mod_fin (a b : Q) :
  ~ b == 0 ->
  exists r, util_mod upl (Fin a) (Fin b) = Fin r /\ r == Num.Qrem a b.
Proof.
  intros Hb. unfold util_mod.
  destruct (findMultipleNum_fin [Fin b]) as [m [-> Hm]]. cbn.
  rewrite (is_zero_false (b * m)) by nra.
  cbn. rewrite (is_zero_false m) by lra.
  eexists. split; [reflexivity|].
  rewrite Qrem_scale by lra. field. lra.
Qed.

Lemma util_mod_zero (a b : Q) :
  b == 0 -> util_mod upl (Fin a) (Fin b) = NaN.
Proof.
  intros Hb. unfold util_mod.
  destruct (findMultipleNum_fin [Fin b]) as [m [-> Hm]]. cbn.
  rewrite (is_zero_true (b * m)) by (rewrite Hb; ring). reflexivity.
Qed.

Lemma addition_fin (a b : Q) :
  exists r, addition upl (Fin a) (Fin b) = Fin r /\ r == a + b.
Proof.
  unfold addition.
  destruct (findMultipleNum_fin [Fin a; Fin b]) as [m [-> Hm]]. cbn.
  rewrite (is_zero_false m) by lra.
  eexists. split; [reflexivity|]. field. lra.
Qed.

Lemma subtraction_fin (a b : Q) :
  exists r, subtraction upl (Fin a) (Fin b) = Fin r /\ r == a - b.
Proof.
  unfold subtraction.
  destruct (findMultipleNum_fin [Fin a; Fin b]) as [m [-> Hm]]. cbn.
  rewrite (is_zero_false m) by lra.
  eexists. split; [reflexivity|]. field. lra.
Qed.

Lemma division_fin (a b : Q) :
  ~ b == 0 ->
  exists r, division upl (Fin a) (Fin b) = Fin r /\ r == a / b.
Proof.
  intros Hb. unfold division.
  destruct (findMultipleNum_fin [Fin a; Fin b]) as [m [-> Hm]]. cbn.
  rewrite (is_zero_false (b * m)) by nra.
  eexists. split; [reflexivity|]. field. split; lra.
Qed.

End Helpers.

(** ** Comparisons *)

Lemma Qle_bool_false (x y : Q) : Qle_bool x y = false -> y < x.
Proof.
  intros H. apply Qnot_le_lt. intros L. apply Qle_bool_iff in L. congruence.
Qed.

Lemma Qle_bool_true_of (x y : Q) : x <= y -> Qle_bool x y = true.
Proof. apply Qle_bool_iff. Qed.

Lemma Qle_bool_false_of (x y : Q) : y < x -> Qle_bool x y = false.
Proof.
  intros H. destruct (Qle_bool x y) eqn:E; [|reflexivity].
  apply Qle_bool_iff in E. lra.
Qed.

(** Turns boolean comparisons of the context into propositions. *)
Ltac qprop :=
  repeat match goal with
  | H : Qle_bool _ _ = true |- _ => apply Qle_bool_iff in H
  | H : Qle_bool _ _ = false |- _ => apply Qle_bool_false in H
  | H : Qeq_bool _ _ = true |- _ => apply Qeq_bool_eq in H
  | H : Qeq_bool _ _ = false |- _ => apply Qeq_bool_neq in H
  | H : negb _ = true |- _ => apply negb_true_iff in H
  | H : negb _ = false |- _ => apply negb_false_iff in H
  | H : Num.is_zero _ = _ |- _ => unfold Num.is_zero in H
  | H : Num.is_pos _ = _ |- _ => unfold Num.is_pos in H
  | H : Num.is_neg _ = _ |- _ => unfold Num.is_neg in H
  | H : _ && _ = true |- _ => apply andb_true_iff in H; destruct H
  end.


(** ** Step normalization *)

Ltac std_unfold := unfold normalizeStep_standard; cbn; unfold inject_Z.

Lemma standard_lt1 (q : Q) : q < 1 -> normalizeStep_standard (Fin q) = n_ 0.
Proof.
  intros H. std_unfold.
  rewrite (Qle_bool_false_of 1 q) by lra. reflexivity.
Qed.

Lemma standard_1_2 (q : Q) : 1 <= q -> q < 2 -> normalizeStep_standard (Fin q) = n_ 2.
Proof.
  intros H1 H2. std_unfold.
  rewrite (Qle_bool_true_of 1 q) by lra. cbn.
  rewrite (Qle_bool_false_of 2 q) by lra. reflexivity.
Qed.

Lemma standard_2_5 (q : Q) : 2 <= q -> q < 5 -> normalizeStep_standard (Fin q) = n_ 5.
Proof.
  intros H1 H2. std_unfold.
  rewrite (Qle_bool_true_of 1 q) by lra. cbn.
  rewrite (Qle_bool_true_of 2 q) by lra. cbn.
  rewrite (Qle_bool_false_of 5 q) by lra. reflexivity.
Qed.

Lemma standard_ge5 (q : Q) : 5 <= q -> normalizeStep_standard (Fin q) = n_ 10.
Proof.
  intros H1. std_unfold.
  rewrite (Qle_bool_true_of 1 q) by lra. cbn.
  rewrite (Qle_bool_true_of 2 q) by lra. cbn.
  rewrite (Qle_bool_true_of 5 q) by lra. cbn.
  destruct (Qle_bool 10 q); reflexivity.
Qed.

Lemma Qtrunc_Z (k : Z) : Num.Qtrunc (inject_Z k) = k.
Proof.
  unfold Num.Qtrunc. rewrite Qfloor_Z, Qceiling_Z.
  destruct (Qle_bool 0 (inject_Z k)); reflexivity.
Qed.

Lemma Qrem_multiple (s : Q) (k : Z) : ~ s == 0 -> Num.Qrem (s * inject_Z k) s == 0.
Proof.
  intros Hs. unfold Num.Qrem.
  assert (E : s * inject_Z k / s == inject_Z k) by (field; exact Hs).
  rewrite (Qtrunc_comp _ _ E), Qtrunc_Z. ring.
Qed.

Lemma roundUp_spec (q s : Q) :
  0 < s -> 0 <= q ->
  q <= roundUp q s /\ roundUp q s < q + s /\
  exists k : Z, roundUp q s == s * inject_Z k.
Proof.
  intros Hs Hq. unfold roundUp.
  destruct (Qrem_bounds_nonneg q s Hs Hq) as [L U].
  destruct (Qle_bool (Num.Qrem q s) 0) eqn:E; qprop.
  - repeat split; try lra.
    exists (Num.Qtrunc (q / s)). unfold Num.Qrem in *. lra.
  - repeat split; try lra.
    exists (Num.Qtrunc (q / s) + 1)%Z. rewrite inject_Z_plus.
    unfold Num.Qrem in *. change (inject_Z 1) with 1. lra.
Qed.

Section NormalizeStep.
Variable upl : num -> nat.

Lemma normalizeStep_rec_zero (fuel : nat) (q : Q) :
  q == 0 -> normalizeStep_rec upl fuel (Fin q) = Ok (Fin q).
Proof.
  intros H. destruct fuel; cbn; unfold inject_Z;
    rewrite (Qeq_eq_bool _ _ H); reflexivity.
Qed.

Lemma normalizeStep_rec_standard (fuel : nat) (q s : Q) :
  ~ q == 0 -> normalizeStep_standard (Fin q) = Fin s -> 1 <= s ->
  exists r, normalizeStep_rec upl fuel (Fin q) = Ok (Fin r) /\ r == roundUp q s.
Proof.
  intros Hq Hstd Hs.
  assert (E : normalizeStep_rec upl fuel (Fin q) =
    Ok (addition upl (Fin q)
          (if (util_mod upl (Fin q) (Fin s) >? n_ 0)%num
           then (Fin s - util_mod upl (Fin q) (Fin s))%num else n_ 0))).
  { destruct fuel; cbn; unfold inject_Z;
      change (Qeq_bool q 0) with (Num.is_zero q); rewrite (is_zero_false _ Hq);
      rewrite Hstd; cbn; unfold inject_Z;
      rewrite (Qle_bool_true_of 1 s) by lra; reflexivity. }
  rewrite E. clear E.
  destruct (util_mod_fin upl q s) as [m [-> Hm]]; [lra|].
  cbn. unfold inject_Z, roundUp.
  rewrite (Qleb_comp _ _ Hm 0 0 (Qeq_refl 0)).
  destruct (Qle_bool (Num.Qrem q s) 0) eqn:Er; cbn.
  - change (n_ 0) with (Fin 0). destruct (addition_fin upl q 0) as [r [-> Hr]].
    exists r. split; [reflexivity|]. lra.
  - destruct (addition_fin upl q (s + - m)) as [r [-> Hr]].
    exists r. split; [reflexivity|]. lra.
Qed.


Lemma normalizeStep_rec_lt1 (fuel : nat) (q : Q) :
  ~ q == 0 -> q < 1 ->
  normalizeStep_rec upl (S fuel) (Fin q) =
  (r <- normalizeStep_rec upl fuel (Fin (q * 10)) ;; Ok (r * Fin (1 # 10))%num).
Proof.
  intros Hq H1. cbn. unfold inject_Z.
  change (Qeq_bool q 0) with (Num.is_zero q). rewrite (is_zero_false _ Hq).
  rewrite (standard_lt1 q H1). reflexivity.
Qed.

Lemma normalizeStep_rec_neg (fuel : nat) :
  forall q, q < 0 -> normalizeStep_rec upl fuel (Fin q) = Err RangeError.
Proof.
  induction fuel as [|fuel IH]; intros q Hq.
  - cbn. unfold inject_Z.
    change (Qeq_bool q 0) with (Num.is_zero q).
    rewrite (is_zero_false q) by lra.
    rewrite (standard_lt1 q) by lra. reflexivity.
  - rewrite normalizeStep_rec_lt1 by lra.
    rewrite IH by lra. reflexivity.
Qed.

Lemma normalizeStep_rec_ge1 (fuel : nat) (q : Q) :
  1 <= q ->
  exists r, normalizeStep_rec upl fuel (Fin q) = Ok (Fin r) /\
            q <= r /\ r < q + 10.
Proof.
  intros Hq.
  assert (C : q < 2 \/ (2 <= q /\ q < 5) \/ 5 <= q) by lra.
  destruct C as [C|[[C1 C2]|C]].
  - destruct (normalizeStep_rec_standard fuel q 2) as [r [E Hr]];
      [lra | apply standard_1_2; lra | lra |].
    exists r. split; [exact E|].
    destruct (roundUp_spec q 2) as [A [B _]]; lra.
  - destruct (normalizeStep_rec_standard fuel q 5) as [r [E Hr]];
      [lra | apply standard_2_5; lra | lra |].
    exists r. split; [exact E|].
    destruct (roundUp_spec q 5) as [A [B _]]; lra.
  - destruct (normalizeStep_rec_standard fuel q 10) as [r [E Hr]];
      [lra | apply standard_ge5; lra | lra |].
    exists r. split; [exact E|].
    destruct (roundUp_spec q 10) as [A [B _]]; lra.
Qed.

Lemma normalizeStep_rec_pos (fuel : nat) :
  forall q, 0 < q -> 1 <= q * inject_Z (10 ^ Z.of_nat fuel) ->
  exists r, normalizeStep_rec upl fuel (Fin q) = Ok (Fin r) /\ q <= r.
Proof.
  induction fuel as [|fuel IH]; intros q Hq Hf.
  - change (inject_Z (10 ^ Z.of_nat 0)) with 1 in Hf.
    destruct (normalizeStep_rec_ge1 0 q) as [r [E [A _]]]; [lra|].
    exists r. split; assumption.
  - destruct (Qlt_le_dec q 1) as [L|L].
    + rewrite normalizeStep_rec_lt1 by lra.
      destruct (IH (q * 10)) as [r [E A]]; [lra| |].
      * rewrite Nat2Z.inj_succ, Z.pow_succ_r in Hf by lia.
        rewrite inject_Z_mult in Hf. change (inject_Z 10) with 10 in Hf. lra.
      * rewrite E. cbn. eexists. split; [reflexivity|]. lra.
    + destruct (normalizeStep_rec_ge1 (S fuel) q) as [r [E [A _]]]; [lra|].
      exists r. split; assumption.
Qed.

Lemma size_nat_pow2 (p : positive) : (Z.pos p < 2 ^ Z.of_nat (Pos.size_nat p))%Z.
Proof.
  induction p as [p IH|p IH|]; cbn [Pos.size_nat].
  - rewrite Nat2Z.inj_succ, Z.pow_succ_r by lia. lia.
  - rewrite Nat2Z.inj_succ, Z.pow_succ_r by lia. lia.
  - cbn. lia.
Qed.

Lemma normalizeStep_fuel_enough (q : Q) :
  0 < q -> 1 <= q * inject_Z (10 ^ Z.of_nat (normalizeStep_fuel (Fin q))).
Proof.
  intros Hq. cbn [normalizeStep_fuel].
  pose proof (size_nat_pow2 (Qden q)) as Hs.
  set (n := Pos.size_nat (Qden q)) in *.
  assert (H2 : (2 ^ Z.of_nat n <= 10 ^ Z.of_nat n)%Z)
    by (apply Z.pow_le_mono_l; lia).
  assert (H3 : (10 ^ Z.of_nat n <= 10 ^ Z.of_nat (S n))%Z)
    by (apply Z.pow_le_mono_r; lia).
  set (P := (10 ^ Z.of_nat (S n))%Z) in *.
  destruct q as [a d]. cbn [Qden] in *.
  unfold Qlt in Hq. cbn in Hq.
  unfold Qle, Qmult, inject_Z. cbn.
  nia.
Qed.

Lemma normalizeStep_pos (q : Q) :
  0 < q ->
  exists r, normalizeStep upl (Fin q) = Ok (Fin r) /\ q <= r.
Proof.
  intros Hq. unfold normalizeStep.
  apply normalizeStep_rec_pos; [exact Hq|].
  apply normalizeStep_fuel_enough. exact Hq.
Qed.

Lemma normalizeStep_neg (q : Q) :
  q < 0 -> normalizeStep upl (Fin q) = Err RangeError.
Proof. intros Hq. apply normalizeStep_rec_neg. exact Hq. Qed.

Lemma normalizeStep_zero (q : Q) :
  q == 0 -> normalizeStep upl (Fin q) = Ok (Fin q).
Proof. intros Hq. apply normalizeStep_rec_zero. exact Hq. Qed.

Lemma normalizeStep_PInf : normalizeStep upl PInf = Ok PInf.
Proof.
  unfold normalizeStep. cbn. unfold normalizeStep_standard. cbn.
  unfold util_mod.
  destruct (findMultipleNum_fin upl [n_ 10]) as [m [-> Hm]].
  cbn. rewrite (is_zero_false m) by lra.
  unfold Num.is_pos. rewrite (Qle_bool_false_of m 0) by lra. cbn.
  unfold addition.
  destruct (findMultipleNum_fin upl [PInf; n_ 0]) as [m' [-> Hm']].
  cbn. rewrite (is_zero_false m') by lra.
  unfold Num.is_pos. rewrite (Qle_bool_false_of m' 0) by lra. cbn.
  unfold Num.is_neg. rewrite (Qle_bool_true_of 0 m') by lra. reflexivity.
Qed.

Lemma normalizeStep_NaN : normalizeStep upl NaN = Ok NaN.
Proof.
  unfold normalizeStep. cbn. unfold normalizeStep_standard. cbn.
  unfold util_mod.
  destruct (findMultipleNum_fin upl [n_ 10]) as [m [-> Hm]].
  cbn. unfold addition.
  destruct (findMultipleNum_fin upl [NaN; n_ 0]) as [m' [-> Hm']].
  reflexivity.
Qed.

Lemma normalizeStep_rec_NInf (fuel : nat) :
  normalizeStep_rec upl fuel NInf = Err RangeError.
Proof.
  induction fuel as [|fuel IH]; [reflexivity|].
  cbn [normalizeStep_rec Num.eq n_ Num.of_Z Num.mul].
  change (normalizeStep_standard NInf) with (n_ 0).
  change (n_ 0 <? n_ 1)%num with true. cbn iota.
  change (Num.is_zero (inject_Z 10)) with false.
  change (Num.signed_inf (Num.is_neg (inject_Z 10))) with NInf.
  cbn iota. rewrite IH. reflexivity.
Qed.

Lemma normalizeStep_NInf : normalizeStep upl NInf = Err RangeError.
Proof. apply normalizeStep_rec_NInf. Qed.

End NormalizeStep.

Lemma roundUp_multiple (s : Q) (k : Z) :
  0 < s -> roundUp (s * inject_Z k) s == s * inject_Z k.
Proof.
  intros Hs. unfold roundUp.
  assert (E : Num.Qrem (s * inject_Z k) s == 0) by (apply Qrem_multiple; lra).
  rewrite (Qleb_comp _ _ E 0 0 (Qeq_refl 0)). cbn. ring.
Qed.

Lemma roundUp_comp (q q' s : Q) : q == q' -> roundUp q s == roundUp q' s.
Proof.
  intros E. unfold roundUp.
  assert (R : Num.Qrem q s == Num.Qrem q' s) by (apply Qrem_comp; [exact E|reflexivity]).
  rewrite (Qleb_comp _ _ R 0 0 (Qeq_refl 0)).
  destruct (Qle_bool (Num.Qrem q' s) 0); rewrite ?R, E; reflexivity.
Qed.

(** ** [ne.util.range] *)


Lemma range_loop_up (fuel : nat) :
  forall a b s,
    0 < s -> (b - a) / s <= inject_Z (Z.of_nat fuel) ->
    exists l, range_loop fuel (n_ 1) (Fin a) (Fin b) (Fin s) = Ok l /\
              Forall (finite_from a) l /\
              (a < b -> exists l', l = Fin a :: l').
Proof.
  induction fuel as [|fuel IH]; intros a b s Hs Hf.
  - assert (Hba : b <= a).
    { change (inject_Z (Z.of_nat 0)) with 0 in Hf.
      assert (E : b - a == s * ((b - a) / s)) by (field; lra).
      nra. }
    exists []. cbn. unfold inject_Z.
    rewrite (Qle_bool_true_of b (a * 1)) by lra.
    split; [reflexivity|]. split; [constructor|]. intros; lra.
  - cbn [range_loop]. cbn [Num.mul Num.lt n_ Num.of_Z]. unfold inject_Z at 1.
    destruct (Qle_bool b (a * 1)) eqn:E; qprop; cbn [negb].
    + exists []. split; [reflexivity|]. split; [constructor|]. intros; lra.
    + destruct (IH (a + s) b s Hs) as [l [El [Fl _]]].
      { rewrite Nat2Z.inj_succ in Hf. unfold Z.succ in Hf.
        rewrite inject_Z_plus in Hf. change (inject_Z 1) with 1 in Hf.
        assert (E2 : (b - (a + s)) / s == (b - a) / s - 1) by (field; lra).
        rewrite E2. lra. }
      cbn [Num.add]. rewrite El. cbn [bind].
      exists (Fin a :: l). split; [reflexivity|]. split.
      * constructor; [exists a; split; [reflexivity|lra]|].
        eapply Forall_impl; [|exact Fl].
        intros x [q [-> Hq]]. exists q. split; [reflexivity|lra].
      * intros _. exists l. reflexivity.
Qed.

Lemma range_fuel_up (a b s : Q) :
  0 < s ->
  (b - a) / s <= inject_Z (Z.of_nat (range_fuel (n_ 1) (Fin a) (Fin b) (Fin s))).
Proof.
  intros Hs. cbn [range_fuel n_ Num.of_Z]. change (inject_Z 1) with 1.
  set (x := (b - a * 1) / Qabs s).
  assert (E : (b - a) / s == x).
  { unfold x. rewrite (Qabs_pos s) by lra. field. lra. }
  rewrite E.
  apply Qle_trans with (inject_Z (Qceiling x)); [apply Qle_ceiling|].
  rewrite <- Zle_Qle. lia.
Qed.

(** The two-argument call [range(start, stop)] on finite numbers *)
Lemma range_None_fin (a b : Q) :
  exists l, range (Fin a) (Fin b) None = Ok l /\
            Forall (finite_from a) l /\
            (a < b -> exists l', l = Fin a :: l').
Proof.
  unfold range. cbn [Num.lt n_ Num.of_Z Num.mul]. unfold inject_Z at 1 2.
  cbn [Qle_bool Qnum Qden Z.leb Z.mul Z.compare Pos.mul negb Pos.compare Z.pos_sub].
  change (n_ 1) with (Fin 1) in *.
  change (Num.of_Z 1) with (Fin 1).
  destruct (range_loop_up (range_fuel (Fin 1) (Fin a) (Fin (b * inject_Z 1)) (Fin 1))
              a (b * inject_Z 1) 1) as [l [E [F N]]]; [lra | |].
  { apply (range_fuel_up a (b * inject_Z 1) 1). lra. }
  exists l. split; [exact E|]. split; [exact F|].
  intros H. apply N. change (inject_Z 1) with 1. lra.
Qed.

(** The call [range(start, stop, step)] with a non-negative finite step *)
Lemma range_Some_fin (a b s : Q) :
  0 <= s ->
  exists l, range (Fin a) (Fin b) (Some (Fin s)) = Ok l /\
            Forall (finite_from a) l.
Proof.
  intros Hs. unfold range. cbn [Num.truthy].
  destruct (Num.is_zero s) eqn:Z; qprop; cbn [negb].
  - destruct (range_None_fin a b) as [l [E [F _]]].
    exists l. split; [exact E| exact F].
  - cbn [Num.lt n_ Num.of_Z Num.mul].
    rewrite (Qle_bool_true_of (inject_Z 0) s) by (change (inject_Z 0) with 0; lra).
    cbn [negb Num.mul].
    destruct (range_loop_up (range_fuel (Fin 1) (Fin a) (Fin (b * inject_Z 1)) (Fin s))
              a (b * inject_Z 1) s) as [l [E [F N]]]; [lra | |].
    { apply (range_fuel_up a (b * inject_Z 1) s). lra. }
    exists l. split; [exact E| exact F].
Qed.

Lemma Qtrunc_mono_nonneg (x y : Q) :
  0 <= x -> x <= y -> (Num.Qtrunc x <= Num.Qtrunc y)%Z.
Proof.
  intros Hx Hxy. unfold Num.Qtrunc.
  rewrite (Qle_bool_true_of 0 x) by lra.
  rewrite (Qle_bool_true_of 0 y) by lra.
  apply Qfloor_resp_le. exact Hxy.
Qed.

(** ** Order on numbers *)

Lemma num_lt_trans (a b c : num) :
  (a <? b)%num = true -> (b <? c)%num = true -> (a <? c)%num = true.
Proof.
  destruct a, b, c; cbn; intros H1 H2; try discriminate; try reflexivity.
  qprop. apply negb_true_iff. apply Qle_bool_false_of. lra.
Qed.

Lemma num_lt_le_trans (a b c : num) :
  (a <? b)%num = true -> (b <=? c)%num = true -> (a <? c)%num = true.
Proof.
  destruct a, b, c; cbn; intros H1 H2; try discriminate; try reflexivity.
  qprop. apply negb_true_iff. apply Qle_bool_false_of. lra.
Qed.

Lemma num_le_trans (a b c : num) :
  (a <=? b)%num = true -> (b <=? c)%num = true -> (a <=? c)%num = true.
Proof.
  destruct a, b, c; cbn; intros H1 H2; try discriminate; try reflexivity.
  qprop. apply Qle_bool_iff. lra.
Qed.

Lemma num_lt_le (a b : num) : (a <? b)%num = true -> (a <=? b)%num = true.
Proof.
  destruct a, b; cbn; intros H1; try discriminate; try reflexivity.
  qprop. apply Qle_bool_iff. lra.
Qed.

Lemma num_not_gt_le (a b : num) :
  is_NaN a = false -> is_NaN b = false ->
  (a >? b)%num = false -> (a <=? b)%num = true.
Proof.
  unfold Num.gt.
  destruct a, b; cbn; intros Ha Hb H1; try discriminate; try reflexivity.
  qprop. apply Qle_bool_iff. lra.
Qed.

Lemma num_le_refl (a : num) : is_NaN a = false -> (a <=? a)%num = true.
Proof.
  destruct a; cbn; intros H; try discriminate; try reflexivity.
  apply Qle_bool_iff. lra.
Qed.

(** ** Candidate selection *)

Section Select.
Variable upl : num -> nat.
Variables min max : num.

Lemma selectTickInfo_loop (rest : list tickInfo) :
  forall pre cur mid,
    is_NaN (comparingValueOf upl min max cur) = false ->
    Forall (fun c => is_NaN (comparingValueOf upl min max c) = false) rest ->
    Forall (fun c => (comparingValueOf upl min max cur <? comparingValueOf upl min max c)%num = true) pre ->
    Forall (fun c => (comparingValueOf upl min max cur <=? comparingValueOf upl min max c)%num = true) mid ->
    exists pre' sel post,
      pre ++ cur :: mid ++ rest = pre' ++ sel :: post /\
      fst (forEachArray rest (selectTickInfo_each upl min max) (cur, comparingValueOf upl min max cur)) = sel /\
      Forall (fun c => (comparingValueOf upl min max sel <? comparingValueOf upl min max c)%num = true) pre' /\
      Forall (fun c => (comparingValueOf upl min max sel <=? comparingValueOf upl min max c)%num = true) post.
Proof.
  induction rest as [|c rest IH]; intros pre cur mid Hcur Hrest Hpre Hmid.
  - exists pre, cur, mid. rewrite app_nil_r. cbn. auto.
  - inversion Hrest as [|? ? Hc Hrest']; subst.
    cbn [forEachArray selectTickInfo_each].
    fold (comparingValueOf upl min max c).
    destruct (comparingValueOf upl min max cur >? comparingValueOf upl min max c)%num eqn:G.
    + unfold Num.gt in G.
      destruct (IH (pre ++ cur :: mid) c [] Hc Hrest') as [pre' [sel [post [E [S [P1 P2]]]]]].
      * apply Forall_app. split.
        -- eapply Forall_impl; [|exact Hpre]. intros x Hx.
           eapply num_lt_trans; eassumption.
        -- constructor; [exact G|].
           eapply Forall_impl; [|exact Hmid]. intros x Hx.
           eapply num_lt_le_trans; eassumption.
      * constructor.
      * exists pre', sel, post. repeat split; try assumption.
        rewrite <- E. cbn. rewrite <- app_assoc. reflexivity.
    + destruct (IH pre cur (mid ++ [c]) Hcur Hrest' Hpre) as [pre' [sel [post [E [S [P1 P2]]]]]].
      * apply Forall_app. split; [exact Hmid|].
        constructor; [|constructor].
        apply num_not_gt_le; assumption.
      * exists pre', sel, post. repeat split; try assumption.
        rewrite <- E. rewrite <- app_assoc. reflexivity.
Qed.

End Select.

(** ** Generic facts on the control operators *)

Lemma forEachArray_inv {A S : Type} (P : S -> Prop) (l : list A)
  (f : A -> S -> S * bool) (s : S) :
  P s ->
  (forall a s, In a l -> P s -> P (fst (f a s))) ->
  P (forEachArray l f s).
Proof.
  revert s. induction l as [|a l IH]; intros s Hs Hf; [exact Hs|].
  cbn [forEachArray].
  pose proof (Hf a s (or_introl eq_refl) Hs) as H1.
  destruct (f a s) as [s' c]. cbn [fst] in H1.
  destruct c; [|exact H1].
  apply IH; [exact H1|]. intros a' s0 Hin. apply Hf. right. exact Hin.
Qed.

Lemma mapM_In {A B : Type} (f : A -> result B) (l : list A) :
  forall l', mapM f l = Ok l' ->
  forall y, In y l' -> exists x, In x l /\ f x = Ok y.
Proof.
  induction l as [|a l IH]; intros l' H y Hy.
  - cbn in H. injection H as <-. destruct Hy.
  - cbn [mapM] in H. destruct (f a) as [b|e] eqn:Ea; cbn [bind] in H; [|discriminate].
    destruct (mapM f l) as [bs|e] eqn:El; cbn [bind] in H; [|discriminate].
    injection H as <-. destruct Hy as [<-|Hy].
    + exists a. split; [left; reflexivity|exact Ea].
    + destruct (IH bs eq_refl y Hy) as [x [Hx Fx]].
      exists x. split; [right; exact Hx|exact Fx].
Qed.

Lemma mapM_Ok {A B : Type} (f : A -> result B) (l : list A) :
  (forall x, In x l -> exists y, f x = Ok y) ->
  exists l', mapM f l = Ok l' /\ length l' = length l.
Proof.
  induction l as [|a l IH]; intros H.
  - exists []. split; reflexivity.
  - destruct (H a (or_introl eq_refl)) as [y Ey].
    destruct IH as [l' [El Len]]; [intros x Hx; apply H; right; exact Hx|].
    exists (y :: l'). cbn [mapM]. rewrite Ey, El. cbn. split; [reflexivity|].
    rewrite Len. reflexivity.
Qed.

(** ** The number of labels *)

Section Counting.
Variable upl : num -> nat.

Lemma selectTickInfo_In (min max : num) (candidates : list tickInfo) (ti : tickInfo) :
  selectTickInfo upl min max candidates = Ok ti -> In ti candidates.
Proof.
  destruct candidates as [|first rest]; cbn [selectTickInfo]; [discriminate|].
  intros H. injection H as <-.
  apply (forEachArray_inv (fun st => In (fst st) (first :: rest))).
  - left. reflexivity.
  - intros a [t v] Ha Hs. cbn [selectTickInfo_each].
    destruct (v >? _)%num; cbn [fst]; [right; exact Ha | exact Hs].
Qed.

Lemma minimizeTickScale_counted (userMin userMax : num) (ti0 : tickInfo)
  (opts : options) (ti : tickInfo) :
  minimizeTickScale upl userMin userMax ti0 opts = Ok ti -> labels_counted ti.
Proof.
  unfold minimizeTickScale.
  destruct (range _ _ _) as [ticks|e]; cbn [bind]; [|discriminate].
  destruct (makeLabelsFromScale _ _ _) as [labels|e]; cbn [bind]; [|discriminate].
  intros H. injection H as <-. reflexivity.
Qed.

Lemma divideTickStep_counted (ti0 : tickInfo) (org : num) (ti : tickInfo) :
  labels_counted ti0 ->
  divideTickStep upl ti0 org = Ok ti -> labels_counted ti.
Proof.
  intros H0. unfold divideTickStep.
  destruct (_ && _ && _).
  - destruct (makeLabelsFromScale _ _ _) as [labels|e]; cbn [bind]; [|discriminate].
    intros H. injection H as <-. reflexivity.
  - intros H. injection H as <-. exact H0.
Qed.

Lemma makeTickInfo_counted (isLineChart : bool)
  (tickCount min max userMin userMax : num) (isMinus : bool) (opts : options)
  (ti : tickInfo) :
  makeTickInfo upl isLineChart tickCount min max userMin userMax isMinus opts = Ok ti ->
  labels_counted ti.
Proof.
  unfold makeTickInfo.
  destruct (normalizeStep _ _) as [step|e]; cbn [bind]; [|discriminate].
  destruct (minimizeTickScale _ _ _ _ _) as [ti1|e] eqn:E1; cbn [bind]; [|discriminate].
  apply divideTickStep_counted.
  eapply minimizeTickScale_counted. exact E1.
Qed.

Lemma makeOriginalTypeTickInfo_counted (ti : tickInfo) (divideNum : num) :
  labels_counted ti -> labels_counted (makeOriginalTypeTickInfo upl ti divideNum).
Proof.
  intros H. unfold makeOriginalTypeTickInfo.
  destruct (divideNum === n_ 1)%num; [exact H|].
  unfold labels_counted in *. cbn. rewrite length_map. exact H.
Qed.

Lemma getTickInfoCandidates_counted (isLineChart : bool) (min max : num)
  (tickCounts : list num) (opts : options) (candidates : list tickInfo) :
  getTickInfoCandidates upl isLineChart min max tickCounts opts = Ok candidates ->
  Forall labels_counted candidates.
Proof.
  unfold getTickInfoCandidates.
  destruct (_ && _); intros H; apply Forall_forall; intros ti Hti;
    destruct (mapM_In _ _ _ H ti Hti) as [tc [_ E]];
    eapply makeTickInfo_counted; exact E.
Qed.

Lemma getTickInfo_counted (isVertical isLineChart : bool) (min max : num)
  (dim : dimension) (opts : options) (ti : tickInfo) :
  getTickInfo upl isVertical isLineChart min max dim opts = Ok ti ->
  labels_counted ti.
Proof.
  unfold getTickInfo.
  destruct (getTickInfo_tickCounts _ _ _) as [tcs|e]; cbn [bind]; [|discriminate].
  destruct (getTickInfoCandidates _ _ _ _ _ _) as [cs|e] eqn:Ec; cbn [bind]; [|discriminate].
  destruct (selectTickInfo _ _ _ _) as [sel|e] eqn:Es; cbn [bind]; [|discriminate].
  intros H. injection H as <-.
  apply makeOriginalTypeTickInfo_counted.
  pose proof (getTickInfoCandidates_counted _ _ _ _ _ _ Ec) as F.
  rewrite Forall_forall in F. apply F.
  eapply selectTickInfo_In. exact Es.
Qed.

(** What [_setValueAxisData] returns is what [_getTickInfo] returns on
    the least and the greatest of the values. *)
Lemma setValueAxisData_inv (isVertical isLineChart : bool)
  (groupValues : list (list num)) (dim : dimension) (opts : options)
  (ti : tickInfo) :
  setValueAxisData upl isVertical isLineChart groupValues dim opts = Ok ti ->
  exists min max,
    util_min (concat groupValues) = Ok min /\
    util_max (concat groupValues) = Ok max /\
    getTickInfo upl isVertical isLineChart min max dim opts = Ok ti.
Proof.
  unfold setValueAxisData. cbv zeta.
  destruct (util_min _) as [mn|]; [|discriminate].
  destruct (util_max _) as [mx|]; [|discriminate].
  cbn [bind]. intros H. exists mn, mx. repeat split. exact H.
Qed.

Lemma setValueAxisData_counted (isVertical isLineChart : bool)
  (groupValues : list (list num)) (dim : dimension) (opts : options)
  (ti : tickInfo) :
  setValueAxisData upl isVertical isLineChart groupValues dim opts = Ok ti ->
  labels_counted ti.
Proof.
  intros H. destruct (setValueAxisData_inv _ _ _ _ _ _ H) as [mn [mx [_ [_ G]]]].
  eapply getTickInfo_counted. exact G.
Qed.

End Counting.

(** ** The scale of a candidate on finite data *)

(** Writes the integer constants of the source as rationals. *)
Ltac zconst :=
  change (inject_Z 0) with 0 in *;
  change (inject_Z 1) with 1 in *;
  change (inject_Z 2) with 2 in *;
  change (inject_Z 6) with 6 in *;
  change (inject_Z 10) with 10 in *;
  change (inject_Z 20) with 20 in *.

Lemma calculateScale_fin (a b : Q) :
  a <= b ->
  exists lo hi,
    calculateScale (Fin a) (Fin b) = mkScale (Fin lo) (Fin hi) /\
    lo <= a /\ b <= hi /\ (a < b -> lo < hi) /\ (a == b -> lo == a /\ hi == a).
Proof.
  intros Hab. unfold calculateScale.
  cbn [Num.lt n_ Num.of_Z]. zconst.
  destruct (Qle_bool 0 a) eqn:Ea; qprop; cbn [negb].
  - cbn [Num.sub Num.neg Num.add Num.div Num.gt Num.lt n_ Num.of_Z].
    change (Num.is_zero (inject_Z 20)) with false.
    change (Num.is_zero (inject_Z 6)) with false.
    cbn [Num.add Num.lt]. zconst.
    assert (X : (b + - a) / 20 == (b - a) * (1 # 20)) by field.
    assert (Y : b / 6 == b * (1 # 6)) by field.
    destruct (Qle_bool (b / 6) a) eqn:E6; qprop; cbn [negb];
      eexists; eexists; (split; [reflexivity|]);
      zconst; repeat split; try intros; lra.
  - cbn [Num.sub Num.neg Num.add Num.div Num.gt Num.lt n_ Num.of_Z].
    change (Num.is_zero (inject_Z 20)) with false.
    change (Num.is_zero (inject_Z 6)) with false.
    cbn [Num.add Num.lt]. zconst.
    assert (X : (b + - a + - 0) / 20 == (b - a) * (1 # 20)) by field.
    assert (Y : (b + - a) / 6 == (b - a) * (1 # 6)) by field.
    destruct (Qle_bool ((b + - a) / 6) 0) eqn:E6; qprop; cbn [negb];
      eexists; eexists; (split; [reflexivity|]);
      zconst; repeat split; try intros; lra.
Qed.

(** The initial scale of a candidate without option bounds contains the
    data. *)
Lemma makeTickInfo_scale_none (a b : Q) (opts : options) :
  opt_min opts = None -> opt_max opts = None -> a <= b ->
  (exists lo hi,
     makeTickInfo_scale (Fin a) (Fin b) false opts = mkScale (Fin lo) (Fin hi) /\
     lo <= a /\ b <= hi /\ (a < b -> lo < hi) /\ (a == b -> lo == a /\ hi == a)) /\
  (exists lo hi,
     makeTickInfo_scale (Fin a) (Fin b) true opts = mkScale (Fin lo) (Fin hi) /\
     lo <= - b /\ - a <= hi /\ (a < b -> lo < hi) /\ (a == b -> lo == - a /\ hi == - a)).
Proof.
  intros Hmin Hmax Hab.
  destruct (calculateScale_fin a b Hab) as [lo [hi [E [H1 [H2 [H3 H4]]]]]].
  unfold makeTickInfo_scale. rewrite E, Hmin, Hmax. cbn.
  split.
  - exists lo, hi. repeat split; try assumption; apply H4; assumption.
  - exists (- hi), (- lo). split; [reflexivity|].
    repeat split; try intros; try lra; destruct (H4 H); lra.
Qed.

Section Align.
Variable upl : num -> nat.

Lemma getScaleStep_fin (lo hi t : Q) :
  ~ t == 1 ->
  getScaleStep (mkScale (Fin lo) (Fin hi)) (Fin t) = Fin ((hi - lo) / (t - 1)).
Proof.
  intros Ht. unfold getScaleStep. cbn. zconst.
  rewrite is_zero_false by lra. reflexivity.
Qed.

Lemma normalizeMin_fin (m s : Q) :
  0 < s ->
  exists r, normalizeMin upl (Fin m) (Fin s) = Fin r /\
            r <= m /\ m < r + s /\ (exists k : Z, r == s * inject_Z k) /\
            (Num.Qrem m s == 0 -> r = m).
Proof.
  intros Hs. unfold normalizeMin.
  destruct (util_mod_fin upl m s) as [md [-> Hmd]]; [lra|].
  cbn [Num.eq n_ Num.of_Z]. zconst.
  destruct (Qeq_bool md 0) eqn:E0; qprop.
  - exists m. split; [reflexivity|].
    assert (R : m == s * inject_Z (Num.Qtrunc (m / s))) by (unfold Num.Qrem in Hmd; lra).
    repeat split; try lra. exists (Num.Qtrunc (m / s)). exact R.
  - cbn [Num.ge Num.le n_ Num.of_Z Num.add]. zconst.
    destruct (Qle_bool 0 m) eqn:Em; qprop.
    + destruct (subtraction_fin upl m md) as [r [-> Hr]].
      destruct (Qrem_bounds_nonneg m s Hs Em) as [L U].
      exists r. split; [reflexivity|].
      repeat split; try lra.
      exists (Num.Qtrunc (m / s)). unfold Num.Qrem in *. lra.
    + destruct (subtraction_fin upl m (s + md)) as [r [-> Hr]].
      destruct (Qrem_bounds_nonpos m s Hs Em) as [L U].
      exists r. split; [reflexivity|].
      repeat split; try lra.
      exists (Num.Qtrunc (m / s) - 1)%Z.
      unfold Z.sub. rewrite inject_Z_plus, inject_Z_opp. zconst.
      unfold Num.Qrem in *. lra.
Qed.


Lemma Qfloor_trunc (q : Q) : 0 <= q -> Qfloor q = Num.Qtrunc q.
Proof.
  intros H. unfold Num.Qtrunc. rewrite (Qle_bool_true_of 0 q H). reflexivity.
Qed.

(** The whole steps [_makeTickInfo] adds to a maximum that is short of
    [orgScaleMax] by [d] cover [d]. *)
Lemma extend_covers (d s : Q) :
  0 < d -> 0 < s ->
  d <= s * (if Qle_bool (Num.Qrem d s) 0
            then inject_Z (Qfloor (d / s))
            else inject_Z (Qfloor (d / s)) + 1).
Proof.
  intros Hd Hs.
  assert (H0 : 0 <= d / s) by (apply Qle_shift_div_l; lra).
  rewrite (Qfloor_trunc _ H0).
  destruct (Qrem_bounds_nonneg d s Hs) as [L U]; [lra|].
  unfold Num.Qrem in *.
  destruct (Qle_bool (d - s * inject_Z (Num.Qtrunc (d / s))) 0) eqn:E; qprop; lra.
Qed.

Lemma makeTickInfo_align_fin (isLineChart : bool) (t lo0 hi0 s : Q)
  (userMin userMax : num) (opts : options) :
  0 < s ->
  exists r r3 x3,
    normalizeMin upl (Fin lo0) (Fin s) = Fin r /\
    makeTickInfo_align upl isLineChart (Fin t) (mkScale (Fin lo0) (Fin hi0))
                       (Fin s) userMin userMax opts
      = mkScale (Fin r3) (Fin x3) /\
    r3 <= r /\ hi0 <= x3 /\ r + s * (t - 1) <= x3 /\
    (isUndefined (opt_min opts) = false -> r3 = r).
Proof.
  intros Hs. unfold makeTickInfo_align. cbn [scale_min scale_max].
  destruct (normalizeMin_fin lo0 s Hs) as [r [-> [R1 [R2 [R3 R4]]]]].
  exists r.
  destruct (findMultipleNum_fin upl [Fin s]) as [mm [-> Hmm]].
  cbn [Num.mul Num.add Num.sub Num.neg Num.div n_ Num.of_Z].
  rewrite (is_zero_false mm) by lra.
  set (X := (r * mm + s * mm * (t + - inject_Z 1)) / mm).
  assert (HX : X == r + s * (t - 1)) by (unfold X; zconst; field; lra).
  cbn [Num.add Num.neg Num.gt Num.lt n_ Num.of_Z Num.rem Num.floor Num.div].
  rewrite (is_zero_false s) by lra.
  cbn [Num.gt Num.lt Num.floor Num.of_Z Num.add Num.mul n_].
  set (smax2 := if negb (Qle_bool (hi0 + - X) (inject_Z 0)) then _ else Fin X).
  assert (H2 : exists x2, smax2 = Fin x2 /\ hi0 <= x2 /\ X <= x2).
  { unfold smax2. zconst.
    destruct (Qle_bool (hi0 + - X) 0) eqn:Ed; qprop; cbn [negb].
    - exists X. split; [reflexivity|]. lra.
    - pose proof (extend_covers (hi0 + - X) s Ed Hs) as C.
      destruct (Qle_bool (Num.Qrem (hi0 + - X) s) 0) eqn:Er; cbn [negb Num.mul Num.add];
        eexists; (split; [reflexivity|]); zconst; nra. }
  destruct H2 as [x2 [E2 [X1 X2]]]. rewrite E2. clearbody X. clear smax2 E2.
  set (c2 := isUndefined (opt_max opts) && (Fin x2 === userMax)%num).
  match goal with
  | |- context [if ?c then Fin (r + - s) else Fin r] => set (c1 := c)
  end.
  assert (C1 : isUndefined (opt_min opts) = false -> c1 = false).
  { intros U. unfold c1. rewrite U, andb_false_r. reflexivity. }
  clearbody c1 c2.
  destruct c1, c2; cbn [Num.add];
    eexists; eexists; (split; [reflexivity|]); (split; [reflexivity|]);
    repeat split; try lra; intros U; specialize (C1 U); try discriminate; reflexivity.
Qed.


Lemma makeLabelsFromScale_fin (lo hi s : Q) :
  0 <= s ->
  exists labels,
    makeLabelsFromScale upl (mkScale (Fin lo) (Fin hi)) (Fin s) = Ok labels.
Proof.
  intros Hs. unfold makeLabelsFromScale. cbn [scale_min scale_max].
  destruct (findMultipleNum_fin upl [Fin s]) as [mm [-> Hmm]].
  cbn [Num.mul Num.add n_ Num.of_Z].
  destruct (range_Some_fin (lo * mm) (hi * mm + inject_Z 1) (s * mm)) as [l [-> _]];
    [nra|].
  cbn [bind]. eexists. reflexivity.
Qed.

Lemma divideTickStep_fin (lo hi s : Q) (tc : num) (labels : list num) (org : num) :
  0 < s ->
  exists ti s',
    divideTickStep upl (mkTickInfo (mkScale (Fin lo) (Fin hi)) (Fin s) tc labels) org
      = Ok ti /\
    ti_scale ti = mkScale (Fin lo) (Fin hi) /\
    ti_step ti = Fin s' /\ (s' == s \/ s' == s / 2).
Proof.
  intros Hs. unfold divideTickStep. cbn [ti_step ti_scale ti_tickCount].
  destruct (_ && _ && _).
  - cbn [Num.div n_ Num.of_Z]. change (Num.is_zero (inject_Z 2)) with false.
    cbn iota. zconst.
    destruct (makeLabelsFromScale_fin lo hi (s / 2)) as [l ->].
    { apply Qle_shift_div_l; lra. }
    cbn [bind]. eexists. exists (s / 2). split; [reflexivity|].
    split; [reflexivity|]. split; [reflexivity|]. right. reflexivity.
  - eexists. exists s. split; [reflexivity|].
    split; [reflexivity|]. split; [reflexivity|]. left. reflexivity.
Qed.

(** Tightening under an invariant [P] of the scale that every turn of the
    loop preserves. *)
Lemma minimizeTickScale_inv (P : scale -> Prop) (userMin userMax : num)
  (lo hi s t : Q) (opts : options) :
  0 <= s ->
  P (mkScale (Fin lo) (Fin hi)) ->
  (forall k sc, 1 <= k -> P sc ->
     P (fst (minimizeTickScale_each userMin userMax (Fin s) (Fin lo) (Fin hi)
               opts (Fin k) sc))) ->
  (forall sc, P sc -> exists l h, sc = mkScale (Fin l) (Fin h)) ->
  exists ti,
    minimizeTickScale upl userMin userMax
      (mkTickInfo (mkScale (Fin lo) (Fin hi)) (Fin s) (Fin t) []) opts = Ok ti /\
    P (ti_scale ti) /\ ti_step ti = Fin s.
Proof.
  intros Hs P0 Pstep Pfin. unfold minimizeTickScale.
  cbn [ti_tickCount ti_step ti_scale scale_min scale_max].
  change (n_ 1) with (Fin 1).
  destruct (range_None_fin 1 t) as [ticks [-> [F _]]]. cbn [bind].
  set (sc := forEachArray ticks _ _).
  assert (Psc : P sc).
  { unfold sc. apply forEachArray_inv; [exact P0|].
    intros a sc0 Ha Hsc0. rewrite Forall_forall in F.
    destruct (F a Ha) as [k [-> Hk]]. apply Pstep; assumption. }
  destruct (Pfin sc Psc) as [l [h E]]. rewrite E in *.
  destruct (makeLabelsFromScale_fin l h s Hs) as [labels ->]. cbn [bind].
  eexists. split; [reflexivity|]. split; [exact Psc|reflexivity].
Qed.


Lemma minimizeTickScale_each_contains (ua ub s lo hi k : Q) (opts : options)
  (sc : scale) :
  opt_min opts = None -> opt_max opts = None ->
  contains ua ub sc ->
  contains ua ub
    (fst (minimizeTickScale_each (Fin ua) (Fin ub) (Fin s) (Fin lo) (Fin hi)
            opts (Fin k) sc)).
Proof.
  intros Hmin Hmax [l [h [-> [L H]]]].
  unfold minimizeTickScale_each. rewrite Hmin, Hmax.
  cbn [isUndefined negb andb orb Num.mul Num.add Num.sub Num.neg
       Num.le Num.ge Num.gt Num.lt scale_min scale_max].
  rewrite !orb_false_r.
  destruct (Qle_bool ua (lo + s * k) && Qle_bool (hi + - (s * k)) ub);
    cbn [fst]; [exists l, h; auto|].
  destruct (Qle_bool ua (lo + s * k)) eqn:E1;
    destruct (Qle_bool (hi + - (s * k)) ub) eqn:E2; qprop;
    cbn [negb scale_min scale_max];
    eexists; eexists; (split; [reflexivity|]); split; lra.
Qed.

Lemma makeTickInfo_contains (isLineChart : bool) (t a b ua ub : Q)
  (isMinus : bool) (opts : options) (lo0 hi0 : Q) :
  opt_min opts = None -> opt_max opts = None -> 1 < t ->
  makeTickInfo_scale (Fin a) (Fin b) isMinus opts = mkScale (Fin lo0) (Fin hi0) ->
  lo0 < hi0 -> lo0 <= ua -> ub <= hi0 ->
  exists ti s,
    makeTickInfo upl isLineChart (Fin t) (Fin a) (Fin b) (Fin ua) (Fin ub)
                 isMinus opts = Ok ti /\
    contains ua ub (ti_scale ti) /\ ti_step ti = Fin s /\ 0 < s.
Proof.
  intros Hmin Hmax Ht Hsc Hlt Hlo Hhi.
  unfold makeTickInfo. rewrite Hsc.
  rewrite getScaleStep_fin by lra.
  assert (Htmp : 0 < (hi0 - lo0) / (t - 1)).
  { apply Qlt_shift_div_l; lra. }
  destruct (normalizeStep_pos upl _ Htmp) as [s [-> Hs]]. cbn [bind].
  destruct (makeTickInfo_align_fin isLineChart t lo0 hi0 s (Fin ua) (Fin ub) opts)
    as [r [r3 [x3 [Er [-> [A1 [A2 [A3 A4]]]]]]]]; [lra|].
  destruct (normalizeMin_fin lo0 s) as [r' [Er' [B1 _]]]; [lra|].
  rewrite Er in Er'. injection Er' as <-.
  destruct (minimizeTickScale_inv (contains ua ub) (Fin ua) (Fin ub) r3 x3 s t opts)
    as [ti1 [-> [P1 S1]]].
  - lra.
  - exists r3, x3. split; [reflexivity|]. split; lra.
  - intros k sc _ Hsc'. apply minimizeTickScale_each_contains; assumption.
  - intros sc [l [h [-> _]]]. exists l, h. reflexivity.
  - cbn [bind]. destruct ti1 as [sc1 st1 tc1 lb1]. cbn [ti_scale ti_step] in *.
    subst st1. destruct P1 as [l [h [-> [L H]]]].
    destruct (divideTickStep_fin l h s tc1 lb1 (Fin t)) as [ti [s' [-> [E1 [E2 E3]]]]];
      [lra|].
    exists ti, s'. split; [reflexivity|]. rewrite E1, E2.
    split; [exists l, h; auto|]. split; [reflexivity|].
    destruct E3 as [E3|E3]; rewrite E3; [lra|].
    apply Qlt_shift_div_l; lra.
Qed.


Lemma getTickInfoCandidates_contains (isLineChart : bool) (ua ub : Q)
  (tickCounts : list num) (opts : options) :
  opt_min opts = None -> opt_max opts = None -> ua < ub ->
  Forall above_1 tickCounts ->
  exists candidates,
    getTickInfoCandidates upl isLineChart (Fin ua) (Fin ub) tickCounts opts
      = Ok candidates /\
    length candidates = length tickCounts /\
    Forall (good_candidate ua ub) candidates.
Proof.
  intros Hmin Hmax Hlt Htc. rewrite Forall_forall in Htc.
  unfold getTickInfoCandidates.
  destruct ((Fin ua <? n_ 0)%num && (Fin ub <=? n_ 0)%num).
  - cbn [Num.neg].
    destruct (makeTickInfo_scale_none (- ub) (- ua) opts Hmin Hmax) as [_ [lo [hi [E [H1 [H2 [H3 _]]]]]]];
      [lra|].
    assert (Hall : forall tc, In tc tickCounts ->
              exists ti, makeTickInfo upl isLineChart tc (Fin (- ub)) (Fin (- ua))
                           (Fin ua) (Fin ub) true opts = Ok ti /\ good_candidate ua ub ti).
    { intros tc Hin. destruct (Htc tc Hin) as [t [-> Ht]].
      destruct (makeTickInfo_contains isLineChart t (- ub) (- ua) ua ub true opts lo hi)
        as [ti [s [Ei [C [S1 S2]]]]]; try assumption; try lra.
      exists ti. split; [exact Ei|]. split; [exact C|]. exists s. auto. }
    destruct (mapM_Ok (fun tc => makeTickInfo upl isLineChart tc (Fin (- ub)) (Fin (- ua))
                                   (Fin ua) (Fin ub) true opts) tickCounts)
      as [cs [Ec Len]].
    { intros tc Hin. destruct (Hall tc Hin) as [ti [Ei _]]. exists ti. exact Ei. }
    exists cs. split; [exact Ec|]. split; [exact Len|].
    apply Forall_forall. intros ti Hti.
    destruct (mapM_In _ _ _ Ec ti Hti) as [tc [Hin Ei]].
    destruct (Hall tc Hin) as [ti' [Ei' G]]. congruence.
  - destruct (makeTickInfo_scale_none ua ub opts Hmin Hmax) as [[lo [hi [E [H1 [H2 [H3 _]]]]]] _];
      [lra|].
    assert (Hall : forall tc, In tc tickCounts ->
              exists ti, makeTickInfo upl isLineChart tc (Fin ua) (Fin ub)
                           (Fin ua) (Fin ub) false opts = Ok ti /\ good_candidate ua ub ti).
    { intros tc Hin. destruct (Htc tc Hin) as [t [-> Ht]].
      destruct (makeTickInfo_contains isLineChart t ua ub ua ub false opts lo hi)
        as [ti [s [Ei [C [S1 S2]]]]]; try assumption; try lra.
      exists ti. split; [exact Ei|]. split; [exact C|]. exists s. auto. }
    destruct (mapM_Ok (fun tc => makeTickInfo upl isLineChart tc (Fin ua) (Fin ub)
                                   (Fin ua) (Fin ub) false opts) tickCounts)
      as [cs [Ec Len]].
    { intros tc Hin. destruct (Hall tc Hin) as [ti [Ei _]]. exists ti. exact Ei. }
    exists cs. split; [exact Ec|]. split; [exact Len|].
    apply Forall_forall. intros ti Hti.
    destruct (mapM_In _ _ _ Ec ti Hti) as [tc [Hin Ei]].
    destruct (Hall tc Hin) as [ti' [Ei' G]]. congruence.
Qed.

Lemma selectTickInfo_Ok (min max : num) (candidates : list tickInfo) :
  candidates <> [] ->
  exists ti, selectTickInfo upl min max candidates = Ok ti /\ In ti candidates.
Proof.
  intros Hne. destruct candidates as [|c cs]; [congruence|].
  eexists. split; [reflexivity|].
  eapply selectTickInfo_In. reflexivity.
Qed.

Lemma makeOriginalTypeTickInfo_good (ua ub mm : Q) (ti : tickInfo) :
  1 <= mm ->
  good_candidate (ua * mm) (ub * mm) ti ->
  good_candidate ua ub (makeOriginalTypeTickInfo upl ti (Fin mm)).
Proof.
  intros Hmm [[l [h [E [L H]]]] [st [Est Hst]]]. unfold makeOriginalTypeTickInfo.
  cbn [Num.eq n_ Num.of_Z]. zconst.
  destruct (Qeq_bool mm 1) eqn:E1; qprop.
  - split; [|exists st; auto].
    exists l, h. split; [exact E|]. split; nra.
  - rewrite E, Est. cbn [ti_scale ti_step scale_min scale_max].
    destruct (division_fin upl l mm) as [l' [-> Hl']]; [lra|].
    destruct (division_fin upl h mm) as [h' [-> Hh']]; [lra|].
    destruct (division_fin upl st mm) as [st' [-> Hst']]; [lra|].
    split.
    + exists l', h'. split; [reflexivity|].
      rewrite Hl', Hh'. split.
      * apply Qle_shift_div_r; lra.
      * apply Qle_shift_div_l; lra.
    + exists st'. split; [reflexivity|].
      rewrite Hst'. apply Qlt_shift_div_l; lra.
Qed.

(** The selected tick info contains a non-degenerate data range, and its
    step is positive, when no bound is overridden and every candidate tick
    count exceeds 1. *)
Lemma getTickInfo_contains (isVertical isLineChart : bool) (ua ub : Q)
  (dim : dimension) (opts : options) (tc : num) (tcs : list num) :
  opt_min opts = None -> opt_max opts = None -> ua < ub ->
  getTickInfo_tickCounts isVertical dim opts = Ok (tc :: tcs) ->
  Forall above_1 (tc :: tcs) ->
  exists ti,
    getTickInfo upl isVertical isLineChart (Fin ua) (Fin ub) dim opts = Ok ti /\
    good_candidate ua ub ti.
Proof.
  intros Hmin Hmax Hlt Htcs Hall. unfold getTickInfo. rewrite Htcs. cbn [bind].
  unfold makeIntegerTypeInfo.
  destruct ((Num.abs (Fin ua) >=? n_ 1)%num || (Num.abs (Fin ub) >=? n_ 1)%num).
  - cbn [iti_min iti_max iti_options iti_divideNum].
    destruct (getTickInfoCandidates_contains isLineChart ua ub (tc :: tcs) opts)
      as [cs [-> [Len G]]]; try assumption.
    cbn [bind].
    destruct (selectTickInfo_Ok (Fin ua) (Fin ub) cs) as [ti [-> Hin]].
    { destruct cs; [discriminate Len|discriminate]. }
    cbn [bind]. eexists. split; [reflexivity|].
    rewrite Forall_forall in G.
    unfold makeOriginalTypeTickInfo. change (n_ 1 === n_ 1)%num with true.
    apply G. exact Hin.
  - destruct (findMultipleNum_fin upl [Fin ua; Fin ub]) as [mm [-> Hmm]].
    rewrite Hmin, Hmax.
    cbn [iti_min iti_max iti_options iti_divideNum Num.mul].
    destruct (getTickInfoCandidates_contains isLineChart (ua * mm) (ub * mm)
                (tc :: tcs) (mkOptions None None None))
      as [cs [-> [Len G]]]; try reflexivity; try assumption; [nra|].
    cbn [bind].
    destruct (selectTickInfo_Ok (Fin (ua * mm)) (Fin (ub * mm)) cs) as [ti [-> Hin]].
    { destruct cs; [discriminate Len|discriminate]. }
    cbn [bind]. eexists. split; [reflexivity|].
    rewrite Forall_forall in G.
    apply makeOriginalTypeTickInfo_good; [assumption|]. apply G. exact Hin.
Qed.

(** *** Option bounds *)

(** Under a minimum option the tightening loop keeps the minimum, and it
    keeps the maximum at or above the maximum option; without a maximum
    option it keeps the maximum as it is. *)
Lemma minimizeTickScale_each_override (userMin userMax : num)
  (om oM s r x k : Q) (opts : options) (sc : scale) :
  opt_min opts = Some (Fin om) ->
  opt_max opts = None \/ opt_max opts = Some (Fin oM) ->
  0 < s -> om < r + s -> 1 <= k ->
  keeps_min r oM sc ->
  keeps_min r oM
    (fst (minimizeTickScale_each userMin userMax (Fin s) (Fin r) (Fin x)
            opts (Fin k) sc)).
Proof.
  intros Hmin Hmax Hs Hom Hk [h [-> H]].
  unfold minimizeTickScale_each. rewrite Hmin.
  destruct Hmax as [Hmax|Hmax]; rewrite Hmax;
    cbn [isUndefined negb andb orb Num.mul Num.add Num.sub Num.neg
         Num.le Num.ge scale_min scale_max];
    (destruct (_ && _); cbn [fst]; [exists h; auto|]);
    rewrite (Qle_bool_false_of (r + s * k) om) by nra.
  - exists h. auto.
  - destruct (Qle_bool oM (x + - (s * k))) eqn:E; qprop; cbn [scale_min scale_max].
    + eexists. split; [reflexivity|]. exact E.
    + exists h. auto.
Qed.

Lemma makeTickInfo_scale_override (min max : num) (isMinus : bool)
  (opts : options) (om oM : Q) :
  opt_min opts = Some (Fin om) -> opt_max opts = Some (Fin oM) ->
  ~ om == 0 -> ~ oM == 0 ->
  makeTickInfo_scale min max isMinus opts = mkScale (Fin om) (Fin oM).
Proof.
  intros Hmin Hmax H1 H2. unfold makeTickInfo_scale.
  rewrite Hmin, Hmax. cbn [or_default Num.truthy scale_min scale_max].
  rewrite !is_zero_false by assumption. reflexivity.
Qed.

(** With a minimum option alone the scale a candidate starts from goes
    from the option to the padded maximum, which is not below the data. *)
Lemma makeTickInfo_scale_min_only (a b : Q) (isMinus : bool)
  (opts : options) (om : Q) :
  opt_min opts = Some (Fin om) -> opt_max opts = None -> ~ om == 0 -> a <= b ->
  exists hi0,
    makeTickInfo_scale (Fin a) (Fin b) isMinus opts = mkScale (Fin om) (Fin hi0) /\
    (if isMinus then - a <= hi0 else b <= hi0).
Proof.
  intros Hmin Hmax H1 Hab.
  destruct (calculateScale_fin a b Hab) as [lo [hi [E [L [H _]]]]].
  unfold makeTickInfo_scale. rewrite E, Hmin, Hmax.
  cbn [or_default Num.truthy scale_min scale_max Num.neg].
  rewrite is_zero_false by assumption. cbn [negb].
  destruct isMinus; cbn [scale_min scale_max Num.neg];
    eexists; (split; [reflexivity|]); lra.
Qed.

(** A candidate built from the scale [om, hi0] under a minimum option
    [om]: [oM] is the maximum option, or any number up to [hi0] without a
    maximum option. *)
Lemma makeTickInfo_override (isLineChart : bool) (t : Q)
  (min max userMin userMax : num) (isMinus : bool) (opts : options)
  (om oM hi0 : Q) :
  opt_min opts = Some (Fin om) ->
  opt_max opts = None \/ opt_max opts = Some (Fin oM) ->
  makeTickInfo_scale min max isMinus opts = mkScale (Fin om) (Fin hi0) ->
  om < hi0 -> oM <= hi0 -> 1 < t ->
  exists ti,
    makeTickInfo upl isLineChart (Fin t) min max userMin userMax isMinus opts = Ok ti /\
    override_ok om oM ti.
Proof.
  intros Hmin Hmax Hsc Hlt Hcov Ht.
  unfold makeTickInfo. rewrite Hsc.
  rewrite getScaleStep_fin by lra.
  assert (Htmp : 0 < (hi0 - om) / (t - 1)).
  { apply Qlt_shift_div_l; lra. }
  destruct (normalizeStep_pos upl _ Htmp) as [s [-> Hs]]. cbn [bind].
  destruct (makeTickInfo_align_fin isLineChart t om hi0 s userMin userMax opts)
    as [r [r3 [x3 [Er [-> [A1 [A2 [A3 A4]]]]]]]]; [lra|].
  destruct (normalizeMin_fin om s) as [r' [Er' [B1 [B2 [[k B3] _]]]]]; [lra|].
  rewrite Er in Er'. injection Er' as <-.
  rewrite A4 by (rewrite Hmin; reflexivity).
  destruct (minimizeTickScale_inv (keeps_min r oM) userMin userMax r x3 s t opts)
    as [ti1 [-> [P1 S1]]].
  - lra.
  - exists x3. split; [reflexivity|]. lra.
  - intros k' sc Hk' Hsc'.
    apply (minimizeTickScale_each_override userMin userMax om); try assumption; lra.
  - intros sc [h [-> _]]. exists r, h. reflexivity.
  - cbn [bind]. destruct ti1 as [sc1 st1 tc1 lb1]. cbn [ti_scale ti_step] in *.
    subst st1. destruct P1 as [h [-> H]].
    destruct (divideTickStep_fin r h s tc1 lb1 (Fin t)) as [ti [s' [-> [E1 [E2 E3]]]]];
      [lra|].
    exists ti. split; [reflexivity|].
    exists r, h, s', s, k. rewrite E1, E2.
    repeat split; try assumption; try reflexivity; lra.
Qed.

End Align.

(** ** Option bounds, lifted to the selected tick info *)

Section Override.
Variable upl : num -> nat.

Lemma mapM_makeTickInfo_override (isLineChart : bool)
  (min max userMin userMax : num) (isMinus : bool) (tickCounts : list num)
  (opts : options) (om oM hi0 : Q) :
  opt_min opts = Some (Fin om) ->
  opt_max opts = None \/ opt_max opts = Some (Fin oM) ->
  makeTickInfo_scale min max isMinus opts = mkScale (Fin om) (Fin hi0) ->
  om < hi0 -> oM <= hi0 ->
  Forall above_1 tickCounts ->
  exists candidates,
    mapM (fun tickCount =>
            makeTickInfo upl isLineChart tickCount min max userMin userMax
                         isMinus opts) tickCounts = Ok candidates /\
    length candidates = length tickCounts /\
    Forall (override_ok om oM) candidates.
Proof.
  intros Hmin Hmax Hsc Hlt Hcov Htc. rewrite Forall_forall in Htc.
  set (f := fun tickCount =>
              makeTickInfo upl isLineChart tickCount min max userMin userMax
                           isMinus opts).
  assert (Hall : forall tc, In tc tickCounts ->
            exists ti, f tc = Ok ti /\ override_ok om oM ti).
  { intros tc Hin. destruct (Htc tc Hin) as [t [-> Ht]].
    apply (makeTickInfo_override upl isLineChart t min max userMin userMax isMinus
             opts om oM hi0); assumption. }
  destruct (mapM_Ok f tickCounts) as [cs [Ec Len]].
  { intros tc Hin. destruct (Hall tc Hin) as [ti [Ei _]]. exists ti. exact Ei. }
  exists cs. split; [exact Ec|]. split; [exact Len|].
  apply Forall_forall. intros ti Hti.
  destruct (mapM_In _ _ _ Ec ti Hti) as [tc [Hin Ei]].
  destruct (Hall tc Hin) as [ti' [Ei' G]]. congruence.
Qed.

(** The candidates under a minimum option [om] that is not 0, for data
    from [ua] to [ub]: [c] is the maximum option when there is one (not 0),
    and the greatest value [ub] without one. *)
Lemma getTickInfoCandidates_override (isLineChart : bool) (ua ub : Q)
  (tickCounts : list num) (opts : options) (om c : Q) :
  ua <= ub ->
  opt_min opts = Some (Fin om) -> ~ om == 0 ->
  (opt_max opts = None /\ c == ub) \/ (opt_max opts = Some (Fin c) /\ ~ c == 0) ->
  om < c ->
  Forall above_1 tickCounts ->
  exists candidates,
    getTickInfoCandidates upl isLineChart (Fin ua) (Fin ub) tickCounts opts
      = Ok candidates /\
    length candidates = length tickCounts /\
    Forall (override_ok om c) candidates.
Proof.
  intros Hab Hmin H1 Hmax Hlt Htc.
  assert (Hmax' : opt_max opts = None \/ opt_max opts = Some (Fin c))
    by (destruct Hmax as [[H _]|[H _]]; auto).
  unfold getTickInfoCandidates.
  destruct ((Fin ua <? n_ 0)%num && (Fin ub <=? n_ 0)%num); cbn [Num.neg].
  - assert (Hsc : exists hi0,
              makeTickInfo_scale (Fin (- ub)) (Fin (- ua)) true opts
                = mkScale (Fin om) (Fin hi0) /\ c <= hi0).
    { destruct Hmax as [[Hm Hc]|[Hm Hc]].
      - destruct (makeTickInfo_scale_min_only (- ub) (- ua) true opts om)
          as [hi0 [E H]]; try assumption; [lra|].
        exists hi0. split; [exact E|]. lra.
      - exists c. split; [|lra].
        apply makeTickInfo_scale_override; assumption. }
    destruct Hsc as [hi0 [Hsc Hc]].
    apply (mapM_makeTickInfo_override isLineChart _ _ _ _ true tickCounts opts
             om c hi0); try assumption; lra.
  - assert (Hsc : exists hi0,
              makeTickInfo_scale (Fin ua) (Fin ub) false opts
                = mkScale (Fin om) (Fin hi0) /\ c <= hi0).
    { destruct Hmax as [[Hm Hc]|[Hm Hc]].
      - destruct (makeTickInfo_scale_min_only ua ub false opts om)
          as [hi0 [E H]]; try assumption.
        exists hi0. split; [exact E|]. lra.
      - exists c. split; [|lra].
        apply makeTickInfo_scale_override; assumption. }
    destruct Hsc as [hi0 [Hsc Hc]].
    apply (mapM_makeTickInfo_override isLineChart _ _ _ _ false tickCounts opts
             om c hi0); try assumption; lra.
Qed.

Lemma makeOriginalTypeTickInfo_override (om oM mm : Q) (ti : tickInfo) :
  1 <= mm ->
  override_ok (om * mm) (oM * mm) ti ->
  override_ok om oM (makeOriginalTypeTickInfo upl ti (Fin mm)).
Proof.
  intros Hmm [lo [hi [st [s [k [E1 [E2 [E3 [E4 [E5 [E6 [E7 E8]]]]]]]]]]]].
  unfold makeOriginalTypeTickInfo.
  cbn [Num.eq n_ Num.of_Z]. zconst.
  destruct (Qeq_bool mm 1) eqn:Em; qprop.
  - exists lo, hi, st, s, k. repeat split; try assumption; nra.
  - rewrite E1, E2. cbn [ti_scale ti_step scale_min scale_max].
    destruct (division_fin upl lo mm) as [lo' [-> Hlo']]; [lra|].
    destruct (division_fin upl hi mm) as [hi' [-> Hhi']]; [lra|].
    destruct (division_fin upl st mm) as [st' [-> Hst']]; [lra|].
    exists lo', hi', st', (s / mm), k.
    split; [reflexivity|]. split; [reflexivity|].
    assert (Xlo : lo' * mm == lo) by (rewrite Hlo'; field; lra).
    assert (Xhi : hi' * mm == hi) by (rewrite Hhi'; field; lra).
    assert (Xst : st' * mm == st) by (rewrite Hst'; field; lra).
    assert (Xs : s / mm * mm == s) by (field; lra).
    set (sm := s / mm) in *.
    assert (Xh : sm / 2 == sm * (1 # 2)) by field.
    assert (Yh : s / 2 == s * (1 # 2)) by field.
    repeat split; nra.
Qed.

(** The selected tick info under a minimum option [om] that is not 0. *)
Lemma getTickInfo_override (isVertical isLineChart : bool) (ua ub : Q)
  (dim : dimension) (opts : options) (om c : Q) (tc : num) (tcs : list num) :
  ua <= ub ->
  opt_min opts = Some (Fin om) -> ~ om == 0 ->
  (opt_max opts = None /\ c == ub) \/ (opt_max opts = Some (Fin c) /\ ~ c == 0) ->
  om < c ->
  getTickInfo_tickCounts isVertical dim opts = Ok (tc :: tcs) ->
  Forall above_1 (tc :: tcs) ->
  exists ti,
    getTickInfo upl isVertical isLineChart (Fin ua) (Fin ub) dim opts = Ok ti /\
    override_ok om c ti.
Proof.
  intros Hab Hmin H1 Hmax Hlt Htcs Hall. unfold getTickInfo. rewrite Htcs. cbn [bind].
  unfold makeIntegerTypeInfo.
  destruct ((Num.abs (Fin ua) >=? n_ 1)%num || (Num.abs (Fin ub) >=? n_ 1)%num).
  - cbn [iti_min iti_max iti_options iti_divideNum].
    destruct (getTickInfoCandidates_override isLineChart ua ub (tc :: tcs) opts om c)
      as [cs [-> [Len G]]]; try assumption.
    cbn [bind].
    destruct (selectTickInfo_Ok upl (Fin ua) (Fin ub) cs) as [ti [-> Hin]].
    { destruct cs; [discriminate Len|discriminate]. }
    cbn [bind]. eexists. split; [reflexivity|].
    rewrite Forall_forall in G.
    unfold makeOriginalTypeTickInfo. change (n_ 1 === n_ 1)%num with true.
    apply G. exact Hin.
  - destruct (findMultipleNum_fin upl [Fin ua; Fin ub]) as [mm [-> Hmm]].
    rewrite Hmin. cbn [Num.truthy Num.mul].
    rewrite (is_zero_false om) by assumption. cbn [negb].
    cbn [iti_min iti_max iti_options iti_divideNum].
    set (opts' := mkOptions _ _ _).
    destruct (getTickInfoCandidates_override isLineChart (ua * mm) (ub * mm)
                (tc :: tcs) opts' (om * mm) (c * mm))
      as [cs [-> [Len G]]]; try reflexivity; try assumption; try nra.
    { unfold opts'. cbn [opt_max].
      destruct Hmax as [[Hm Hc]|[Hm Hc]]; rewrite Hm.
      - left. split; [reflexivity|]. rewrite Hc. reflexivity.
      - right. cbn [Num.truthy Num.mul]. rewrite (is_zero_false c) by assumption.
        cbn [negb]. split; [reflexivity|]. nra. }
    cbn [bind].
    destruct (selectTickInfo_Ok upl (Fin (ua * mm)) (Fin (ub * mm)) cs)
      as [ti [-> Hin]].
    { destruct cs; [discriminate Len|discriminate]. }
    cbn [bind]. eexists. split; [reflexivity|].
    rewrite Forall_forall in G.
    apply makeOriginalTypeTickInfo_override; [assumption|]. apply G. exact Hin.
Qed.

End Override.

(** ** Minimum and maximum of the values *)

Lemma fold_min2_fin (qs : list Q) :
  forall m0,
  exists m, fold_left min2 (map Fin qs) (Fin m0) = Fin m /\
            m <= m0 /\ (forall q, In q qs -> m <= q) /\ (m = m0 \/ In m qs).
Proof.
  induction qs as [|q qs IH]; intros m0.
  - exists m0. cbn. repeat split; try lra; auto. intros q [].
  - cbn [map fold_left min2 Num.lt].
    destruct (Qle_bool m0 q) eqn:E; qprop; cbn [negb].
    + destruct (IH m0) as [m [Em [H1 [H2 H3]]]].
      exists m. split; [exact Em|]. split; [exact H1|]. split.
      * intros q' [<-|Hq]; [lra|apply H2; exact Hq].
      * destruct H3; [left|right; right]; assumption.
    + destruct (IH q) as [m [Em [H1 [H2 H3]]]].
      exists m. split; [exact Em|]. split; [lra|]. split.
      * intros q' [<-|Hq]; [lra|apply H2; exact Hq].
      * right. destruct H3 as [->|H3]; [left; reflexivity|right; exact H3].
Qed.

Lemma fold_max2_fin (qs : list Q) :
  forall m0,
  exists m, fold_left max2 (map Fin qs) (Fin m0) = Fin m /\
            m0 <= m /\ (forall q, In q qs -> q <= m) /\ (m = m0 \/ In m qs).
Proof.
  induction qs as [|q qs IH]; intros m0.
  - exists m0. cbn. repeat split; try lra; auto. intros q [].
  - cbn [map fold_left max2 Num.lt].
    destruct (Qle_bool q m0) eqn:E; qprop; cbn [negb].
    + destruct (IH m0) as [m [Em [H1 [H2 H3]]]].
      exists m. split; [exact Em|]. split; [exact H1|]. split.
      * intros q' [<-|Hq]; [lra|apply H2; exact Hq].
      * destruct H3; [left|right; right]; assumption.
    + destruct (IH q) as [m [Em [H1 [H2 H3]]]].
      exists m. split; [exact Em|]. split; [lra|]. split.
      * intros q' [<-|Hq]; [lra|apply H2; exact Hq].
      * right. destruct H3 as [->|H3]; [left; reflexivity|right; exact H3].
Qed.

Lemma util_min_max_fin (qs : list Q) :
  qs <> [] ->
  exists lo hi,
    util_min (map Fin qs) = Ok (Fin lo) /\ util_max (map Fin qs) = Ok (Fin hi) /\
    (forall q, In q qs -> lo <= q /\ q <= hi) /\ In lo qs /\ In hi qs.
Proof.
  intros Hne. destruct qs as [|q qs]; [congruence|].
  unfold util_min, util_max. cbn [map].
  destruct (fold_min2_fin qs q) as [lo [-> [A1 [A2 A3]]]].
  destruct (fold_max2_fin qs q) as [hi [-> [B1 [B2 B3]]]].
  exists lo, hi. split; [reflexivity|]. split; [reflexivity|]. split; [|split].
  - intros q' [<-|Hq]; [lra|]. split; [apply A2|apply B2]; exact Hq.
  - destruct A3 as [->|A3]; [left; reflexivity|right; exact A3].
  - destruct B3 as [->|B3]; [left; reflexivity|right; exact B3].
Qed.

Lemma concat_map_Fin (groupValues : list (list Q)) :
  concat (map (map Fin) groupValues) = map Fin (concat groupValues).
Proof. rewrite concat_map. reflexivity. Qed.

(** ** The tolerance *)

Lemma near_of_eq (m x y : Q) : 0 <= m -> x == y -> near m x y.
Proof.
  intros Hm E. unfold near, tolerance.
  assert (Z : x - y == 0) by lra.
  rewrite Z. cbn [Qabs Z.abs Qnum Qden]. nra.
Qed.

Lemma le_upto_of_le (m x y : Q) : 0 <= m -> x <= y -> le_upto m x y.
Proof. intros Hm L. unfold le_upto, tolerance. nra. Qed.

(** ** Candidate tick counts of a chart *)

(** The notation of a number that is 0 or at least 1e-6 is positional. *)
Lemma parseInt_positional (q : Q) :
  q == 0 \/ 1 # 1000000 <= q ->
  Num.parseInt (Fin q) = Num.of_Z (Num.Qtrunc q).
Proof.
  intros H. unfold Num.parseInt.
  destruct (Num.is_zero q) eqn:Z; [reflexivity|]. cbn [orb].
  assert (L : 1 # 1000000 <= q).
  { destruct H as [H|H]; [|exact H].
    unfold Num.is_zero in Z. apply Qeq_bool_neq in Z. contradiction. }
  rewrite (Qle_bool_true_of (1 # 1000000) (Qabs q)); [reflexivity|].
  rewrite Qabs_pos; lra.
Qed.

Lemma positional_length_quotients (b : Q) :
  positional_length b ->
  0 <= b /\ (b / 60 == 0 \/ 1 # 1000000 <= b / 60) /\
  (b / 40 == 0 \/ 1 # 1000000 <= b / 40).
Proof.
  intros [H|H].
  - repeat split; [lra|left|left]; rewrite H; reflexivity.
  - repeat split; [lra|right|right]; apply Qle_shift_div_l; lra.
Qed.

Lemma getCandidateTickCounts_from (isVertical : bool) (dim : dimension) (b : Q) :
  getBaseSize isVertical dim = Fin b -> positional_length b ->
  exists l,
    getCandidateTickCounts isVertical dim =
      Ok (Fin (inject_Z (Num.Qtrunc (b / 60))) :: l) /\
    Forall (finite_from (inject_Z (Num.Qtrunc (b / 60)))) l.
Proof.
  intros Hb Hpl. destruct (positional_length_quotients b Hpl) as [Hpos [P60 P40]].
  unfold getCandidateTickCounts. rewrite Hb.
  unfold MAX_PIXEL_STEP_SIZE, MIN_PIXEL_STEP_SIZE.
  cbn [Num.div n_ Num.of_Z Num.add].
  change (Num.is_zero (inject_Z 60)) with false.
  change (Num.is_zero (inject_Z 40)) with false.
  cbn iota. change (inject_Z 60) with 60. change (inject_Z 40) with 40.
  rewrite (parseInt_positional _ P60), (parseInt_positional _ P40).
  cbn [Num.of_Z Num.add].
  change (inject_Z 60) with 60. change (inject_Z 40) with 40. change (inject_Z 1) with 1.
  destruct (range_None_fin (inject_Z (Num.Qtrunc (b / 60)))
              (inject_Z (Num.Qtrunc (b / 40)) + 1)) as [l [E [F N]]].
  destruct N as [l' ->].
  - assert (H : (Num.Qtrunc (b / 60) <= Num.Qtrunc (b / 40))%Z).
    { apply Qtrunc_mono_nonneg.
      - apply Qle_shift_div_l; lra.
      - apply Qle_shift_div_l; [lra|].
        assert (E' : b / 60 * 40 == b * (2 # 3)) by (field).
        rewrite E'. lra. }
    rewrite Zle_Qle in H. lra.
  - exists l'. split; [exact E|]. inversion F; assumption.
Qed.

Lemma getCandidateTickCounts_above_1 (isVertical : bool) (dim : dimension) (b : Q) :
  getBaseSize isVertical dim = Fin b -> 120 <= b ->
  exists tc tcs,
    getCandidateTickCounts isVertical dim = Ok (tc :: tcs) /\
    Forall above_1 (tc :: tcs).
Proof.
  intros Hb H120.
  destruct (getCandidateTickCounts_from isVertical dim b Hb) as [l [E F]];
    [right; lra|].
  assert (H2 : 2 <= inject_Z (Num.Qtrunc (b / 60))).
  { change 2 with (inject_Z 2). rewrite <- Zle_Qle.
    rewrite <- (Qtrunc_Z 2). apply Qtrunc_mono_nonneg.
    - change (inject_Z 2) with 2. lra.
    - change (inject_Z 2) with 2. apply Qle_shift_div_l; lra. }
  eexists. exists l. split; [exact E|].
  constructor.
  - eexists. split; [reflexivity|]. lra.
  - eapply Forall_impl; [|exact F].
    intros x [q [-> Hq]]. exists q. split; [reflexivity|]. lra.
Qed.

(** ** Containment of the data *)



(** ** Inputs the specification calls invalid *)

Section Invalid.
Variable upl : num -> nat.

Lemma makeTickInfo_opts_ext (isLineChart : bool)
  (tickCount min max userMin userMax : num) (isMinus : bool) (opts opts' : options) :
  opt_min opts = opt_min opts' -> opt_max opts = opt_max opts' ->
  makeTickInfo upl isLineChart tickCount min max userMin userMax isMinus opts =
  makeTickInfo upl isLineChart tickCount min max userMin userMax isMinus opts'.
Proof.
  destruct opts as [a b c], opts' as [a' b' c']. cbn [opt_min opt_max].
  intros <- <-. reflexivity.
Qed.

Lemma mapM_ext {A B : Type} (f g : A -> result B) (l : list A) :
  (forall a, f a = g a) -> mapM f l = mapM g l.
Proof.
  intros H. induction l as [|a l IH]; [reflexivity|].
  cbn [mapM]. rewrite H, IH. reflexivity.
Qed.

Lemma getTickInfoCandidates_opts_ext (isLineChart : bool) (min max : num)
  (tickCounts : list num) (opts opts' : options) :
  opt_min opts = opt_min opts' -> opt_max opts = opt_max opts' ->
  getTickInfoCandidates upl isLineChart min max tickCounts opts =
  getTickInfoCandidates upl isLineChart min max tickCounts opts'.
Proof.
  intros H1 H2. unfold getTickInfoCandidates.
  destruct (_ && _); apply mapM_ext; intros tc;
    apply makeTickInfo_opts_ext; assumption.
Qed.

Lemma getTickInfo_tickCount_zero (isVertical isLineChart : bool) (min max : num)
  (dim : dimension) (omin omax : option num) (z : Q) :
  z == 0 ->
  getTickInfo upl isVertical isLineChart min max dim
              (mkOptions omin omax (Some (Fin z))) =
  getTickInfo upl isVertical isLineChart min max dim (mkOptions omin omax None).
Proof.
  intros Hz. unfold getTickInfo, getTickInfo_tickCounts.
  cbn [opt_tickCount Num.truthy]. rewrite (is_zero_true z Hz). cbn [negb].
  destruct (getCandidateTickCounts isVertical dim) as [tcs|e]; [|reflexivity].
  cbn [bind]. unfold makeIntegerTypeInfo.
  destruct (_ || _); cbn [opt_min opt_max iti_min iti_max iti_options iti_divideNum].
  - rewrite (getTickInfoCandidates_opts_ext isLineChart min max tcs
               (mkOptions omin omax (Some (Fin z))) (mkOptions omin omax None));
      reflexivity.
  - reflexivity.
Qed.

Lemma makeTickInfo_reversed_bounds (isLineChart : bool) (t : Q)
  (min max userMin userMax : num) (isMinus : bool) (opts : options) (om oM : Q) :
  opt_min opts = Some (Fin om) -> opt_max opts = Some (Fin oM) ->
  ~ om == 0 -> ~ oM == 0 -> oM < om -> 1 < t ->
  makeTickInfo upl isLineChart (Fin t) min max userMin userMax isMinus opts
    = Err RangeError.
Proof.
  intros Hmin Hmax H1 H2 Hlt Ht. unfold makeTickInfo.
  rewrite (makeTickInfo_scale_override min max isMinus opts om oM) by assumption.
  rewrite getScaleStep_fin by lra.
  rewrite normalizeStep_neg; [reflexivity|].
  apply Qlt_shift_div_r; lra.
Qed.

Lemma getTickInfo_reversed_bounds (isVertical isLineChart : bool) (min max : num)
  (dim : dimension) (opts : options) (om oM t : Q) (tcs : list num) :
  opt_min opts = Some (Fin om) -> opt_max opts = Some (Fin oM) ->
  ~ om == 0 -> ~ oM == 0 -> oM < om ->
  getTickInfo_tickCounts isVertical dim opts = Ok (Fin t :: tcs) -> 1 < t ->
  getTickInfo upl isVertical isLineChart min max dim opts = Err RangeError.
Proof.
  intros Hmin Hmax H1 H2 Hlt Htcs Ht. unfold getTickInfo. rewrite Htcs. cbn [bind].
  unfold makeIntegerTypeInfo.
  destruct (_ || _).
  - cbn [iti_min iti_max iti_options iti_divideNum].
    unfold getTickInfoCandidates.
    destruct (_ && _); cbn [mapM];
      rewrite (makeTickInfo_reversed_bounds isLineChart t _ _ _ _ _ opts om oM)
        by assumption; reflexivity.
  - destruct (findMultipleNum_fin upl [min; max]) as [mm [-> Hmm]].
    rewrite Hmin, Hmax. cbn [Num.truthy Num.mul].
    rewrite !is_zero_false by assumption. cbn [negb].
    cbn [iti_min iti_max iti_options iti_divideNum].
    unfold getTickInfoCandidates.
    destruct (_ && _); cbn [mapM];
      rewrite (makeTickInfo_reversed_bounds isLineChart t _ _ _ _ _ _
                 (om * mm) (oM * mm)); try reflexivity; try nra; assumption.
Qed.

Lemma getTickInfo_no_candidates (isVertical isLineChart : bool) (min max : num)
  (dim : dimension) (opts : options) :
  getTickInfo_tickCounts isVertical dim opts = Ok [] ->
  getTickInfo upl isVertical isLineChart min max dim opts = Err TypeError.
Proof.
  intros H. unfold getTickInfo. rewrite H. cbn [bind].
  unfold getTickInfoCandidates. destruct (_ && _); reflexivity.
Qed.

End Invalid.

(** ** Equal values *)

Section Degenerate.
Variable upl : num -> nat.

Lemma subtraction_NaN (a : Q) : subtraction upl (Fin a) NaN = NaN.
Proof.
  unfold subtraction.
  destruct (findMultipleNum_fin upl [Fin a; NaN]) as [mm [-> Hmm]].
  reflexivity.
Qed.

Lemma normalizeMin_zero_step (m z : Q) :
  z == 0 -> normalizeMin upl (Fin m) (Fin z) = NaN.
Proof.
  intros Hz. unfold normalizeMin. rewrite (util_mod_zero upl m z Hz).
  cbn [Num.eq Num.add]. destruct (Fin m >=? n_ 0)%num; apply subtraction_NaN.
Qed.

Lemma makeTickInfo_align_zero_step (isLineChart : bool) (tickCount : num)
  (lo hi z : Q) (userMin userMax : num) (opts : options) :
  z == 0 ->
  makeTickInfo_align upl isLineChart tickCount (mkScale (Fin lo) (Fin hi))
                     (Fin z) userMin userMax opts = mkScale NaN NaN.
Proof.
  intros Hz. unfold makeTickInfo_align. cbn [scale_min scale_max].
  rewrite (normalizeMin_zero_step lo z Hz).
  destruct (findMultipleNum_fin upl [Fin z]) as [mm [-> Hmm]].
  cbn [Num.mul Num.add Num.sub Num.neg Num.div Num.gt Num.lt Num.eq].
  rewrite !andb_false_r. reflexivity.
Qed.

Lemma makeLabelsFromScale_NaN (z : Q) :
  z == 0 -> makeLabelsFromScale upl (mkScale NaN NaN) (Fin z) = Ok [].
Proof.
  intros Hz. unfold makeLabelsFromScale. cbn [scale_min scale_max].
  destruct (findMultipleNum_fin upl [Fin z]) as [mm [-> Hmm]].
  cbn [Num.mul Num.add]. unfold range. cbn [Num.truthy].
  rewrite (is_zero_true (z * mm)) by (rewrite Hz; ring).
  reflexivity.
Qed.

Lemma minimizeTickScale_each_NaN (userMin userMax step tickIndex : num)
  (opts : options) (sc : scale) :
  minimizeTickScale_each userMin userMax step NaN NaN opts tickIndex sc = (sc, true).
Proof.
  unfold minimizeTickScale_each.
  cbn [Num.add Num.sub Num.neg].
  assert (A : forall x, (NaN + x)%num = NaN) by (intros x; destruct x; reflexivity).
  rewrite ?A.
  assert (L1 : forall x, (x <=? NaN)%num = false) by (intros x; destruct x; reflexivity).
  assert (L2 : forall x, (x >=? NaN)%num = false) by (intros x; destruct x; reflexivity).
  assert (L3 : forall x, (x >? NaN)%num = false) by (intros x; destruct x; reflexivity).
  assert (L4 : forall x, (x <? NaN)%num = false) by (intros x; destruct x; reflexivity).
  rewrite ?L1, ?L3, ?L4. cbn [andb].
  destruct (opt_min opts) as [m|], (opt_max opts) as [m'|];
    cbn [isUndefined negb andb orb]; rewrite ?L1, ?L2; reflexivity.
Qed.

Lemma forEachArray_id {A S : Type} (l : list A) (f : A -> S -> S * bool) (s : S) :
  (forall a s, f a s = (s, true)) -> forEachArray l f s = s.
Proof.
  intros H. induction l as [|a l IH]; [reflexivity|].
  cbn [forEachArray]. rewrite H. exact IH.
Qed.

Lemma minimizeTickScale_NaN (userMin userMax : num) (z t : Q) (opts : options) :
  z == 0 ->
  minimizeTickScale upl userMin userMax
    (mkTickInfo (mkScale NaN NaN) (Fin z) (Fin t) []) opts =
  Ok (mkTickInfo (mkScale NaN NaN) (Fin z) (Num.of_nat 0) []).
Proof.
  intros Hz. unfold minimizeTickScale.
  cbn [ti_tickCount ti_step ti_scale scale_min scale_max].
  change (n_ 1) with (Fin 1).
  destruct (range_None_fin 1 t) as [ticks [-> _]]. cbn [bind].
  rewrite forEachArray_id by (intros; apply minimizeTickScale_each_NaN).
  rewrite (makeLabelsFromScale_NaN z Hz). reflexivity.
Qed.

Lemma divideTickStep_no_tick (sc : scale) (step org : num) :
  divideTickStep upl (mkTickInfo sc step (Num.of_nat 0) []) org =
  Ok (mkTickInfo sc step (Num.of_nat 0) []).
Proof.
  unfold divideTickStep. cbn [ti_step ti_scale ti_tickCount].
  change (Num.truthy (Num.of_nat 0 %% n_ 2)%num) with false.
  rewrite andb_false_r. reflexivity.
Qed.

Lemma makeTickInfo_degenerate (isLineChart : bool) (t a b ua ub : Q)
  (isMinus : bool) (opts : options) :
  opt_min opts = None -> opt_max opts = None -> ~ t == 1 -> a == b ->
  exists ti,
    makeTickInfo upl isLineChart (Fin t) (Fin a) (Fin b) (Fin ua) (Fin ub)
                 isMinus opts = Ok ti /\
    degenerate ti.
Proof.
  intros Hmin Hmax Ht Hab.
  assert (Hsc : exists lo hi,
            makeTickInfo_scale (Fin a) (Fin b) isMinus opts = mkScale (Fin lo) (Fin hi)
            /\ lo == hi).
  { destruct (makeTickInfo_scale_none a b opts Hmin Hmax) as [[lo [hi [E [_ [_ [_ H]]]]]]
                                                               [lo' [hi' [E' [_ [_ [_ H']]]]]]];
      [lra|].
    destruct isMinus.
    - exists lo', hi'. split; [exact E'|]. destruct (H' Hab). lra.
    - exists lo, hi. split; [exact E|]. destruct (H Hab). lra. }
  destruct Hsc as [lo [hi [Hsc Heq]]].
  unfold makeTickInfo. rewrite Hsc. rewrite getScaleStep_fin by exact Ht.
  set (z := (hi - lo) / (t - 1)).
  assert (Hz : z == 0).
  { unfold z. assert (E : hi - lo == 0) by lra. rewrite E. unfold Qdiv. ring. }
  rewrite (normalizeStep_zero upl z Hz). cbn [bind].
  rewrite (makeTickInfo_align_zero_step isLineChart (Fin t) lo hi z _ _ opts Hz).
  rewrite (minimizeTickScale_NaN _ _ z t opts Hz). cbn [bind].
  rewrite divideTickStep_no_tick.
  eexists. split; [reflexivity|].
  split; [reflexivity|]. split; [exists z; split; [reflexivity|exact Hz]|].
  split; reflexivity.
Qed.

Lemma getTickInfoCandidates_degenerate (isLineChart : bool) (ua ub : Q)
  (tickCounts : list num) (opts : options) :
  opt_min opts = None -> opt_max opts = None -> ua == ub ->
  Forall not_1 tickCounts ->
  exists candidates,
    getTickInfoCandidates upl isLineChart (Fin ua) (Fin ub) tickCounts opts
      = Ok candidates /\
    length candidates = length tickCounts /\
    Forall degenerate candidates.
Proof.
  intros Hmin Hmax Heq Htc. rewrite Forall_forall in Htc.
  unfold getTickInfoCandidates.
  destruct (_ && _); cbn [Num.neg];
    match goal with
    | |- context [mapM ?f tickCounts] =>
        assert (Hall : forall tc, In tc tickCounts ->
                  exists ti, f tc = Ok ti /\ degenerate ti);
        [ intros tc Hin; destruct (Htc tc Hin) as [t [-> Ht]];
          apply makeTickInfo_degenerate; try assumption; lra
        | destruct (mapM_Ok f tickCounts) as [cs [Ec Len]];
          [ intros tc Hin; destruct (Hall tc Hin) as [ti [Ei _]]; exists ti; exact Ei
          | exists cs; split; [exact Ec|]; split; [exact Len|];
            apply Forall_forall; intros ti Hti;
            destruct (mapM_In _ _ _ Ec ti Hti) as [tc [Hin Ei]];
            destruct (Hall tc Hin) as [ti' [Ei' G]];
            cbv beta in Ei'; congruence ] ]
    end.
Qed.

Lemma makeOriginalTypeTickInfo_degenerate (mm : Q) (ti : tickInfo) :
  1 <= mm -> degenerate ti ->
  degenerate (makeOriginalTypeTickInfo upl ti (Fin mm)).
Proof.
  intros Hmm [E1 [[z [E2 Hz]] [E3 E4]]]. unfold makeOriginalTypeTickInfo.
  destruct (Fin mm === n_ 1)%num; [repeat split; try assumption; exists z; auto|].
  rewrite E1, E2, E3, E4. cbn [scale_min scale_max map].
  destruct (division_fin upl z mm) as [z' [Ez' Hz']]; [lra|].
  assert (N : division upl NaN (Fin mm) = NaN).
  { unfold division.
    destruct (findMultipleNum_fin upl [NaN; Fin mm]) as [m' [-> _]]. reflexivity. }
  split; [cbn [ti_scale]; rewrite N; reflexivity|].
  split; [exists z'; split; [exact Ez'|]|split; reflexivity].
  rewrite Hz', Hz. unfold Qdiv. ring.
Qed.

Lemma getTickInfo_degenerate (isVertical isLineChart : bool) (ua ub : Q)
  (dim : dimension) (opts : options) (tc : num) (tcs : list num) :
  opt_min opts = None -> opt_max opts = None -> ua == ub ->
  getTickInfo_tickCounts isVertical dim opts = Ok (tc :: tcs) ->
  Forall not_1 (tc :: tcs) ->
  exists ti,
    getTickInfo upl isVertical isLineChart (Fin ua) (Fin ub) dim opts = Ok ti /\
    degenerate ti.
Proof.
  intros Hmin Hmax Heq Htcs Hall. unfold getTickInfo. rewrite Htcs. cbn [bind].
  unfold makeIntegerTypeInfo.
  destruct (_ || _).
  - cbn [iti_min iti_max iti_options iti_divideNum].
    destruct (getTickInfoCandidates_degenerate isLineChart ua ub (tc :: tcs) opts)
      as [cs [-> [Len G]]]; try assumption.
    cbn [bind].
    destruct (selectTickInfo_Ok upl (Fin ua) (Fin ub) cs) as [ti [-> Hin]].
    { destruct cs; [discriminate Len|discriminate]. }
    cbn [bind]. eexists. split; [reflexivity|].
    rewrite Forall_forall in G.
    unfold makeOriginalTypeTickInfo. change (n_ 1 === n_ 1)%num with true.
    apply G. exact Hin.
  - destruct (findMultipleNum_fin upl [Fin ua; Fin ub]) as [mm [-> Hmm]].
    rewrite Hmin, Hmax.
    cbn [iti_min iti_max iti_options iti_divideNum Num.mul].
    destruct (getTickInfoCandidates_degenerate isLineChart (ua * mm) (ub * mm)
                (tc :: tcs) (mkOptions None None None))
      as [cs [-> [Len G]]]; try reflexivity; try assumption; [rewrite Heq; reflexivity|].
    cbn [bind].
    destruct (selectTickInfo_Ok upl (Fin (ua * mm)) (Fin (ub * mm)) cs) as [ti [-> Hin]].
    { destruct cs; [discriminate Len|discriminate]. }
    cbn [bind]. eexists. split; [reflexivity|].
    rewrite Forall_forall in G.
    apply makeOriginalTypeTickInfo_degenerate; [assumption|]. apply G. exact Hin.
Qed.

End Degenerate.

(** X2. Equal values in a chart whose candidate tick counts differ from 1:
    the axis gets no bound and no label, and a step of 0. *)
Theorem setValueAxisData_equal_values (upl : num -> nat)
  (isVertical isLineChart : bool) (groupValues : list (list Q))
  (dim : dimension) (tc : num) (tcs : list num) :
  concat groupValues <> [] ->
  (forall v w, In v (concat groupValues) -> In w (concat groupValues) -> v == w) ->
  getCandidateTickCounts isVertical dim = Ok (tc :: tcs) ->
  Forall not_1 (tc :: tcs) ->
  exists ti,
    setValueAxisData upl isVertical isLineChart (map (map Fin) groupValues)
                     dim no_options = Ok ti /\
    degenerate ti.
Proof.
  intros Hne Heq Htc Hall.
  unfold setValueAxisData. rewrite concat_map_Fin.
  destruct (util_min_max_fin (concat groupValues) Hne) as [ua [ub [-> [-> [_ [Ia Ib]]]]]].
  apply (getTickInfo_degenerate upl isVertical isLineChart ua ub dim no_options tc tcs);
    try reflexivity; try assumption.
  apply Heq; assumption.
Qed.

Lemma setValueAxisData_equal_values_witness :
  exists ti,
    setValueAxisData decimalPlaces true false (map (map Fin) [[5; 5]; [5]])
                     dim_1000x500 no_options = Ok ti /\
    degenerate ti.
Proof.
  apply (setValueAxisData_equal_values decimalPlaces true false [[5; 5]; [5]]
           dim_1000x500 (n_ 7) [n_ 8; n_ 9; n_ 10]).
  - discriminate.
  - cbn. intros v w Hv Hw. intuition (subst; reflexivity).
  - reflexivity.
  - repeat constructor; eexists; (split; [reflexivity|]); discriminate.
Defined.

(** ** The model at work *)

(** [_normalizeStep] on some steps. *)
Example normalizeStep_samples :
  returns (normalizeStep decimalPlaces (n_ 0)) (n_ 0) = true /\
  returns (normalizeStep decimalPlaces (Fin (16 # 10))) (n_ 2) = true /\
  returns (normalizeStep decimalPlaces (n_ 4)) (n_ 5) = true /\
  returns (normalizeStep decimalPlaces (n_ 6)) (n_ 10) = true /\
  returns (normalizeStep decimalPlaces (n_ 40)) (n_ 40) = true /\
  returns (normalizeStep decimalPlaces (n_ 1005)) (n_ 1010) = true /\
  returns (normalizeStep decimalPlaces (Fin (4 # 10))) (Fin (5 # 10)) = true /\
  returns (normalizeStep decimalPlaces (Fin (7 # 100))) (Fin (1 # 10)) = true /\
  normalizeStep decimalPlaces (n_ (-1)) = Err RangeError.
Proof. repeat split; vm_compute; reflexivity. Qed.

(** The values 1000 to 8000 in the chart of 1000 x 500 pixels: nine ticks
    from 930 to 8370. *)
Example scenario_all_positive :
  exists ti,
    setValueAxisData decimalPlaces true false
      [[n_ 1000; n_ 2000; n_ 3000; n_ 4000]; [n_ 5000; n_ 6000; n_ 7000; n_ 8000]]
      dim_1000x500 no_options = Ok ti /\
    (scale_min (ti_scale ti) === n_ 930)%num = true /\
    (scale_max (ti_scale ti) === n_ 8370)%num = true /\
    (ti_step ti === n_ 930)%num = true /\
    ti_tickCount ti = n_ 9.
Proof.
  destruct (setValueAxisData decimalPlaces true false
      [[n_ 1000; n_ 2000; n_ 3000; n_ 4000]; [n_ 5000; n_ 6000; n_ 7000; n_ 8000]]
      dim_1000x500 no_options) as [ti|e] eqn:E.
  - exists ti. split; [reflexivity|].
    vm_compute in E. injection E as <-. repeat split.
  - vm_compute in E. discriminate E.
Qed.

(** The mirrored values -8000 to -1000: the scale is the mirror image. *)
Example scenario_all_negative :
  exists ti,
    setValueAxisData decimalPlaces true false
      [[n_ (-8000); n_ (-7000); n_ (-6000); n_ (-5000)];
       [n_ (-4000); n_ (-3000); n_ (-2000); n_ (-1000)]]
      dim_1000x500 no_options = Ok ti /\
    (scale_min (ti_scale ti) <=? n_ (-8000))%num = true /\
    (n_ (-1000) <=? scale_max (ti_scale ti))%num = true /\
    (scale_max (ti_scale ti) <=? n_ 0)%num = true.
Proof.
  destruct (setValueAxisData decimalPlaces true false
      [[n_ (-8000); n_ (-7000); n_ (-6000); n_ (-5000)];
       [n_ (-4000); n_ (-3000); n_ (-2000); n_ (-1000)]]
      dim_1000x500 no_options) as [ti|e] eqn:E.
  - exists ti. split; [reflexivity|].
    vm_compute in E. injection E as <-. repeat split.
  - vm_compute in E. discriminate E.
Qed.

(** Values below 1 are computed at 1000 times their magnitude and brought
    back: the labels 0, 0.002, ..., 0.01. *)
Example scenario_sub_unit :
  iti_divideNum (makeIntegerTypeInfo decimalPlaces (Fin (1 # 1000)) (Fin (9 # 1000))
                   no_options) = n_ 1000 /\
  exists ti,
    setValueAxisData decimalPlaces true false
      [[Fin (1 # 1000); Fin (2 # 1000); Fin (9 # 1000)]] dim_1000x500 no_options
      = Ok ti /\
    (scale_min (ti_scale ti) === n_ 0)%num = true /\
    (scale_max (ti_scale ti) === Fin (1 # 100))%num = true /\
    (ti_step ti === Fin (2 # 1000))%num = true /\
    ti_tickCount ti = n_ 6.
Proof.
  split; [vm_compute; reflexivity|].
  destruct (setValueAxisData decimalPlaces true false
      [[Fin (1 # 1000); Fin (2 # 1000); Fin (9 # 1000)]] dim_1000x500 no_options)
    as [ti|e] eqn:E.
  - exists ti. split; [reflexivity|].
    vm_compute in E. injection E as <-. repeat split.
  - vm_compute in E. discriminate E.
Qed.

(** ** Normalizing twice *)

(** In the exact model, normalization is idempotent on 0 and from 5 on,
    where the normalized step is the next multiple of 10. *)
Lemma normalizeStep_from_5 (upl : num -> nat) (q : Q) :
  q == 0 \/ 5 <= q ->
  exists r r',
    normalizeStep upl (Fin q) = Ok (Fin r) /\
    normalizeStep upl (Fin r) = Ok (Fin r') /\
    r' == r /\
    (5 <= q -> q <= r /\ r < q + 10 /\ exists k : Z, r == 10 * inject_Z k).
Proof.
  intros [Z|H].
  - exists q, q. rewrite (normalizeStep_zero upl q Z).
    repeat split; try reflexivity; lra.
  - destruct (normalizeStep_rec_standard upl (normalizeStep_fuel (Fin q)) q 10)
      as [r [E Hr]]; [lra | apply standard_ge5; exact H | lra |].
    destruct (roundUp_spec q 10) as [A [B [k Hk]]]; [lra | lra |].
    destruct (normalizeStep_rec_standard upl (normalizeStep_fuel (Fin r)) r 10)
      as [r' [E' Hr']]; [lra | apply standard_ge5; lra | lra |].
    exists r, r'. split; [exact E|]. split; [exact E'|].
    split.
    + rewrite Hr'. rewrite (roundUp_comp r (10 * inject_Z k) 10) by lra.
      rewrite roundUp_multiple by lra. lra.
    + intros _. repeat split; try lra. exists k. lra.
Qed.

(** * The claims of the specification *)

(** ** C1 *)

(** C1, at the failing input.  A single value 5 (or any list of equal
    values) has the range [5, 5]: the raw step is 0, [_normalizeMin] takes
    the remainder of 5 by 0, and both bounds of the scale are [NaN], which
    are not below and above 5. *)
Theorem single_value_scale_is_NaN :
  exists ti,
    setValueAxisData decimalPlaces true false [[n_ 5]] dim_1000x500 no_options
      = Ok ti /\
    scale_min (ti_scale ti) = NaN /\ scale_max (ti_scale ti) = NaN /\
    (scale_min (ti_scale ti) <=? n_ 5)%num = false /\
    (n_ 5 <=? scale_max (ti_scale ti))%num = false /\
    ti_labels ti = [].
Proof.
  destruct (setValueAxisData decimalPlaces true false [[n_ 5]] dim_1000x500
              no_options) as [ti|e] eqn:E.
  - exists ti. split; [reflexivity|].
    vm_compute in E. injection E as <-. repeat split.
  - vm_compute in E. discriminate E.
Qed.

(** ** C2 *)




(** With a tick count of 6 the step is 4000 and the bounds are kept. *)
Example override_minus_8000_12000_at_6 :
  exists ti,
    getTickInfo decimalPlaces true false (n_ (-5000)) (n_ 10000) dim_1000x500
      (opts_scenario_C 6) = Ok ti /\
    (scale_min (ti_scale ti) === n_ (-8000))%num = true /\
    (scale_max (ti_scale ti) === n_ 12000)%num = true /\
    (ti_step ti === n_ 4000)%num = true.
Proof.
  destruct (getTickInfo decimalPlaces true false (n_ (-5000)) (n_ 10000) dim_1000x500
              (opts_scenario_C 6)) as [ti|e] eqn:E.
  - exists ti. split; [reflexivity|].
    vm_compute in E. injection E as <-. repeat split.
  - vm_compute in E. discriminate E.
Qed.

(** The chart of the story, whose candidate tick counts are 7 to 10. *)
Example override_minus_8000_12000_story :
  exists ti,
    getTickInfo decimalPlaces true false (n_ (-5000)) (n_ 10000) dim_1000x500
      (mkOptions (Some (n_ (-8000))) (Some (n_ 12000)) None) = Ok ti /\
    (scale_min (ti_scale ti) === n_ (-8000))%num = false.
Proof.
  destruct (getTickInfo decimalPlaces true false (n_ (-5000)) (n_ 10000) dim_1000x500
              (mkOptions (Some (n_ (-8000))) (Some (n_ 12000)) None)) as [ti|e] eqn:E.
  - exists ti. split; [reflexivity|].
    vm_compute in E. injection E as <-. repeat split.
  - vm_compute in E. discriminate E.
Qed.

(** A minimum option alone, on the chart of the story: the scale
    [-8360, 12540] covers the option and the values. *)
Example override_min_alone_covers :
  exists ti,
    getTickInfo decimalPlaces true false (n_ (-5000)) (n_ 10000) dim_1000x500
      (mkOptions (Some (n_ (-8000))) None None) = Ok ti /\
    (scale_min (ti_scale ti) === n_ (-8360))%num = true /\
    (scale_max (ti_scale ti) === n_ 12540)%num = true /\
    (ti_step ti === n_ 2090)%num = true.
Proof.
  destruct (getTickInfo decimalPlaces true false (n_ (-5000)) (n_ 10000) dim_1000x500
              (mkOptions (Some (n_ (-8000))) None None)) as [ti|e] eqn:E.
  - exists ti. split; [reflexivity|].
    vm_compute in E. injection E as <-. repeat split.
  - vm_compute in E. discriminate E.
Qed.

(** A maximum option alone is not covered: the tightening follows the
    values, and the scale [-5670, 11340] ends below the option 12000. *)
Example override_max_alone_not_covered :
  exists ti,
    getTickInfo decimalPlaces true false (n_ (-5000)) (n_ 10000) dim_1000x500
      (mkOptions None (Some (n_ 12000)) None) = Ok ti /\
    (scale_min (ti_scale ti) === n_ (-5670))%num = true /\
    (scale_max (ti_scale ti) === n_ 11340)%num = true /\
    (n_ 12000 <=? scale_max (ti_scale ti))%num = false.
Proof.
  destruct (getTickInfo decimalPlaces true false (n_ (-5000)) (n_ 10000) dim_1000x500
              (mkOptions None (Some (n_ 12000)) None)) as [ti|e] eqn:E.
  - exists ti. split; [reflexivity|].
    vm_compute in E. injection E as <-. repeat split.
  - vm_compute in E. discriminate E.
Qed.

(** An option minimum of 0 is not taken: [options.min || scale.min]. *)
Example override_zero_ignored :
  exists ti,
    getTickInfo decimalPlaces true false (n_ 5) (n_ 10) dim_1000x500
      (mkOptions (Some (n_ 0)) None (Some (n_ 5))) = Ok ti /\
    (scale_min (ti_scale ti) === n_ 0)%num = false.
Proof.
  destruct (getTickInfo decimalPlaces true false (n_ 5) (n_ 10) dim_1000x500
      (mkOptions (Some (n_ 0)) None (Some (n_ 5)))) as [ti|e] eqn:E.
  - exists ti. split; [reflexivity|].
    vm_compute in E. injection E as <-. repeat split.
  - vm_compute in E. discriminate E.
Qed.

(** ** C3 *)

(** C3, amended.  For a chart whose usable length [baseSize] is 0, or at
    least 0.0001 pixel, the candidate tick counts are not empty: they start
    at the integer part of [baseSize / 60] and the others are not below
    it.  (That integer part is 0 below 60 pixels: there is no fallback
    to 1.) *)
Theorem getCandidateTickCounts_nonempty (isVertical : bool) (dim : dimension) (b : Q) :
  getBaseSize isVertical dim = Fin b -> positional_length b ->
  exists l,
    getCandidateTickCounts isVertical dim =
      Ok (Num.of_Z (Num.Qtrunc (b / 60)) :: l) /\
    Forall (finite_from (inject_Z (Num.Qtrunc (b / 60)))) l.
Proof.
  intros Hb Hpos.
  destruct (getCandidateTickCounts_from isVertical dim b Hb Hpos) as [l [E F]].
  exists l. split; [exact E|exact F].
Qed.

Lemma getCandidateTickCounts_nonempty_witness :
  getBaseSize true dim_1000x500 = Fin (500 - 80) /\
  positional_length (500 - 80) /\
  exists l,
    getCandidateTickCounts true dim_1000x500 =
      Ok (Num.of_Z (Num.Qtrunc ((500 - 80) / 60)) :: l) /\
    Forall (finite_from (inject_Z (Num.Qtrunc ((500 - 80) / 60)))) l.
Proof.
  assert (H1 : getBaseSize true dim_1000x500 = Fin (500 - 80))
    by reflexivity.
  assert (H2 : positional_length (500 - 80)) by (right; lra).
  split; [exact H1|]. split; [exact H2|].
  exact (getCandidateTickCounts_nonempty true dim_1000x500
           (500 - 80) H1 H2).
Defined.

(** C3, counterexample.  A horizontal axis in a chart 100 pixels wide has
    no candidate tick count at all. *)
Lemma getCandidateTickCounts_empty_at_width_100 :
  getCandidateTickCounts false (mkDimension (n_ 100) (n_ 500)) = Ok [].
Proof. vm_compute. reflexivity. Qed.

(** In a chart 200 pixels wide the only candidate is 0, not 1. *)
Lemma getCandidateTickCounts_zero_at_width_200 :
  getCandidateTickCounts false (mkDimension (n_ 200) (n_ 500)) = Ok [Fin 0].
Proof. vm_compute. reflexivity. Qed.

(** A positive usable length below 0.0001 pixel can leave no candidate
    either.  At a height of 80.00005 the usable length is 0.00005; its
    quotient by 60 is printed [8.333e-7], of which [parseInt] reads 8,
    and the quotient by 40 is printed [0.00000125]: the candidates range
    from 8 to 0. *)
Example getCandidateTickCounts_empty_at_height_80_00005 :
  getBaseSize true (mkDimension (n_ 1000) (Fin (8000005 # 100000)))
    = Fin ((8000005 # 100000) + - inject_Z 80) /\
  (8000005 # 100000) + - inject_Z 80 == 5 # 100000 /\
  Num.parseInt (Fin ((5 # 100000) / 60)) = n_ 8 /\
  Num.parseInt (Fin ((5 # 100000) / 40)) = n_ 0 /\
  getCandidateTickCounts true (mkDimension (n_ 1000) (Fin (8000005 # 100000)))
    = Ok [].
Proof. repeat split. Qed.

(** ** C4 *)

(** C4.  Every tick info the pipeline produces, a candidate or the selected
    output, has as many labels as its [tickCount] says. *)
Theorem labels_length_is_tickCount (upl : num -> nat) (ti : tickInfo) :
  produced upl ti ->
  ti_tickCount ti = Num.of_nat (length (ti_labels ti)).
Proof.
  intros [? ? ? ? ? ? ? ? H | ? ? ? ? ? ? H | ? ? ? ? ? H].
  - eapply makeTickInfo_counted. exact H.
  - eapply getTickInfo_counted. exact H.
  - eapply setValueAxisData_counted. exact H.
Qed.

Lemma labels_length_is_tickCount_witness :
  exists ti,
    produced decimalPlaces ti /\
    ti_tickCount ti = Num.of_nat (length (ti_labels ti)).
Proof.
  destruct (getTickInfo decimalPlaces true false (n_ 1000) (n_ 8000)
              dim_1000x500 no_options) as [ti|e] eqn:E.
  - exists ti.
    assert (H : produced decimalPlaces ti)
      by (eapply produced_selected; exact E).
    split; [exact H|].
    exact (labels_length_is_tickCount decimalPlaces ti H).
  - vm_compute in E. discriminate E.
Defined.

(** ** C5 *)




(** ** C6 *)

(** C6, at the failing input.  In a chart 250 pixels wide the only candidate
    tick count of a horizontal axis is 1; for equal values the raw step is
    [0 / 0]: the step of the result is [NaN] and it has no tick at all. *)
Theorem equal_values_one_tick_step_is_NaN :
  getCandidateTickCounts false (mkDimension (n_ 250) (n_ 500)) = Ok [n_ 1] /\
  exists ti,
    setValueAxisData decimalPlaces false false [[n_ 5; n_ 5]]
      (mkDimension (n_ 250) (n_ 500)) no_options = Ok ti /\
    ti_step ti = NaN /\ (ti_step ti === n_ 0)%num = false /\
    ti_tickCount ti = n_ 0 /\ ti_labels ti = [] /\
    scale_min (ti_scale ti) = NaN /\ scale_max (ti_scale ti) = NaN.
Proof.
  split; [vm_compute; reflexivity|].
  destruct (setValueAxisData decimalPlaces false false [[n_ 5; n_ 5]]
      (mkDimension (n_ 250) (n_ 500)) no_options) as [ti|e] eqn:E.
  - exists ti. split; [reflexivity|].
    vm_compute in E. injection E as <-. repeat split.
  - vm_compute in E. discriminate E.
Qed.

(** ** C7 *)

(** C7, amended.  No input is rejected with a descriptive error.  A
    tick-count override of 0 is ignored: the result is the one computed
    without it.  Option bounds with [min > max] (neither of them 0), with a
    first candidate tick count above 1, end in the unbounded recursion of
    [_normalizeStep] on a negative step, and an empty list of candidate
    tick counts, which is what a width of 100 gives, in a read of
    [undefined]. *)
Theorem invalid_input_not_validated (upl : num -> nat)
  (isVertical isLineChart : bool) (min max : num) (dim : dimension) :
  (forall omin omax z, z == 0 ->
     getTickInfo upl isVertical isLineChart min max dim
                 (mkOptions omin omax (Some (Fin z))) =
     getTickInfo upl isVertical isLineChart min max dim
                 (mkOptions omin omax None)) /\
  (forall opts om oM t tcs,
     opt_min opts = Some (Fin om) -> opt_max opts = Some (Fin oM) ->
     ~ om == 0 -> ~ oM == 0 -> oM < om ->
     getTickInfo_tickCounts isVertical dim opts = Ok (Fin t :: tcs) -> 1 < t ->
     getTickInfo upl isVertical isLineChart min max dim opts = Err RangeError) /\
  (forall opts, getTickInfo_tickCounts isVertical dim opts = Ok [] ->
     getTickInfo upl isVertical isLineChart min max dim opts = Err TypeError).
Proof.
  split; [|split].
  - intros omin omax z Hz. apply getTickInfo_tickCount_zero. exact Hz.
  - intros opts om oM t tcs. apply getTickInfo_reversed_bounds.
  - intros opts. apply getTickInfo_no_candidates.
Qed.

Lemma invalid_input_not_validated_witness :
  getTickInfo decimalPlaces true false (n_ 1000) (n_ 8000) dim_1000x500
              (mkOptions None None (Some (Fin 0))) =
  getTickInfo decimalPlaces true false (n_ 1000) (n_ 8000) dim_1000x500
              (mkOptions None None None) /\
  getTickInfo decimalPlaces true false (n_ 1000) (n_ 8000) dim_1000x500
              (mkOptions (Some (n_ 12000)) (Some (n_ (-8000))) (Some (n_ 5)))
    = Err RangeError /\
  getTickInfo decimalPlaces false false (n_ 1000) (n_ 8000)
              (mkDimension (n_ 100) (n_ 500)) no_options
    = Err TypeError.
Proof.
  destruct (invalid_input_not_validated decimalPlaces true false
              (n_ 1000) (n_ 8000) dim_1000x500) as [A [B _]].
  destruct (invalid_input_not_validated decimalPlaces false false
              (n_ 1000) (n_ 8000) (mkDimension (n_ 100) (n_ 500))) as [_ [_ C]].
  split; [|split].
  - apply A. reflexivity.
  - apply (B (mkOptions (Some (n_ 12000)) (Some (n_ (-8000))) (Some (n_ 5)))
             (inject_Z 12000) (inject_Z (-8000)) 5 []);
      try reflexivity; intros H; discriminate H.
  - apply (C no_options). reflexivity.
Defined.

(** C7, counterexample.  A tick-count override of 0 is below 1; the values
    0 and 100 on the vertical axis of a chart 200 pixels high (candidate
    tick counts 2 and 3) still get a scale: [0, 110] with two ticks. *)
Lemma tickCount_0_returns_a_scale :
  exists ti,
    setValueAxisData decimalPlaces true false [[n_ 0; n_ 100]]
      (mkDimension (n_ 1000) (n_ 200)) (mkOptions None None (Some (n_ 0))) = Ok ti /\
    (scale_min (ti_scale ti) === n_ 0)%num = true /\
    (scale_max (ti_scale ti) === n_ 110)%num = true /\
    (ti_step ti === n_ 110)%num = true /\
    ti_tickCount ti = n_ 2.
Proof.
  destruct (setValueAxisData decimalPlaces true false [[n_ 0; n_ 100]]
      (mkDimension (n_ 1000) (n_ 200)) (mkOptions None None (Some (n_ 0))))
    as [ti|e] eqn:E.
  - exists ti. split; [reflexivity|].
    vm_compute in E. injection E as <-. repeat split.
  - vm_compute in E. discriminate E.
Qed.

(** ** C8 *)

(** C8, amended.  Among candidates whose comparing values are numbers,
    [_selectTickInfo] returns the first candidate of minimal comparing
    value: every earlier candidate has a strictly greater comparing value,
    every later one a greater or equal one; the comparing value is
    [(|scale.max - max| + |min - scale.min|) * 10^underPointLength(step)]. *)
Theorem selectTickInfo_first_minimum (upl : num -> nat) (min max : num)
  (candidates : list tickInfo) :
  candidates <> [] ->
  Forall (fun c => is_NaN (comparingValueOf upl min max c) = false) candidates ->
  exists pre sel post,
    candidates = pre ++ sel :: post /\
    selectTickInfo upl min max candidates = Ok sel /\
    Forall (fun c => (comparingValueOf upl min max sel <?
                      comparingValueOf upl min max c)%num = true) pre /\
    Forall (fun c => (comparingValueOf upl min max sel <=?
                      comparingValueOf upl min max c)%num = true) post /\
    comparingValueOf upl min max sel =
      ((Num.abs (scale_max (ti_scale sel) - max)
        + Num.abs (min - scale_min (ti_scale sel)))
       * Num.pow10 (upl (ti_step sel)))%num.
Proof.
  intros Hne Hall. destruct candidates as [|first rest]; [congruence|].
  inversion Hall as [|? ? Hf Hr]; subst.
  destruct (selectTickInfo_loop upl min max rest [] first [] Hf Hr)
    as [pre [sel [post [E [S [P1 P2]]]]]]; try constructor.
  exists pre, sel, post. split; [exact E|]. split.
  - cbn [selectTickInfo]. f_equal. exact S.
  - split; [exact P1|]. split; [exact P2|]. reflexivity.
Qed.

Lemma selectTickInfo_first_minimum_witness :
  [candidate_a; candidate_b; candidate_c] <> [] /\
  Forall (fun c => is_NaN (comparingValueOf decimalPlaces (n_ 2) (n_ 8) c) = false)
         [candidate_a; candidate_b; candidate_c] /\
  exists pre sel post,
    [candidate_a; candidate_b; candidate_c] = pre ++ sel :: post /\
    selectTickInfo decimalPlaces (n_ 2) (n_ 8)
      [candidate_a; candidate_b; candidate_c] = Ok sel /\
    Forall (fun c => (comparingValueOf decimalPlaces (n_ 2) (n_ 8) sel <?
                      comparingValueOf decimalPlaces (n_ 2) (n_ 8) c)%num = true) pre /\
    Forall (fun c => (comparingValueOf decimalPlaces (n_ 2) (n_ 8) sel <=?
                      comparingValueOf decimalPlaces (n_ 2) (n_ 8) c)%num = true) post /\
    comparingValueOf decimalPlaces (n_ 2) (n_ 8) sel =
      ((Num.abs (scale_max (ti_scale sel) - n_ 8)
        + Num.abs (n_ 2 - scale_min (ti_scale sel)))
       * Num.pow10 (decimalPlaces (ti_step sel)))%num.
Proof.
  assert (H1 : [candidate_a; candidate_b; candidate_c] <> []) by discriminate.
  assert (H2 : Forall (fun c => is_NaN (comparingValueOf decimalPlaces (n_ 2) (n_ 8) c) = false)
                 [candidate_a; candidate_b; candidate_c])
    by (repeat constructor).
  split; [exact H1|]. split; [exact H2|].
  exact (selectTickInfo_first_minimum decimalPlaces (n_ 2) (n_ 8) _ H1 H2).
Defined.

(** On a tie the earliest candidate wins: [candidate_a] and [candidate_b]
    both have the comparing value 4. *)
Example selectTickInfo_tie :
  comparingValueOf decimalPlaces (n_ 2) (n_ 8) candidate_a = Fin 4 /\
  comparingValueOf decimalPlaces (n_ 2) (n_ 8) candidate_b = Fin 4 /\
  selectTickInfo decimalPlaces (n_ 2) (n_ 8) [candidate_a; candidate_b; candidate_c]
    = Ok candidate_a /\
  selectTickInfo decimalPlaces (n_ 2) (n_ 8) [candidate_b; candidate_a; candidate_c]
    = Ok candidate_b.
Proof. repeat split; vm_compute; reflexivity. Qed.

(** C8, counterexample.  A comparing value that is [NaN] compares false
    with every number, so a first candidate without a maximum is kept
    whatever follows it.  The values 0 and 100 on a vertical axis 180
    pixels high have the candidate tick counts 1 and 2: the candidate of
    one tick has the comparing value [NaN], the candidate of two ticks,
    of scale [0, 110], has the comparing value 10, and the first one is
    returned. *)
Lemma selectTickInfo_NaN_first :
  getCandidateTickCounts true (mkDimension (n_ 1000) (n_ 180)) = Ok [n_ 1; n_ 2] /\
  exists c1 c2,
    getTickInfoCandidates decimalPlaces false (n_ 0) (n_ 100) [n_ 1; n_ 2]
                          no_options = Ok [c1; c2] /\
    comparingValueOf decimalPlaces (n_ 0) (n_ 100) c1 = NaN /\
    (comparingValueOf decimalPlaces (n_ 0) (n_ 100) c2 === n_ 10)%num = true /\
    selectTickInfo decimalPlaces (n_ 0) (n_ 100) [c1; c2] = Ok c1 /\
    (comparingValueOf decimalPlaces (n_ 0) (n_ 100) c1 <=?
     comparingValueOf decimalPlaces (n_ 0) (n_ 100) c2)%num = false.
Proof.
  split; [vm_compute; reflexivity|].
  destruct (getTickInfoCandidates decimalPlaces false (n_ 0) (n_ 100) [n_ 1; n_ 2]
              no_options) as [[|c1 [|c2 [|c3 l]]]|e] eqn:E;
    try (vm_compute in E; discriminate E).
  exists c1, c2. split; [reflexivity|].
  vm_compute in E. injection E as <- <-. repeat split.
Qed.

(** The same on candidates written by hand: a first candidate without
    bounds is kept. *)
Example selectTickInfo_NaN_kept :
  comparingValueOf decimalPlaces (n_ 2) (n_ 8) candidate_nan = NaN /\
  selectTickInfo decimalPlaces (n_ 2) (n_ 8) [candidate_nan; candidate_a]
    = Ok candidate_nan.
Proof. split; vm_compute; reflexivity. Qed.

(** ** C9 *)

(** C9, amended.  With a tick-count override that is not 0 the candidate
    tick counts are exactly the override, whatever the dimension and the
    orientation, so the result does not depend on them; the [tickCount] of
    the result is the number of labels of the refined scale. *)
Theorem tickCount_override_single_candidate (upl : num -> nat)
  (isVertical isLineChart : bool) (min max : num) (dim : dimension)
  (opts : options) (tc : num) :
  opt_tickCount opts = Some tc -> Num.truthy tc = true ->
  getTickInfo_tickCounts isVertical dim opts = Ok [tc] /\
  (forall isVertical' dim',
     getTickInfo upl isVertical' isLineChart min max dim' opts =
     getTickInfo upl isVertical isLineChart min max dim opts) /\
  (forall ti,
     getTickInfo upl isVertical isLineChart min max dim opts = Ok ti ->
     ti_tickCount ti = Num.of_nat (length (ti_labels ti))).
Proof.
  intros Hopt Htc.
  assert (T : forall v d, getTickInfo_tickCounts v d opts = Ok [tc]).
  { intros v d. unfold getTickInfo_tickCounts. rewrite Hopt, Htc. reflexivity. }
  split; [apply T|]. split.
  - intros v' d'. unfold getTickInfo. rewrite !T. reflexivity.
  - intros ti H. eapply getTickInfo_counted. exact H.
Qed.

Lemma tickCount_override_single_candidate_witness :
  opt_tickCount opts_tickCount_5 = Some (n_ 5) /\ Num.truthy (n_ 5) = true /\
  getTickInfo_tickCounts true dim_1000x500 opts_tickCount_5 = Ok [n_ 5] /\
  (forall isVertical' dim',
     getTickInfo decimalPlaces isVertical' false (n_ (-5)) (n_ 95) dim' opts_tickCount_5 =
     getTickInfo decimalPlaces true false (n_ (-5)) (n_ 95) dim_1000x500 opts_tickCount_5) /\
  (forall ti,
     getTickInfo decimalPlaces true false (n_ (-5)) (n_ 95) dim_1000x500 opts_tickCount_5
       = Ok ti ->
     ti_tickCount ti = Num.of_nat (length (ti_labels ti))).
Proof.
  split; [reflexivity|]. split; [reflexivity|].
  exact (tickCount_override_single_candidate decimalPlaces true false
           (n_ (-5)) (n_ 95) dim_1000x500 opts_tickCount_5 (n_ 5) eq_refl eq_refl).
Defined.

(** C9, counterexample.  For the data range [-5, 95] and a tick-count
    override of 5 the result has six ticks: -30, 0, 30, 60, 90 and 120. *)
Lemma tickCount_override_5_gives_6 :
  exists ti,
    getTickInfo decimalPlaces true false (n_ (-5)) (n_ 95) dim_1000x500
      opts_tickCount_5 = Ok ti /\
    ti_tickCount ti = n_ 6 /\
    (ti_tickCount ti === n_ 5)%num = false /\
    length (ti_labels ti) = 6%nat /\
    (scale_min (ti_scale ti) === n_ (-30))%num = true /\
    (scale_max (ti_scale ti) === n_ 120)%num = true /\
    (ti_step ti === n_ 30)%num = true.
Proof.
  destruct (getTickInfo decimalPlaces true false (n_ (-5)) (n_ 95) dim_1000x500
              opts_tickCount_5) as [ti|e] eqn:E.
  - exists ti. split; [reflexivity|].
    vm_compute in E. injection E as <-. repeat split.
  - vm_compute in E. discriminate E.
Qed.

(** ** C10 *)

(** C10.  Step normalization never decreases a step: for every step that is
    at least 0 (a finite number or [Infinity]) [_normalizeStep] returns, and
    what it returns is at least the step. *)
Theorem normalizeStep_never_decreases (upl : num -> nat) (step : num) :
  (n_ 0 <=? step)%num = true ->
  exists r, normalizeStep upl step = Ok r /\ (step <=? r)%num = true.
Proof.
  intros H. destruct step as [q| | |]; cbn in H; try discriminate.
  - unfold inject_Z in H. qprop.
    destruct (Qeq_dec q 0) as [Z|NZ].
    + exists (Fin q). split; [apply normalizeStep_zero; exact Z|].
      cbn. apply Qle_bool_iff. lra.
    + destruct (normalizeStep_pos upl q) as [r [E L]]; [lra|].
      exists (Fin r). split; [exact E|]. cbn. apply Qle_bool_iff. exact L.
  - exists PInf. split; [apply normalizeStep_PInf | reflexivity].
Qed.

Lemma normalizeStep_never_decreases_witness :
  (n_ 0 <=? Fin (4 # 10))%num = true /\
  exists r, normalizeStep decimalPlaces (Fin (4 # 10)) = Ok r /\
            (Fin (4 # 10) <=? r)%num = true.
Proof.
  split; [reflexivity|].
  apply (normalizeStep_never_decreases decimalPlaces (Fin (4 # 10))).
  reflexivity.
Defined.

(** * Further properties of the axis model *)

(** ** Formatting the labels *)

(** X3. Formatting keeps the number of labels, whatever the format
    functions are. *)
Theorem formatLabels_length (labels : list label)
  (formatFunctions : option (list (label -> label))) :
  length (formatLabels labels formatFunctions) = length labels.
Proof.
  destruct formatFunctions as [[|f fns]|]; cbn [formatLabels];
    try reflexivity.
  apply length_map.
Qed.

(** X4. Formatting with the functions [fs] and then with the functions
    [gs] is formatting with [fs ++ gs]: the functions are applied to each
    label in array order. *)
Theorem formatLabels_app (labels : list label) (fs gs : list (label -> label)) :
  formatLabels (formatLabels labels (Some fs)) (Some gs) =
  formatLabels labels (Some (fs ++ gs)).
Proof.
  destruct fs as [|f fs]; [reflexivity|].
  destruct gs as [|g gs]; [rewrite app_nil_r; reflexivity|].
  cbn [formatLabels app]. rewrite map_map.
  apply map_ext. intros l.
  change (f :: fs ++ g :: gs) with ((f :: fs) ++ g :: gs).
  rewrite fold_left_app. reflexivity.
Qed.

(** ** The constructor *)

(** The length of formatted value labels *)
Lemma length_formatLabels_LNum (labels : list num)
  (formatFunctions : option (list (label -> label))) :
  length (formatLabels (map LNum labels) formatFunctions) = length labels.
Proof.
  destruct formatFunctions as [[|f fns]|]; cbn [formatLabels];
    rewrite ?length_map; reflexivity.
Qed.

(** X5. Data that carries labels makes a label axis, whatever else it
    carries: the constructor returns, the values are not looked at, the
    tick count is one more than the number of labels and the valid tick
    count is 0. *)
Theorem init_labels_axis (upl : num -> nat) (CHART_TYPE_LINE : string)
  (isVertical : bool) (chartType : string) (labels : list string)
  (values : option (list (list num))) (dim : dimension)
  (formatFunctions : option (list (label -> label)))
  (options : option axisOptions) :
  exists this,
    init upl CHART_TYPE_LINE
         (Some (mkAxisData isVertical chartType (Some labels) values dim
                           formatFunctions)) options = Ok this /\
    isLabelAxis this = true /\ isValueAxis this = false /\
    this_labels this = map LStr labels /\
    this_tickCount this = (Num.of_nat (length labels) + n_ 1)%num /\
    this_scale this = None /\
    getValidTickCount this = n_ 0.
Proof.
  eexists. split; [reflexivity|]. repeat split.
Qed.

(** X6. On every axis the constructor returns, the tick count fits the
    labels: one more than the labels on a label axis, as many as the
    (formatted) labels on a value axis, which is also its valid tick count,
    and 5 with no label when no data was given. *)
Theorem init_tickCount_fits (upl : num -> nat) (CHART_TYPE_LINE : string)
  (data : option axisData) (options : option axisOptions) (this : axisModel) :
  init upl CHART_TYPE_LINE data options = Ok this -> tickCount_fits this.
Proof.
  unfold init. destruct data as [d|].
  - unfold _setData. destruct (data_labels d) as [ls|].
    + intros E. injection E as <-. left.
      cbn. rewrite length_map. repeat split.
    + destruct (data_values d) as [vs|].
      * unfold _setValueAxisData. cbn [this_isVertical this_chartType this_options].
        destruct (setValueAxisData _ _ _ _ _ _) as [ti|e] eqn:E; [|discriminate].
        cbn [bind]. intros E'. injection E' as <-. right. left.
        pose proof (setValueAxisData_counted _ _ _ _ _ _ _ E) as C.
        unfold labels_counted in C.
        cbn [isValueAxis isLabelAxis getValidTickCount this_axisType
             this_tickCount this_labels].
        rewrite length_formatLabels_LNum.
        repeat split; try exact C; reflexivity.
      * intros E. injection E as <-. right. right. repeat split.
    - intros E. injection E as <-. right. right. repeat split.
Qed.

Lemma init_tickCount_fits_witness :
  exists this,
    init decimalPlaces "line"
         (Some (mkAxisData true "bar" None
                  (Some [[n_ 1000; n_ 2000; n_ 3000; n_ 4000];
                         [n_ 5000; n_ 6000; n_ 7000; n_ 8000]])
                  dim_1000x500 None)) None = Ok this /\
    tickCount_fits this.
Proof.
  eexists. split; [vm_compute; reflexivity|].
  apply (init_tickCount_fits decimalPlaces "line"
           (Some (mkAxisData true "bar" None
                    (Some [[n_ 1000; n_ 2000; n_ 3000; n_ 4000];
                           [n_ 5000; n_ 6000; n_ 7000; n_ 8000]])
                    dim_1000x500 None)) None).
  vm_compute. reflexivity.
Defined.

(** ** Arithmetic sequences of [ne.util.range] *)

Lemma arith_seq_comp (s : Q) (l : list num) :
  forall a a', a == a' -> arith_seq a s l -> arith_seq a' s l.
Proof.
  induction l as [|x l IH]; intros a a' E H; [exact I|].
  destruct H as [[q [-> Hq]] H]. split.
  - exists q. split; [reflexivity|]. lra.
  - apply (IH (a + s) (a' + s)); [lra|exact H].
Qed.

(** The elements of an arithmetic sequence that starts at an integer and
    steps by 1 are integers. *)
Lemma arith_seq_whole (l : list num) :
  forall a (n : Z), a == inject_Z n -> arith_seq a 1 l -> Forall whole l.
Proof.
  induction l as [|x l IH]; intros a n E H; [constructor|].
  destruct H as [[q [-> Hq]] H]. constructor.
  - exists q, n. split; [reflexivity|]. lra.
  - apply (IH (a + 1) (n + 1)%Z); [|exact H].
    rewrite inject_Z_plus. change (inject_Z 1) with 1. lra.
Qed.

(** The elements of an arithmetic sequence with a positive difference
    are at least its start. *)
Lemma arith_seq_from (s : Q) (l : list num) :
  0 <= s -> forall a, arith_seq a s l -> Forall (finite_from a) l.
Proof.
  intros Hs. induction l as [|x l IH]; intros a H; [constructor|].
  destruct H as [[q [-> Hq]] H]. constructor.
  - exists q. split; [reflexivity|]. lra.
  - eapply Forall_impl; [|apply (IH _ H)].
    intros y [r [-> Hr]]. exists r. split; [reflexivity|]. lra.
Qed.

(** The loop of [range] with a positive step pushes [start],
    [start + step], ... as long as they are below [stop]. *)
Lemma range_loop_arith (fuel : nat) :
  forall a b s,
    0 < s -> (b - a) / s <= inject_Z (Z.of_nat fuel) ->
    exists l, range_loop fuel (n_ 1) (Fin a) (Fin b) (Fin s) = Ok l /\
              arith_seq a s l /\
              b <= a + s * inject_Z (Z.of_nat (length l)) /\
              (l <> [] -> a + s * (inject_Z (Z.of_nat (length l)) - 1) < b).
Proof.
  induction fuel as [|fuel IH]; intros a b s Hs Hf.
  - assert (Hba : b <= a).
    { change (inject_Z (Z.of_nat 0)) with 0 in Hf.
      assert (E : b - a == s * ((b - a) / s)) by (field; lra).
      nra. }
    exists []. cbn. unfold inject_Z.
    rewrite (Qle_bool_true_of b (a * 1)) by lra.
    split; [reflexivity|]. split; [exact I|]. split; [lra|]. congruence.
  - cbn [range_loop]. cbn [Num.mul Num.lt n_ Num.of_Z]. unfold inject_Z at 1.
    destruct (Qle_bool b (a * 1)) eqn:E; qprop; cbn [negb].
    + exists []. split; [reflexivity|]. split; [exact I|].
      split; [cbn [length Z.of_nat]; change (inject_Z 0) with 0; lra|]. congruence.
    + destruct (IH (a + s) b s Hs) as [l [El [Al [L1 L2]]]].
      { rewrite Nat2Z.inj_succ in Hf. unfold Z.succ in Hf.
        rewrite inject_Z_plus in Hf. change (inject_Z 1) with 1 in Hf.
        assert (E2 : (b - (a + s)) / s == (b - a) / s - 1) by (field; lra).
        rewrite E2. lra. }
      cbn [Num.add]. rewrite El. cbn [bind].
      exists (Fin a :: l). split; [reflexivity|]. split.
      * split; [exists a; split; [reflexivity|lra]|exact Al].
      * cbn [length]. rewrite Nat2Z.inj_succ. unfold Z.succ.
        rewrite inject_Z_plus. change (inject_Z 1) with 1.
        split; [lra|]. intros _.
        destruct l as [|y l'].
        -- cbn [length Z.of_nat]. change (inject_Z 0) with 0. lra.
        -- assert (N : y :: l' <> []) by congruence.
           specialize (L2 N). lra.
Qed.

(** The two-argument call [range(start, stop)] on finite numbers *)
Lemma range_None_arith (a b : Q) :
  exists l, range (Fin a) (Fin b) None = Ok l /\
            arith_seq a 1 l /\
            b <= a + inject_Z (Z.of_nat (length l)) /\
            (l <> [] -> a + inject_Z (Z.of_nat (length l)) - 1 < b).
Proof.
  unfold range. cbn [Num.lt n_ Num.of_Z Num.mul]. unfold inject_Z at 1 2.
  cbn [Qle_bool Qnum Qden Z.leb Z.mul Z.compare Pos.mul negb Pos.compare Z.pos_sub].
  change (n_ 1) with (Fin 1) in *.
  change (Num.of_Z 1) with (Fin 1).
  destruct (range_loop_arith (range_fuel (Fin 1) (Fin a) (Fin (b * inject_Z 1)) (Fin 1))
              a (b * inject_Z 1) 1) as [l [E [A [L1 L2]]]]; [lra | |].
  { apply (range_fuel_up a (b * inject_Z 1) 1). lra. }
  change (inject_Z 1) with 1 in *.
  exists l. split; [exact E|]. split; [exact A|].
  split; [lra|]. intros N. specialize (L2 N). lra.
Qed.

(** The call [range(start, stop, step)] with a positive finite step *)
Lemma range_Some_arith (a b s : Q) :
  0 < s ->
  exists l, range (Fin a) (Fin b) (Some (Fin s)) = Ok l /\
            arith_seq a s l /\
            b <= a + s * inject_Z (Z.of_nat (length l)) /\
            (l <> [] -> a + s * (inject_Z (Z.of_nat (length l)) - 1) < b).
Proof.
  intros Hs. unfold range. cbn [Num.truthy].
  rewrite (is_zero_false s) by lra. cbn [negb].
  cbn [Num.lt n_ Num.of_Z Num.mul].
  rewrite (Qle_bool_true_of (inject_Z 0) s) by (change (inject_Z 0) with 0; lra).
  cbn [negb Num.mul].
  destruct (range_loop_arith (range_fuel (Fin 1) (Fin a) (Fin (b * inject_Z 1)) (Fin s))
              a (b * inject_Z 1) s) as [l [E [A [L1 L2]]]]; [lra | |].
  { apply (range_fuel_up a (b * inject_Z 1) s). lra. }
  change (inject_Z 1) with 1 in *.
  exists l. split; [exact E|]. split; [exact A|].
  split; [lra|]. intros N. specialize (L2 N). lra.
Qed.

(** The [k]-th element of an arithmetic sequence *)
Lemma arith_seq_nth (s : Q) (l : list num) :
  forall a (k : nat), (k < length l)%nat -> arith_seq a s l ->
  exists q, nth k l NaN = Fin q /\ q == a + s * inject_Z (Z.of_nat k).
Proof.
  induction l as [|x l IH]; intros a k Hk H; [cbn in Hk; lia|].
  destruct H as [[q [-> Hq]] H]. destruct k as [|k].
  - exists q. split; [reflexivity|]. change (inject_Z (Z.of_nat 0)) with 0. lra.
  - cbn [length] in Hk. destruct (IH (a + s) k) as [r [E R]]; [lia|exact H|].
    exists r. split; [exact E|].
    rewrite Nat2Z.inj_succ. unfold Z.succ. rewrite inject_Z_plus.
    change (inject_Z 1) with 1. lra.
Qed.

(** The elements of an arithmetic sequence lie between its first and its
    last element. *)
Lemma arith_seq_bounds (a s : Q) (l : list num) (x : num) :
  0 <= s -> arith_seq a s l -> In x l ->
  exists q, x = Fin q /\ a <= q /\
            q <= a + s * (inject_Z (Z.of_nat (length l)) - 1).
Proof.
  intros Hs A Hin.
  destruct (In_nth l x NaN Hin) as [k [Hk E]].
  destruct (arith_seq_nth s l a k Hk A) as [q [Eq Hq]].
  exists q. split; [congruence|].
  assert (K0 : 0 <= inject_Z (Z.of_nat k)).
  { change 0 with (inject_Z 0). rewrite <- Zle_Qle. lia. }
  assert (K1 : inject_Z (Z.of_nat k) <= inject_Z (Z.of_nat (length l)) - 1).
  { assert (H : (Z.of_nat k <= Z.of_nat (length l) + (-1))%Z) by lia.
    rewrite Zle_Qle, inject_Z_plus in H. change (inject_Z (-1)) with (-1 # 1) in H.
    lra. }
  split; nra.
Qed.

(** ** The candidate tick counts, exactly *)

Lemma getCandidateTickCounts_arith (isVertical : bool) (dim : dimension) (b : Q) :
  getBaseSize isVertical dim = Fin b -> positional_length b ->
  exists l,
    getCandidateTickCounts isVertical dim = Ok l /\
    arith_seq (inject_Z (Qfloor (b / 60))) 1 l /\
    Z.of_nat (length l) = (Qfloor (b / 40) - Qfloor (b / 60) + 1)%Z.
Proof.
  intros Hb Hpl. destruct (positional_length_quotients b Hpl) as [Hpos [P60 P40]].
  unfold getCandidateTickCounts. rewrite Hb.
  unfold MAX_PIXEL_STEP_SIZE, MIN_PIXEL_STEP_SIZE.
  cbn [Num.div n_ Num.of_Z Num.add].
  change (Num.is_zero (inject_Z 60)) with false.
  change (Num.is_zero (inject_Z 40)) with false.
  cbn iota. change (inject_Z 60) with 60. change (inject_Z 40) with 40.
  rewrite (parseInt_positional _ P60), (parseInt_positional _ P40).
  cbn [Num.of_Z Num.add].
  change (inject_Z 1) with 1.
  assert (H60 : 0 <= b / 60) by (apply Qle_shift_div_l; lra).
  assert (H40 : 0 <= b / 40) by (apply Qle_shift_div_l; lra).
  rewrite <- (Qfloor_trunc _ H60), <- (Qfloor_trunc _ H40).
  assert (H : (Qfloor (b / 60) <= Qfloor (b / 40))%Z).
  { apply Qfloor_resp_le. apply Qle_shift_div_l; [lra|].
    assert (E' : b / 60 * 40 == b * (2 # 3)) by field.
    rewrite E'. lra. }
  destruct (range_None_arith (inject_Z (Qfloor (b / 60)))
              (inject_Z (Qfloor (b / 40)) + 1)) as [l [E [A [L1 L2]]]].
  exists l. split; [exact E|]. split; [exact A|].
  assert (N : l <> []).
  { intros ->. cbn [length Z.of_nat] in L1. change (inject_Z 0) with 0 in L1.
    rewrite Zle_Qle in H. lra. }
  specialize (L2 N).
  set (n := Z.of_nat (length l)) in *.
  set (f40 := Qfloor (b / 40)) in *. set (f60 := Qfloor (b / 60)) in *.
  assert (G1 : (f40 + 1 <= f60 + n)%Z).
  { rewrite Zle_Qle, !inject_Z_plus. change (inject_Z 1) with 1. lra. }
  assert (G2 : (f60 + n + (-1) < f40 + 1)%Z).
  { rewrite Zlt_Qlt, !inject_Z_plus. change (inject_Z 1) with 1.
    change (inject_Z (-1)) with (-1 # 1). lra. }
  lia.
Qed.

(** X7. On a usable length of [b] pixels that is 0, or at least 0.0001,
    the candidate tick counts are the integers from [floor (b / 60)] to
    [floor (b / 40)], in increasing order; for each of them, [n] ticks 40
    pixels apart fit into [b] and [n + 1] ticks 60 pixels apart do not. *)
Theorem getCandidateTickCounts_exact (isVertical : bool) (dim : dimension) (b : Q) :
  getBaseSize isVertical dim = Fin b -> positional_length b ->
  exists l,
    getCandidateTickCounts isVertical dim = Ok l /\
    arith_seq (inject_Z (Qfloor (b / 60))) 1 l /\
    Z.of_nat (length l) = (Qfloor (b / 40) - Qfloor (b / 60) + 1)%Z /\
    Forall whole l /\ Forall (in_pixel_band b) l.
Proof.
  intros Hb Hpl. destruct (positional_length_quotients b Hpl) as [Hpos _].
  destruct (getCandidateTickCounts_arith isVertical dim b Hb Hpl) as [l [E [A L]]].
  exists l. split; [exact E|]. split; [exact A|]. split; [exact L|]. split.
  - apply (arith_seq_whole l (inject_Z (Qfloor (b / 60))) (Qfloor (b / 60)));
      [reflexivity|exact A].
  - apply Forall_forall. intros x Hx.
    destruct (arith_seq_bounds _ 1 l x ltac:(lra) A Hx) as [q [-> [Q1 Q2]]].
    exists q. split; [reflexivity|].
    assert (E1 : inject_Z (Z.of_nat (length l)) ==
                 inject_Z (Qfloor (b / 40)) - inject_Z (Qfloor (b / 60)) + 1).
    { rewrite L. unfold Z.sub. rewrite !inject_Z_plus, inject_Z_opp.
      change (inject_Z 1) with 1. lra. }
    pose proof (Qfloor_le (b / 40)) as F40.
    pose proof (Qlt_floor (b / 60)) as F60.
    rewrite inject_Z_plus in F60. change (inject_Z 1) with 1 in F60.
    assert (D40 : b == 40 * (b / 40)) by field.
    assert (D60 : b == 60 * (b / 60)) by field.
    split; lra.
Qed.

Lemma getCandidateTickCounts_exact_witness :
  exists l,
    getCandidateTickCounts true dim_1000x500 = Ok l /\
    arith_seq (inject_Z (Qfloor (420 / 60))) 1 l /\
    Z.of_nat (length l) = (Qfloor (420 / 40) - Qfloor (420 / 60) + 1)%Z /\
    Forall whole l /\ Forall (in_pixel_band 420) l.
Proof.
  apply (getCandidateTickCounts_exact true dim_1000x500 420).
  - reflexivity.
  - right. lra.
Defined.

(** ** Strict containment and the grid of the step *)

Section Fine.
Variable upl : num -> nat.

Lemma makeTickInfo_align_fine (isLineChart : bool) (t : Q) (n : Z)
  (lo0 hi0 s ua ub : Q) (opts : options) :
  opt_min opts = None -> opt_max opts = None ->
  0 < s -> t == inject_Z n -> lo0 <= ua -> ub <= hi0 ->
  fine_scale isLineChart ua ub s
    (makeTickInfo_align upl isLineChart (Fin t) (mkScale (Fin lo0) (Fin hi0))
                        (Fin s) (Fin ua) (Fin ub) opts).
Proof.
  intros Hmin Hmax Hs Ht Hlo Hhi. unfold makeTickInfo_align.
  rewrite Hmin, Hmax. cbn [scale_min scale_max isUndefined].
  destruct (normalizeMin_fin upl lo0 s Hs) as [r [-> [R1 [R2 [[k R3] R4]]]]].
  destruct (findMultipleNum_fin upl [Fin s]) as [mm [-> Hmm]].
  cbn [Num.mul Num.add Num.sub Num.neg Num.div n_ Num.of_Z].
  rewrite (is_zero_false mm) by lra.
  set (X := (r * mm + s * mm * (t + - inject_Z 1)) / mm).
  assert (HX : X == s * inject_Z (k + n + (-1))).
  { rewrite !inject_Z_plus. change (inject_Z (-1)) with (-1 # 1).
    unfold X. zconst. rewrite <- Ht.
    assert (E : (r * mm + s * mm * (t + - 1)) / mm == r + s * (t - 1)) by (field; lra).
    rewrite E. lra. }
  cbn [Num.add Num.neg Num.gt Num.lt n_ Num.of_Z Num.rem Num.floor Num.div].
  rewrite (is_zero_false s) by lra.
  cbn [Num.gt Num.lt Num.floor Num.of_Z Num.add Num.mul n_].
  set (smax2 := if negb (Qle_bool (hi0 + - X) (inject_Z 0)) then _ else Fin X).
  assert (H2 : exists x2 (j2 : Z),
             smax2 = Fin x2 /\ hi0 <= x2 /\ x2 == s * inject_Z j2).
  { unfold smax2. zconst.
    destruct (Qle_bool (hi0 + - X) 0) eqn:Ed; qprop; cbn [negb].
    - exists X, (k + n + (-1))%Z. split; [reflexivity|]. split; [lra|exact HX].
    - pose proof (extend_covers (hi0 + - X) s Ed Hs) as C.
      destruct (Qle_bool (Num.Qrem (hi0 + - X) s) 0) eqn:Er; cbn [negb Num.mul Num.add].
      + eexists. exists (k + n + (-1) + Qfloor ((hi0 + - X) / s))%Z.
        split; [reflexivity|]. rewrite inject_Z_plus. split; nra.
      + eexists. exists (k + n + (-1) + (Qfloor ((hi0 + - X) / s) + 1))%Z.
        split; [reflexivity|]. rewrite inject_Z_plus, (inject_Z_plus _ 1). zconst.
        split; nra. }
  destruct H2 as [x2 [j2 [E2 [X1 X2]]]]. rewrite E2. clearbody X. clear smax2 E2.
  cbn [Num.eq andb Num.add]. zconst.
  assert (Hmin3 : exists r3 (i : Z),
            (if (isLineChart || negb (Qle_bool ua 0)) && true && Qeq_bool r ua
             then Fin (r + - s) else Fin r) = Fin r3 /\
            r3 <= ua /\ (isLineChart = true \/ 0 < ua -> r3 < ua) /\
            r3 == s * inject_Z i).
  { destruct (Qeq_bool r ua) eqn:Er; qprop.
    - destruct isLineChart; destruct (Qle_bool ua 0) eqn:Eu; qprop;
        cbn [orb negb andb];
        try (exists (r + - s), (k + (-1))%Z; split; [reflexivity|];
             rewrite inject_Z_plus; change (inject_Z (-1)) with (-1 # 1);
             repeat split; try intros; lra).
      exists r, k. split; [reflexivity|].
      repeat split; try lra.
    - rewrite andb_false_r. exists r, k. split; [reflexivity|].
      repeat split; try intros; lra. }
  destruct Hmin3 as [r3 [i [-> [M1 [M2 M3]]]]].
  assert (Hmax3 : exists x3 (j : Z),
            (if Qeq_bool x2 ub then Fin (x2 + s) else Fin x2) = Fin x3 /\
            ub < x3 /\ x3 == s * inject_Z j).
  { destruct (Qeq_bool x2 ub) eqn:Ex; qprop.
    - exists (x2 + s), (j2 + 1)%Z. split; [reflexivity|].
      rewrite inject_Z_plus. zconst. split; lra.
    - exists x2, j2. split; [reflexivity|]. split; lra. }
  destruct Hmax3 as [x3 [j [-> [N1 N2]]]].
  exists r3, x3, i, j. repeat split; assumption.
Qed.

(** Tightening under an invariant [P] of the scale that every turn of the
    loop preserves; the tick indexes are the integers from 1. *)
Lemma minimizeTickScale_inv_whole (P : scale -> Prop) (userMin userMax : num)
  (lo hi s t : Q) (opts : options) :
  0 <= s ->
  P (mkScale (Fin lo) (Fin hi)) ->
  (forall k (m : Z) sc, k == inject_Z m -> 1 <= k -> P sc ->
     P (fst (minimizeTickScale_each userMin userMax (Fin s) (Fin lo) (Fin hi)
               opts (Fin k) sc))) ->
  (forall sc, P sc -> exists l h, sc = mkScale (Fin l) (Fin h)) ->
  exists ti,
    minimizeTickScale upl userMin userMax
      (mkTickInfo (mkScale (Fin lo) (Fin hi)) (Fin s) (Fin t) []) opts = Ok ti /\
    P (ti_scale ti) /\ ti_step ti = Fin s.
Proof.
  intros Hs P0 Pstep Pfin. unfold minimizeTickScale.
  cbn [ti_tickCount ti_step ti_scale scale_min scale_max].
  change (n_ 1) with (Fin 1).
  destruct (range_None_arith 1 t) as [ticks [-> [A _]]]. cbn [bind].
  pose proof (arith_seq_whole ticks 1 1 ltac:(reflexivity) A) as W.
  pose proof (arith_seq_from 1 ticks ltac:(lra) 1 A) as F.
  set (sc := forEachArray ticks _ _).
  assert (Psc : P sc).
  { unfold sc. apply forEachArray_inv; [exact P0|].
    intros a sc0 Ha Hsc0. rewrite Forall_forall in F, W.
    destruct (F a Ha) as [k [-> Hk]].
    destruct (W _ Ha) as [k' [m [E Hm]]]. injection E as <-.
    apply (Pstep k m); assumption. }
  destruct (Pfin sc Psc) as [l [h E]]. rewrite E in *.
  destruct (makeLabelsFromScale_fin upl l h s Hs) as [labels ->]. cbn [bind].
  eexists. split; [reflexivity|]. split; [exact Psc|reflexivity].
Qed.

Lemma minimizeTickScale_each_fine (isLineChart : bool) (ua ub s lo hi k : Q)
  (m i0 j0 : Z) (opts : options) (sc : scale) :
  opt_min opts = None -> opt_max opts = None ->
  k == inject_Z m -> lo == s * inject_Z i0 -> hi == s * inject_Z j0 ->
  fine_scale isLineChart ua ub s sc ->
  fine_scale isLineChart ua ub s
    (fst (minimizeTickScale_each (Fin ua) (Fin ub) (Fin s) (Fin lo) (Fin hi)
            opts (Fin k) sc)).
Proof.
  intros Hmin Hmax Hk Hlo Hhi [l [h [i [j [-> [L [H [S [Gl Gh]]]]]]]]].
  unfold minimizeTickScale_each. rewrite Hmin, Hmax.
  cbn [isUndefined negb andb orb Num.mul Num.add Num.sub Num.neg
       Num.le Num.ge Num.gt Num.lt scale_min scale_max].
  rewrite !orb_false_r.
  assert (Cl : lo + s * k == s * inject_Z (i0 + m)).
  { rewrite inject_Z_plus, Hk, Hlo. ring. }
  assert (Ch : hi + - (s * k) == s * inject_Z (j0 + - m)).
  { rewrite inject_Z_plus, inject_Z_opp, Hk, Hhi. ring. }
  destruct (Qle_bool ua (lo + s * k) && Qle_bool (hi + - (s * k)) ub);
    cbn [fst]; [exists l, h, i, j; repeat split; assumption|].
  destruct (Qle_bool ua (lo + s * k)) eqn:E1;
    destruct (Qle_bool (hi + - (s * k)) ub) eqn:E2; qprop;
    cbn [negb scale_min scale_max].
  - exists l, h, i, j. repeat split; assumption.
  - exists l, (hi + - (s * k)), i, (j0 + - m)%Z. repeat split; try assumption; lra.
  - exists (lo + s * k), h, (i0 + m)%Z, j. repeat split; try assumption; try lra.
  - exists (lo + s * k), (hi + - (s * k)), (i0 + m)%Z, (j0 + - m)%Z.
    repeat split; try assumption; try lra.
Qed.

Lemma fine_scale_step (isLineChart : bool) (ua ub s s' : Q) (sc : scale) :
  s' == s \/ s' == s / 2 ->
  fine_scale isLineChart ua ub s sc -> fine_scale isLineChart ua ub s' sc.
Proof.
  intros Hs' [l [h [i [j [-> [L [H [S [Gl Gh]]]]]]]]].
  destruct Hs' as [E|E].
  - exists l, h, i, j. rewrite E. repeat split; assumption.
  - exists l, h, (2 * i)%Z, (2 * j)%Z. rewrite E, !inject_Z_mult. zconst.
    repeat split; try assumption.
    + rewrite Gl. field.
    + rewrite Gh. field.
Qed.

Lemma makeTickInfo_fine (isLineChart : bool) (t : Q) (n : Z) (a b ua ub : Q)
  (isMinus : bool) (opts : options) (lo0 hi0 : Q) :
  opt_min opts = None -> opt_max opts = None -> t == inject_Z n -> 1 < t ->
  makeTickInfo_scale (Fin a) (Fin b) isMinus opts = mkScale (Fin lo0) (Fin hi0) ->
  lo0 < hi0 -> lo0 <= ua -> ub <= hi0 ->
  exists ti,
    makeTickInfo upl isLineChart (Fin t) (Fin a) (Fin b) (Fin ua) (Fin ub)
                 isMinus opts = Ok ti /\
    fine_candidate isLineChart ua ub ti.
Proof.
  intros Hmin Hmax Hn Ht Hsc Hlt Hlo Hhi.
  unfold makeTickInfo. rewrite Hsc.
  rewrite getScaleStep_fin by lra.
  assert (Htmp : 0 < (hi0 - lo0) / (t - 1)).
  { apply Qlt_shift_div_l; lra. }
  destruct (normalizeStep_pos upl _ Htmp) as [s [-> Hs]]. cbn [bind].
  assert (Hs0 : 0 < s) by lra.
  pose proof (makeTickInfo_align_fine isLineChart t n lo0 hi0 s ua ub opts
                Hmin Hmax Hs0 Hn Hlo Hhi) as A.
  destruct A as [r3 [x3 [i [j [EA [A1 [A2 [A3 [A4 A5]]]]]]]]].
  rewrite EA.
  destruct (minimizeTickScale_inv_whole (fine_scale isLineChart ua ub s)
              (Fin ua) (Fin ub) r3 x3 s t opts)
    as [ti1 [-> [P1 S1]]].
  - lra.
  - exists r3, x3, i, j. repeat split; assumption.
  - intros k m sc Hk _ Hsc'.
    apply (minimizeTickScale_each_fine isLineChart ua ub s r3 x3 k m i j);
      assumption.
  - intros sc [l [h [i' [j' [-> _]]]]]. exists l, h. reflexivity.
  - cbn [bind]. destruct ti1 as [sc1 st1 tc1 lb1]. cbn [ti_scale ti_step] in *.
    subst st1. destruct P1 as [l [h [i' [j' [-> P1]]]]].
    destruct (divideTickStep_fin upl l h s tc1 lb1 (Fin t))
      as [ti [s' [-> [E1 [E2 E3]]]]]; [lra|].
    exists ti. split; [reflexivity|]. exists s'. split; [exact E2|]. split.
    + destruct E3 as [E3|E3]; rewrite E3; [lra|].
      apply Qlt_shift_div_l; lra.
    + rewrite E1. apply (fine_scale_step isLineChart ua ub s s'); [exact E3|].
      exists l, h, i', j'. split; [reflexivity|exact P1].
Qed.

Lemma getTickInfoCandidates_fine (isLineChart : bool) (ua ub : Q)
  (tickCounts : list num) (opts : options) :
  opt_min opts = None -> opt_max opts = None -> ua < ub ->
  Forall whole_above_1 tickCounts ->
  exists candidates,
    getTickInfoCandidates upl isLineChart (Fin ua) (Fin ub) tickCounts opts
      = Ok candidates /\
    length candidates = length tickCounts /\
    Forall (fine_candidate isLineChart ua ub) candidates.
Proof.
  intros Hmin Hmax Hlt Htc. rewrite Forall_forall in Htc.
  unfold getTickInfoCandidates.
  destruct ((Fin ua <? n_ 0)%num && (Fin ub <=? n_ 0)%num).
  - cbn [Num.neg].
    destruct (makeTickInfo_scale_none (- ub) (- ua) opts Hmin Hmax)
      as [_ [lo [hi [E [H1 [H2 [H3 _]]]]]]]; [lra|].
    assert (Hall : forall tc, In tc tickCounts ->
              exists ti, makeTickInfo upl isLineChart tc (Fin (- ub)) (Fin (- ua))
                           (Fin ua) (Fin ub) true opts = Ok ti /\
                         fine_candidate isLineChart ua ub ti).
    { intros tc Hin. destruct (Htc tc Hin) as [t [n [-> [Hn Ht]]]].
      apply (makeTickInfo_fine isLineChart t n (- ub) (- ua) ua ub true opts lo hi);
        try assumption; lra. }
    destruct (mapM_Ok (fun tc => makeTickInfo upl isLineChart tc (Fin (- ub)) (Fin (- ua))
                                   (Fin ua) (Fin ub) true opts) tickCounts)
      as [cs [Ec Len]].
    { intros tc Hin. destruct (Hall tc Hin) as [ti [Ei _]]. exists ti. exact Ei. }
    exists cs. split; [exact Ec|]. split; [exact Len|].
    apply Forall_forall. intros ti Hti.
    destruct (mapM_In _ _ _ Ec ti Hti) as [tc [Hin Ei]].
    destruct (Hall tc Hin) as [ti' [Ei' G]]. congruence.
  - destruct (makeTickInfo_scale_none ua ub opts Hmin Hmax)
      as [[lo [hi [E [H1 [H2 [H3 _]]]]]] _]; [lra|].
    assert (Hall : forall tc, In tc tickCounts ->
              exists ti, makeTickInfo upl isLineChart tc (Fin ua) (Fin ub)
                           (Fin ua) (Fin ub) false opts = Ok ti /\
                         fine_candidate isLineChart ua ub ti).
    { intros tc Hin. destruct (Htc tc Hin) as [t [n [-> [Hn Ht]]]].
      apply (makeTickInfo_fine isLineChart t n ua ub ua ub false opts lo hi);
        try assumption; lra. }
    destruct (mapM_Ok (fun tc => makeTickInfo upl isLineChart tc (Fin ua) (Fin ub)
                                   (Fin ua) (Fin ub) false opts) tickCounts)
      as [cs [Ec Len]].
    { intros tc Hin. destruct (Hall tc Hin) as [ti [Ei _]]. exists ti. exact Ei. }
    exists cs. split; [exact Ec|]. split; [exact Len|].
    apply Forall_forall. intros ti Hti.
    destruct (mapM_In _ _ _ Ec ti Hti) as [tc [Hin Ei]].
    destruct (Hall tc Hin) as [ti' [Ei' G]]. congruence.
Qed.

Lemma makeOriginalTypeTickInfo_fine (isLineChart : bool) (ua ub mm : Q)
  (ti : tickInfo) :
  1 <= mm ->
  fine_candidate isLineChart (ua * mm) (ub * mm) ti ->
  fine_candidate isLineChart ua ub (makeOriginalTypeTickInfo upl ti (Fin mm)).
Proof.
  intros Hmm [st [Est [Hst [l [h [i [j [E [L [H [S [Gl Gh]]]]]]]]]]]].
  unfold makeOriginalTypeTickInfo.
  cbn [Num.eq n_ Num.of_Z]. zconst.
  destruct (Qeq_bool mm 1) eqn:E1; qprop.
  - exists st. split; [exact Est|]. split; [exact Hst|].
    exists l, h, i, j. split; [exact E|].
    repeat split; try assumption; try nra.
    intros C. assert (C' : isLineChart = true \/ 0 < ua * mm).
    { destruct C as [C|C]; [left; exact C|right; nra]. }
    specialize (S C'). nra.
  - rewrite E, Est. cbn [ti_scale ti_step scale_min scale_max].
    destruct (division_fin upl l mm) as [l' [-> Hl']]; [lra|].
    destruct (division_fin upl h mm) as [h' [-> Hh']]; [lra|].
    destruct (division_fin upl st mm) as [st' [-> Hst']]; [lra|].
    exists st'. split; [reflexivity|]. split.
    { rewrite Hst'. apply Qlt_shift_div_l; lra. }
    exists l', h', i, j. split; [reflexivity|].
    repeat split.
    + rewrite Hl'. apply Qle_shift_div_r; lra.
    + rewrite Hh'. apply Qlt_shift_div_l; lra.
    + intros C. assert (C' : isLineChart = true \/ 0 < ua * mm).
      { destruct C as [C|C]; [left; exact C|right; nra]. }
      specialize (S C'). rewrite Hl'. apply Qlt_shift_div_r; lra.
    + rewrite Hl', Hst', Gl. field. lra.
    + rewrite Hh', Hst', Gh. field. lra.
Qed.

Lemma getTickInfo_fine (isVertical isLineChart : bool) (ua ub : Q)
  (dim : dimension) (opts : options) (tc : num) (tcs : list num) :
  opt_min opts = None -> opt_max opts = None -> ua < ub ->
  getTickInfo_tickCounts isVertical dim opts = Ok (tc :: tcs) ->
  Forall whole_above_1 (tc :: tcs) ->
  exists ti,
    getTickInfo upl isVertical isLineChart (Fin ua) (Fin ub) dim opts = Ok ti /\
    fine_candidate isLineChart ua ub ti.
Proof.
  intros Hmin Hmax Hlt Htcs Hall. unfold getTickInfo. rewrite Htcs. cbn [bind].
  unfold makeIntegerTypeInfo.
  destruct ((Num.abs (Fin ua) >=? n_ 1)%num || (Num.abs (Fin ub) >=? n_ 1)%num).
  - cbn [iti_min iti_max iti_options iti_divideNum].
    destruct (getTickInfoCandidates_fine isLineChart ua ub (tc :: tcs) opts)
      as [cs [-> [Len G]]]; try assumption.
    cbn [bind].
    destruct (selectTickInfo_Ok upl (Fin ua) (Fin ub) cs) as [ti [-> Hin]].
    { destruct cs; [discriminate Len|discriminate]. }
    cbn [bind]. eexists. split; [reflexivity|].
    rewrite Forall_forall in G.
    unfold makeOriginalTypeTickInfo. change (n_ 1 === n_ 1)%num with true.
    apply G. exact Hin.
  - destruct (findMultipleNum_fin upl [Fin ua; Fin ub]) as [mm [-> Hmm]].
    rewrite Hmin, Hmax.
    cbn [iti_min iti_max iti_options iti_divideNum Num.mul].
    destruct (getTickInfoCandidates_fine isLineChart (ua * mm) (ub * mm)
                (tc :: tcs) (mkOptions None None None))
      as [cs [-> [Len G]]]; try reflexivity; try assumption; [nra|].
    cbn [bind].
    destruct (selectTickInfo_Ok upl (Fin (ua * mm)) (Fin (ub * mm)) cs) as [ti [-> Hin]].
    { destruct cs; [discriminate Len|discriminate]. }
    cbn [bind]. eexists. split; [reflexivity|].
    rewrite Forall_forall in G.
    apply makeOriginalTypeTickInfo_fine; [assumption|]. apply G. exact Hin.
Qed.

End Fine.

(** The candidate tick counts of a usable length of at least 120 pixels
    are integers above 1. *)
Lemma getCandidateTickCounts_whole_above_1 (isVertical : bool) (dim : dimension)
  (b : Q) :
  getBaseSize isVertical dim = Fin b -> 120 <= b ->
  exists tc tcs,
    getCandidateTickCounts isVertical dim = Ok (tc :: tcs) /\
    Forall whole_above_1 (tc :: tcs).
Proof.
  intros Hb H120.
  destruct (getCandidateTickCounts_above_1 isVertical dim b Hb H120)
    as [tc [tcs [E F]]].
  destruct (getCandidateTickCounts_arith isVertical dim b Hb ltac:(right; lra))
    as [l [E' [A _]]].
  rewrite E in E'. injection E' as <-.
  pose proof (arith_seq_whole _ _ (Qfloor (b / 60)) ltac:(reflexivity) A) as W.
  exists tc, tcs. split; [exact E|].
  rewrite Forall_forall in *. intros x Hx.
  destruct (F x Hx) as [t [-> Ht]].
  destruct (W _ Hx) as [t' [n [Et Hn]]]. injection Et as <-.
  exists t, n. repeat split; assumption.
Qed.

(** On values that are not all equal, with no option and a usable length
    of at least 120 pixels, the tick info of the axis is fine for the range
    of the values. *)
Lemma setValueAxisData_fine (upl : num -> nat)
  (isVertical isLineChart : bool) (groupValues : list (list Q))
  (dim : dimension) (b : Q) :
  getBaseSize isVertical dim = Fin b -> 120 <= b ->
  (exists v w, In v (concat groupValues) /\ In w (concat groupValues) /\ v < w) ->
  exists ti ua ub,
    setValueAxisData upl isVertical isLineChart (map (map Fin) groupValues)
                     dim no_options = Ok ti /\
    fine_candidate isLineChart ua ub ti /\
    (forall v, In v (concat groupValues) -> ua <= v /\ v <= ub) /\
    In ua (concat groupValues).
Proof.
  intros Hb H120 [v [w [Hv [Hw Hvw]]]].
  unfold setValueAxisData. rewrite concat_map_Fin.
  destruct (util_min_max_fin (concat groupValues)) as [ua [ub [-> [-> [Hall [Ia _]]]]]].
  { intros E. rewrite E in Hv. destruct Hv. }
  destruct (getCandidateTickCounts_whole_above_1 isVertical dim b Hb H120)
    as [tc [tcs [Etc Ftc]]].
  destruct (getTickInfo_fine upl isVertical isLineChart ua ub dim no_options tc tcs)
    as [ti [E G]]; try reflexivity; try assumption.
  - destruct (Hall v Hv), (Hall w Hw). lra.
  - exists ti, ua, ub. repeat split; try assumption; apply Hall; assumption.
Qed.



(** ** The normalized step *)

(** Rounding a positive number below [s] up to a multiple of [s] gives
    [s]. *)
Lemma roundUp_single (q s : Q) : 0 < q -> q < s -> roundUp q s == s.
Proof.
  intros Hq Hs.
  destruct (roundUp_spec q s) as [A [B [k E]]]; [lra|lra|].
  assert (K1 : (0 < k)%Z).
  { rewrite Zlt_Qlt. change (inject_Z 0) with 0. nra. }
  assert (K2 : (k < 2)%Z).
  { rewrite Zlt_Qlt. change (inject_Z 2) with 2. nra. }
  assert (K : k = 1%Z) by lia. subst k.
  change (inject_Z 1) with 1 in E. lra.
Qed.

Section StepBounds.
Variable upl : num -> nat.

Lemma normalizeStep_rec_decade (fuel : nat) (q : Q) :
  1 <= q -> q < 10 ->
  exists r, normalizeStep_rec upl fuel (Fin q) = Ok (Fin r) /\
            (q < 2 -> r == 2) /\ (2 <= q -> q < 5 -> r == 5) /\
            (5 <= q -> r == 10).
Proof.
  intros H1 H10.
  assert (C : q < 2 \/ (2 <= q /\ q < 5) \/ 5 <= q) by lra.
  destruct C as [C|[[C1 C2]|C]].
  - destruct (normalizeStep_rec_standard upl fuel q 2) as [r [E Hr]];
      [lra | apply standard_1_2; lra | lra |].
    exists r. split; [exact E|].
    pose proof (roundUp_single q 2 ltac:(lra) ltac:(lra)).
    repeat split; intros; lra.
  - destruct (normalizeStep_rec_standard upl fuel q 5) as [r [E Hr]];
      [lra | apply standard_2_5; lra | lra |].
    exists r. split; [exact E|].
    pose proof (roundUp_single q 5 ltac:(lra) ltac:(lra)).
    repeat split; intros; lra.
  - destruct (normalizeStep_rec_standard upl fuel q 10) as [r [E Hr]];
      [lra | apply standard_ge5; lra | lra |].
    exists r. split; [exact E|].
    pose proof (roundUp_single q 10 ltac:(lra) ltac:(lra)).
    repeat split; intros; lra.
Qed.

Lemma normalizeStep_rec_ratio (fuel : nat) :
  forall q, 0 < q -> 1 <= q * inject_Z (10 ^ Z.of_nat fuel) ->
  exists r, normalizeStep_rec upl fuel (Fin q) = Ok (Fin r) /\
            q <= r /\ r <= (5 # 2) * q.
Proof.
  assert (G : forall fuel q, 1 <= q ->
            exists r, normalizeStep_rec upl fuel (Fin q) = Ok (Fin r) /\
                      q <= r /\ r <= (5 # 2) * q).
  { intros f q H1. destruct (Qlt_le_dec q 10) as [L|L].
    - destruct (normalizeStep_rec_decade f q H1 L) as [r [E [A [B C]]]].
      exists r. split; [exact E|].
      assert (D : q < 2 \/ (2 <= q /\ q < 5) \/ 5 <= q) by lra.
      destruct D as [D|[[D1 D2]|D]].
      + specialize (A D). lra.
      + specialize (B D1 D2). lra.
      + specialize (C D). lra.
    - destruct (normalizeStep_rec_ge1 upl f q H1) as [r [E [A B]]].
      exists r. split; [exact E|]. lra. }
  induction fuel as [|fuel IH]; intros q Hq Hf.
  - change (inject_Z (10 ^ Z.of_nat 0)) with 1 in Hf. apply G. lra.
  - destruct (Qlt_le_dec q 1) as [L|L]; [|apply G; exact L].
    rewrite normalizeStep_rec_lt1 by lra.
    destruct (IH (q * 10)) as [r [E [A B]]]; [lra| |].
    + rewrite Nat2Z.inj_succ, Z.pow_succ_r in Hf by lia.
      rewrite inject_Z_mult in Hf. change (inject_Z 10) with 10 in Hf. lra.
    + rewrite E. cbn. eexists. split; [reflexivity|]. lra.
Qed.

End StepBounds.

(** X10. A positive step is normalized to a step that is at least as
    large and, up to the tolerance on the step, at most two and a half
    times as large. *)
Theorem normalizeStep_at_most_5_2 (upl : num -> nat) (q : Q) :
  0 < q ->
  exists r, normalizeStep upl (Fin q) = Ok (Fin r) /\ q <= r /\
            le_upto q r ((5 # 2) * q).
Proof.
  intros Hq. unfold normalizeStep.
  destruct (normalizeStep_rec_ratio upl (normalizeStep_fuel (Fin q)) q Hq)
    as [r [E [L U]]].
  { apply normalizeStep_fuel_enough. exact Hq. }
  exists r. split; [exact E|]. split; [exact L|].
  apply le_upto_of_le; lra.
Qed.

Lemma normalizeStep_at_most_5_2_witness :
  exists r, normalizeStep decimalPlaces (Fin (3 # 100)) = Ok (Fin r) /\
            (3 # 100) <= r /\ le_upto (3 # 100) r ((5 # 2) * (3 # 100)).
Proof.
  apply (normalizeStep_at_most_5_2 decimalPlaces (3 # 100)). reflexivity.
Defined.

(** X11. A step from 1 up to 10 is normalized to 2, 5 or 10: to 2 below
    2, to 5 from 2 up to 5, to 10 from 5 on. *)
Theorem normalizeStep_decade (upl : num -> nat) (q : Q) :
  1 <= q -> q < 10 ->
  exists r, normalizeStep upl (Fin q) = Ok (Fin r) /\
            (q < 2 -> r == 2) /\ (2 <= q -> q < 5 -> r == 5) /\
            (5 <= q -> r == 10).
Proof.
  intros H1 H10. apply normalizeStep_rec_decade; assumption.
Qed.

Lemma normalizeStep_decade_witness :
  exists r, normalizeStep decimalPlaces (Fin (9 # 2)) = Ok (Fin r) /\
            ((9 # 2) < 2 -> r == 2) /\ (2 <= (9 # 2) -> (9 # 2) < 5 -> r == 5) /\
            (5 <= (9 # 2) -> r == 10).
Proof.
  apply (normalizeStep_decade decimalPlaces (9 # 2)).
  - discriminate.
  - reflexivity.
Defined.

(** X12. On a negative step, finite or infinite, the recursion of
    [_normalizeStep] never reaches a base case: whatever depth it is
    allowed, the call ends in a stack overflow. *)
Theorem normalizeStep_negative_diverges (upl : num -> nat) (fuel : nat)
  (step : num) :
  (step <? n_ 0)%num = true ->
  normalizeStep_rec upl fuel step = Err RangeError.
Proof.
  intros H. destruct step as [q| | |]; cbn in H; try discriminate.
  - apply normalizeStep_rec_neg. unfold inject_Z in H. qprop. exact H.
  - apply normalizeStep_rec_NInf.
Qed.

Lemma normalizeStep_negative_diverges_witness :
  normalizeStep_rec decimalPlaces 1000 (Fin (- (5 # 2))) = Err RangeError.
Proof.
  apply (normalizeStep_negative_diverges decimalPlaces 1000 (Fin (- (5 # 2)))).
  reflexivity.
Defined.

(** ** The padded scale *)

(** In the exact model the maximum is [b + (b - a) / 20]. *)
Lemma calculateScale_exact (a b : Q) :
  a <= b ->
  exists lo hi,
    calculateScale (Fin a) (Fin b) = mkScale (Fin lo) (Fin hi) /\
    hi == b + (b - a) / 20 /\
    (a < 0 -> lo == a) /\
    (0 <= a -> 0 <= lo /\ lo <= a) /\
    (0 <= a -> 6 * a < b -> lo == 0).
Proof.
  intros Hab. unfold calculateScale.
  cbn [Num.lt n_ Num.of_Z]. zconst.
  destruct (Qle_bool 0 a) eqn:Ea; qprop; cbn [negb].
  - cbn [Num.sub Num.neg Num.add Num.div Num.gt Num.lt n_ Num.of_Z].
    change (Num.is_zero (inject_Z 20)) with false.
    change (Num.is_zero (inject_Z 6)) with false.
    cbn [Num.add Num.lt]. zconst.
    assert (X : (b + - a) / 20 == (b - a) * (1 # 20)) by field.
    assert (X' : (b - a) / 20 == (b - a) * (1 # 20)) by field.
    assert (Y : b / 6 == b * (1 # 6)) by field.
    destruct (Qle_bool (b / 6) a) eqn:E6; qprop; cbn [negb];
      eexists; eexists; (split; [reflexivity|]);
      zconst; repeat split; try intros; lra.
  - cbn [Num.sub Num.neg Num.add Num.div Num.gt Num.lt n_ Num.of_Z].
    change (Num.is_zero (inject_Z 20)) with false.
    change (Num.is_zero (inject_Z 6)) with false.
    cbn [Num.add Num.lt]. zconst.
    assert (X : (b + - a + - 0) / 20 == (b - a) * (1 # 20)) by field.
    assert (X' : (b - a) / 20 == (b - a) * (1 # 20)) by field.
    assert (Y : (b + - a) / 6 == (b - a) * (1 # 6)) by field.
    destruct (Qle_bool ((b + - a) / 6) 0) eqn:E6; qprop; cbn [negb];
      eexists; eexists; (split; [reflexivity|]);
      zconst; repeat split; try intros; lra.
Qed.



(** ** The normalized minimum *)



(** ** The labels of a scale *)

Lemma arith_seq_div (m : Q) (l : list num) :
  ~ m == 0 ->
  forall a s, arith_seq (a * m) (s * m) l ->
  arith_seq a s (map (fun label => (label / Fin m)%num) l).
Proof.
  intros Hm. induction l as [|x l IH]; intros a s H; [exact I|].
  destruct H as [[q [-> Hq]] H]. cbn [map arith_seq Num.div].
  rewrite (is_zero_false m Hm). split.
  - exists (q / m). split; [reflexivity|]. rewrite Hq. field. exact Hm.
  - apply IH. apply (arith_seq_comp (s * m) l (a * m + s * m)); [ring|exact H].
Qed.

(** In the exact model, on a scale of [n] steps, for a step that its
    power of ten turns into a number that is at least 1. *)
Lemma makeLabelsFromScale_exact (upl : num -> nat) (lo hi s mm : Q) (n : nat) :
  0 < s -> findMultipleNum upl [Fin s] = Fin mm -> 1 <= s * mm ->
  hi == lo + s * inject_Z (Z.of_nat n) ->
  exists labels,
    makeLabelsFromScale upl (mkScale (Fin lo) (Fin hi)) (Fin s) = Ok labels /\
    length labels = S n /\ arith_seq lo s labels.
Proof.
  intros Hs Emm Hsm Hhi. unfold makeLabelsFromScale. cbn [scale_min scale_max].
  destruct (findMultipleNum_fin upl [Fin s]) as [mm' [Emm' Hmm]].
  rewrite Emm in Emm'. injection Emm' as <-. rewrite Emm.
  cbn [Num.mul Num.add n_ Num.of_Z]. zconst.
  destruct (range_Some_arith (lo * mm) (hi * mm + 1) (s * mm))
    as [l [-> [A [L1 L2]]]]; [nra|].
  cbn [bind]. eexists. split; [reflexivity|]. split.
  - rewrite length_map.
    assert (N : l <> []).
    { intros ->. cbn [length Z.of_nat] in L1. change (inject_Z 0) with 0 in L1.
      assert (0 <= inject_Z (Z.of_nat n)).
      { change 0 with (inject_Z 0). rewrite <- Zle_Qle. lia. }
      nra. }
    specialize (L2 N).
    set (len := Z.of_nat (length l)) in *.
    set (zn := Z.of_nat n) in *.
    assert (G1 : (zn < len)%Z).
    { rewrite Zlt_Qlt. nra. }
    assert (G2 : (len + (-1) + - zn < 1)%Z).
    { rewrite Zlt_Qlt, !inject_Z_plus, inject_Z_opp.
      change (inject_Z (-1)) with (-1 # 1). change (inject_Z 1) with 1. nra. }
    unfold len, zn in *. lia.
  - apply arith_seq_div; [lra|exact A].
Qed.



(** ** Tightening the scale *)





(** X18. The step is not halved when the tightened scale already has at
    least as many ticks as were asked for. *)
Theorem divideTickStep_enough_ticks (upl : num -> nat) (sc : scale) (step : num)
  (c o : Q) (labels : list num) :
  0 <= c -> o <= c ->
  divideTickStep upl (mkTickInfo sc step (Fin c) labels) (Fin o) =
  Ok (mkTickInfo sc step (Fin c) labels).
Proof.
  intros Hc Ho. unfold divideTickStep. cbn [ti_step ti_scale ti_tickCount].
  assert (E : (Num.abs (Fin o - Fin c * n_ 2) <? Num.abs (Fin o - Fin c))%num = false).
  { cbn [Num.abs Num.sub Num.neg Num.add Num.mul Num.lt n_ Num.of_Z]. zconst.
    apply negb_false_iff. apply Qle_bool_iff.
    rewrite (Qabs_neg (o + - c)) by lra.
    rewrite (Qabs_neg (o + - (c * 2))) by lra. lra. }
  rewrite E, andb_false_r. reflexivity.
Qed.

Lemma divideTickStep_enough_ticks_witness :
  divideTickStep decimalPlaces
    (mkTickInfo (mkScale (n_ 0) (n_ 40)) (n_ 10) (Fin 5) [n_ 0; n_ 10; n_ 20; n_ 30; n_ 40])
    (Fin 5) =
  Ok (mkTickInfo (mkScale (n_ 0) (n_ 40)) (n_ 10) (Fin 5) [n_ 0; n_ 10; n_ 20; n_ 30; n_ 40]).
Proof.
  apply (divideTickStep_enough_ticks decimalPlaces (mkScale (n_ 0) (n_ 40)) (n_ 10)
           5 5 [n_ 0; n_ 10; n_ 20; n_ 30; n_ 40]); discriminate.
Defined.

(** ** Scaling to integers and back *)

(** X19. Scaling the data range to integers and scaling a tick info
    back are inverse to each other on the bounds, within the tolerance: a
    tick info whose scale is the scaled data range gets a scale whose
    bounds are within 1e-9 of the data range. *)
Theorem makeIntegerTypeInfo_round_trip (upl : num -> nat) (a b : Q) (opts : options)
  (step tc : num) (labels : list num) :
  exists a' b',
    ti_scale
      (makeOriginalTypeTickInfo upl
         (mkTickInfo
            (mkScale (iti_min (makeIntegerTypeInfo upl (Fin a) (Fin b) opts))
                     (iti_max (makeIntegerTypeInfo upl (Fin a) (Fin b) opts)))
            step tc labels)
         (iti_divideNum (makeIntegerTypeInfo upl (Fin a) (Fin b) opts)))
    = mkScale (Fin a') (Fin b') /\ near 1 a' a /\ near 1 b' b.
Proof.
  assert (G : forall x y : Q, x == y -> near 1 x y).
  { intros x y E. apply near_of_eq; [lra|exact E]. }
  unfold makeIntegerTypeInfo.
  destruct ((Num.abs (Fin a) >=? n_ 1)%num || (Num.abs (Fin b) >=? n_ 1)%num).
  - cbn [iti_min iti_max iti_divideNum]. unfold makeOriginalTypeTickInfo.
    change (n_ 1 === n_ 1)%num with true. cbn [ti_scale].
    exists a, b. split; [reflexivity|]. split; apply G; reflexivity.
  - destruct (findMultipleNum_fin upl [Fin a; Fin b]) as [mm [-> Hmm]].
    cbn [iti_min iti_max iti_divideNum Num.mul]. unfold makeOriginalTypeTickInfo.
    cbn [Num.eq n_ Num.of_Z]. zconst.
    destruct (Qeq_bool mm 1) eqn:E1; qprop; cbn [ti_scale scale_min scale_max].
    + exists (a * mm), (b * mm). split; [reflexivity|].
      split; apply G; rewrite E1; ring.
    + destruct (division_fin upl (a * mm) mm) as [a' [-> Ha]]; [lra|].
      destruct (division_fin upl (b * mm) mm) as [b' [-> Hb]]; [lra|].
      exists a', b'. split; [reflexivity|].
      split; apply G; [rewrite Ha|rewrite Hb]; field; lra.
Qed.

(** X20. For data below 1 in absolute value, a minimum or maximum
    option of 0 is the same as no option: the tick info is the one computed
    without it. *)
Theorem getTickInfo_zero_bound_sub_unit (upl : num -> nat)
  (isVertical isLineChart : bool) (min max : num) (dim : dimension)
  (omin omax otc : option num) (z : Q) :
  (Num.abs min >=? n_ 1)%num || (Num.abs max >=? n_ 1)%num = false ->
  z == 0 ->
  getTickInfo upl isVertical isLineChart min max dim
              (mkOptions (Some (Fin z)) omax otc) =
  getTickInfo upl isVertical isLineChart min max dim (mkOptions None omax otc) /\
  getTickInfo upl isVertical isLineChart min max dim
              (mkOptions omin (Some (Fin z)) otc) =
  getTickInfo upl isVertical isLineChart min max dim (mkOptions omin None otc).
Proof.
  intros Hsub Hz. unfold getTickInfo, makeIntegerTypeInfo, getTickInfo_tickCounts.
  rewrite Hsub. cbn [opt_min opt_max opt_tickCount Num.truthy].
  rewrite (is_zero_true z Hz). cbn [negb]. split; reflexivity.
Qed.

Lemma getTickInfo_zero_bound_sub_unit_witness :
  getTickInfo decimalPlaces true false (Fin (1 # 10)) (Fin (9 # 10)) dim_1000x500
              (mkOptions (Some (Fin 0)) None None) =
  getTickInfo decimalPlaces true false (Fin (1 # 10)) (Fin (9 # 10)) dim_1000x500
              (mkOptions None None None) /\
  getTickInfo decimalPlaces true false (Fin (1 # 10)) (Fin (9 # 10)) dim_1000x500
              (mkOptions None (Some (Fin 0)) None) =
  getTickInfo decimalPlaces true false (Fin (1 # 10)) (Fin (9 # 10)) dim_1000x500
              (mkOptions None None None).
Proof.
  apply (getTickInfo_zero_bound_sub_unit decimalPlaces true false
           (Fin (1 # 10)) (Fin (9 # 10)) dim_1000x500 None None None 0);
    reflexivity.
Defined.

(** X21. The comparing value of a candidate with finite bounds, on
    finite data, is a non-negative finite number, and it is 0 exactly when
    the scale is the data range. *)
Theorem getComparingValue_nonneg (upl : num -> nat) (lo hi a b : Q) (step : num) :
  exists c,
    getComparingValue upl (mkScale (Fin lo) (Fin hi)) step (Fin a) (Fin b) = Fin c /\
    0 <= c /\ (c == 0 <-> lo == a /\ hi == b).
Proof.
  unfold getComparingValue. cbn [scale_min scale_max].
  destruct (pow10_fin (upl step)) as [w [-> Hw]].
  cbn [Num.sub Num.neg Num.add Num.abs Num.mul].
  eexists. split; [reflexivity|].
  pose proof (Qabs_nonneg (hi + - b)) as A1.
  pose proof (Qabs_nonneg (a + - lo)) as A2.
  split; [nra|]. split.
  - intros C.
    assert (Z1 : Qabs (hi + - b) == 0) by nra.
    assert (Z2 : Qabs (a + - lo) == 0) by nra.
    revert Z1 Z2. apply Qabs_case; apply Qabs_case; intros; lra.
  - intros [E1 E2].
    assert (Z1 : Qabs (hi + - b) == 0).
    { apply Qabs_case; intros; lra. }
    assert (Z2 : Qabs (a + - lo) == 0).
    { apply Qabs_case; intros; lra. }
    rewrite Z1, Z2. ring.
Qed.

(** ** The labels of the axis *)

Lemma arith_seq_step_comp (l : list num) :
  forall a s s', s == s' -> arith_seq a s l -> arith_seq a s' l.
Proof.
  induction l as [|x l IH]; intros a s s' E H; [exact I|].
  destruct H as [Hx H]. split; [exact Hx|].
  apply (arith_seq_comp s' l (a + s) (a + s')); [lra|].
  apply (IH (a + s) s s' E). exact H.
Qed.

Section AxisLabels.
Variable upl : num -> nat.

Lemma minimizeTickScale_labels_from (userMin userMax : num) (ti0 : tickInfo)
  (opts : options) (ti : tickInfo) :
  minimizeTickScale upl userMin userMax ti0 opts = Ok ti -> labels_from upl ti.
Proof.
  unfold minimizeTickScale.
  destruct (range _ _ _) as [ticks|e]; cbn [bind]; [|discriminate].
  destruct (makeLabelsFromScale _ _ _) as [labels|e] eqn:E; cbn [bind]; [|discriminate].
  intros H. injection H as <-. exact E.
Qed.

Lemma divideTickStep_labels_from (ti0 : tickInfo) (org : num) (ti : tickInfo) :
  labels_from upl ti0 ->
  divideTickStep upl ti0 org = Ok ti -> labels_from upl ti.
Proof.
  intros H0. unfold divideTickStep.
  destruct (_ && _ && _).
  - destruct (makeLabelsFromScale _ _ _) as [labels|e] eqn:E; cbn [bind]; [|discriminate].
    intros H. injection H as <-. exact E.
  - intros H. injection H as <-. exact H0.
Qed.

Lemma makeTickInfo_labels_from (isLineChart : bool)
  (tickCount min max userMin userMax : num) (isMinus : bool) (opts : options)
  (ti : tickInfo) :
  makeTickInfo upl isLineChart tickCount min max userMin userMax isMinus opts = Ok ti ->
  labels_from upl ti.
Proof.
  unfold makeTickInfo.
  destruct (normalizeStep _ _) as [step|e]; cbn [bind]; [|discriminate].
  destruct (minimizeTickScale _ _ _ _ _) as [ti1|e] eqn:E1; cbn [bind]; [|discriminate].
  apply divideTickStep_labels_from.
  eapply minimizeTickScale_labels_from. exact E1.
Qed.

Lemma getTickInfoCandidates_labels_from (isLineChart : bool) (min max : num)
  (tickCounts : list num) (opts : options) (candidates : list tickInfo) :
  getTickInfoCandidates upl isLineChart min max tickCounts opts = Ok candidates ->
  Forall (labels_from upl) candidates.
Proof.
  unfold getTickInfoCandidates.
  destruct (_ && _); intros H; apply Forall_forall; intros ti Hti;
    destruct (mapM_In _ _ _ H ti Hti) as [tc [_ E]];
    eapply makeTickInfo_labels_from; exact E.
Qed.

(** The labels of a finite scale and a positive step start at the minimum
    and advance by the step; there are two of them at least when the scale
    is one step long. *)
Lemma makeLabelsFromScale_seq (lo hi s : Q) (labels : list num) :
  0 < s ->
  makeLabelsFromScale upl (mkScale (Fin lo) (Fin hi)) (Fin s) = Ok labels ->
  arith_seq lo s labels /\ (lo + s <= hi -> (2 <= length labels)%nat).
Proof.
  intros Hs. unfold makeLabelsFromScale. cbn [scale_min scale_max].
  destruct (findMultipleNum_fin upl [Fin s]) as [mm [-> Hmm]].
  cbn [Num.mul Num.add n_ Num.of_Z]. zconst.
  destruct (range_Some_arith (lo * mm) (hi * mm + 1) (s * mm))
    as [l [-> [A [L1 L2]]]]; [nra|].
  cbn [bind]. intros E. injection E as <-. split.
  - apply arith_seq_div; [lra|exact A].
  - intros H. rewrite length_map.
    assert (G : (1 < Z.of_nat (length l))%Z).
    { rewrite Zlt_Qlt. change (inject_Z 1) with 1.
      set (len := inject_Z (Z.of_nat (length l))) in *.
      assert (P : 0 < s * mm) by nra.
      assert (H1 : (lo + s) * mm <= hi * mm) by nra.
      destruct (Qlt_le_dec 1 len) as [C|C]; [exact C|exfalso].
      assert (H2 : s * mm * (len - 1) <= 0) by nra.
      lra. }
    lia.
Qed.

(** What [ne.util.division] by a finite number at least 1 returns is
    finite only on a finite dividend. *)
Lemma division_fin_inv (x : num) (mm r : Q) :
  1 <= mm -> division upl x (Fin mm) = Fin r ->
  exists q, x = Fin q /\ r == q / mm.
Proof.
  intros Hmm. destruct x as [q| | |].
  - destruct (division_fin upl q mm) as [r' [-> Hr]]; [lra|].
    intros E. injection E as <-. exists q. split; [reflexivity|exact Hr].
  - unfold division.
    destruct (findMultipleNum_fin upl [PInf; Fin mm]) as [M [-> HM]].
    cbn. rewrite (is_zero_false M) by lra.
    unfold Num.is_pos. rewrite (Qle_bool_false_of M 0) by lra. cbn.
    destruct (Num.is_neg (mm * M)); discriminate.
  - unfold division.
    destruct (findMultipleNum_fin upl [NInf; Fin mm]) as [M [-> HM]].
    cbn. rewrite (is_zero_false M) by lra.
    unfold Num.is_neg at 1. rewrite (Qle_bool_true_of 0 M) by lra. cbn.
    destruct (Num.is_neg (mm * M)); discriminate.
  - unfold division.
    destruct (findMultipleNum_fin upl [NaN; Fin mm]) as [M [-> HM]].
    cbn. discriminate.
Qed.

Lemma arith_seq_division (mm : Q) (l : list num) :
  1 <= mm ->
  forall a s, arith_seq a s l ->
  arith_seq (a / mm) (s / mm) (map (fun label => division upl label (Fin mm)) l).
Proof.
  intros Hmm. induction l as [|x l IH]; intros a s H; [exact I|].
  destruct H as [[q [-> Hq]] H]. cbn [map arith_seq].
  destruct (division_fin upl q mm) as [r [-> Hr]]; [lra|]. split.
  - exists r. split; [reflexivity|]. rewrite Hr, Hq. reflexivity.
  - apply (arith_seq_comp (s / mm) _ ((a + s) / mm)); [field; lra|].
    apply IH. exact H.
Qed.

(** The labels of a selected tick info with a finite scale and a positive
    step start at the minimum of the scale and advance by the step. *)
Lemma getTickInfo_stepped (isVertical isLineChart : bool) (min max : num)
  (dim : dimension) (opts : options) (ti : tickInfo) (l h st : Q) :
  getTickInfo upl isVertical isLineChart min max dim opts = Ok ti ->
  ti_scale ti = mkScale (Fin l) (Fin h) -> ti_step ti = Fin st -> 0 < st ->
  arith_seq l st (ti_labels ti) /\
  (l + st <= h -> (2 <= length (ti_labels ti))%nat).
Proof.
  unfold getTickInfo.
  destruct (getTickInfo_tickCounts _ _ _) as [tcs|e]; cbn [bind]; [|discriminate].
  destruct (getTickInfoCandidates _ _ _ _ _ _) as [cs|e] eqn:Ec; cbn [bind]; [|discriminate].
  destruct (selectTickInfo _ _ _ _) as [sel|e] eqn:Es; cbn [bind]; [|discriminate].
  intros H. injection H as <-.
  pose proof (getTickInfoCandidates_labels_from _ _ _ _ _ _ Ec) as F.
  rewrite Forall_forall in F.
  assert (L : labels_from upl sel).
  { apply F. eapply selectTickInfo_In. exact Es. }
  clear F Ec Es. unfold labels_from in L.
  assert (D : exists mm, iti_divideNum (makeIntegerTypeInfo upl min max opts) = Fin mm /\
                         1 <= mm).
  { unfold makeIntegerTypeInfo. destruct (_ || _); cbn [iti_divideNum].
    - exists 1. split; [reflexivity|lra].
    - apply findMultipleNum_fin. }
  destruct D as [mm [-> Hmm]].
  unfold makeOriginalTypeTickInfo. cbn [Num.eq n_ Num.of_Z].
  destruct (Qeq_bool mm (inject_Z 1)) eqn:E1.
  - intros Esc Est Hst. rewrite Esc, Est in L.
    apply (makeLabelsFromScale_seq l h st _ Hst L).
  - cbn [ti_scale ti_step ti_labels]. intros Esc Est Hst.
    injection Esc as El Eh.
    destruct (division_fin_inv _ _ _ Hmm El) as [l0 [El0 Hl0]].
    destruct (division_fin_inv _ _ _ Hmm Eh) as [h0 [Eh0 Hh0]].
    destruct (division_fin_inv _ _ _ Hmm Est) as [st0 [Est0 Hst0]].
    destruct sel as [[smin smax] sstep stc slabels].
    cbn [ti_scale ti_step ti_labels scale_min scale_max] in *. subst smin smax sstep.
    assert (Hst0' : 0 < st0).
    { assert (E : st0 == st * mm) by (rewrite Hst0; field; lra). nra. }
    destruct (makeLabelsFromScale_seq l0 h0 st0 _ Hst0' L) as [A B].
    split.
    + apply (arith_seq_comp st _ (l0 / mm)); [lra|].
      apply (arith_seq_step_comp _ _ (st0 / mm)); [lra|].
      apply arith_seq_division; assumption.
    + intros H. rewrite length_map. apply B.
      assert (E1' : l0 == l * mm) by (rewrite Hl0; field; lra).
      assert (E2' : h0 == h * mm) by (rewrite Hh0; field; lra).
      assert (E3' : st0 == st * mm) by (rewrite Hst0; field; lra).
      nra.
Qed.

End AxisLabels.



(** ** The chart type *)

Section ChartType.
Variable upl : num -> nat.

Lemma makeTickInfo_positive_min (l1 l2 : bool) (tickCount min max userMin userMax : num)
  (isMinus : bool) (opts : options) :
  (userMin >? n_ 0)%num = true ->
  makeTickInfo upl l1 tickCount min max userMin userMax isMinus opts =
  makeTickInfo upl l2 tickCount min max userMin userMax isMinus opts.
Proof.
  intros H. unfold makeTickInfo, makeTickInfo_align.
  rewrite H, !orb_true_r. reflexivity.
Qed.

Lemma getTickInfoCandidates_positive_min (l1 l2 : bool) (min max : num)
  (tickCounts : list num) (opts : options) :
  (min >? n_ 0)%num = true ->
  getTickInfoCandidates upl l1 min max tickCounts opts =
  getTickInfoCandidates upl l2 min max tickCounts opts.
Proof.
  intros H. unfold getTickInfoCandidates.
  destruct (_ && _); apply mapM_ext; intros tc;
    apply makeTickInfo_positive_min; exact H.
Qed.

Lemma getTickInfo_positive_min (isVertical l1 l2 : bool) (ua : Q) (max : num)
  (dim : dimension) (opts : options) :
  0 < ua ->
  getTickInfo upl isVertical l1 (Fin ua) max dim opts =
  getTickInfo upl isVertical l2 (Fin ua) max dim opts.
Proof.
  intros Hua. unfold getTickInfo.
  assert (P : (iti_min (makeIntegerTypeInfo upl (Fin ua) max opts) >? n_ 0)%num = true).
  { unfold makeIntegerTypeInfo. destruct (_ || _); cbn [iti_min].
    - cbn. unfold inject_Z. apply negb_true_iff. apply Qle_bool_false_of. exact Hua.
    - destruct (findMultipleNum_fin upl [Fin ua; max]) as [mm [-> Hmm]].
      cbn. unfold inject_Z. apply negb_true_iff. apply Qle_bool_false_of. nra. }
  cbv zeta.
  destruct (getTickInfo_tickCounts isVertical dim opts) as [tcs|e]; cbn [bind];
    [|reflexivity].
  rewrite (getTickInfoCandidates_positive_min l1 l2 _ _ _ _ P). reflexivity.
Qed.

End ChartType.

(** X24. When every value is positive the chart type makes no difference:
    a line chart and any other chart get the same tick info, whatever the
    options are. *)
Theorem setValueAxisData_positive_any_chart (upl : num -> nat)
  (isVertical l1 l2 : bool) (groupValues : list (list Q)) (dim : dimension)
  (opts : options) :
  concat groupValues <> [] ->
  (forall v, In v (concat groupValues) -> 0 < v) ->
  setValueAxisData upl isVertical l1 (map (map Fin) groupValues) dim opts =
  setValueAxisData upl isVertical l2 (map (map Fin) groupValues) dim opts.
Proof.
  intros Hne Hpos. unfold setValueAxisData. rewrite concat_map_Fin.
  destruct (util_min_max_fin (concat groupValues) Hne) as [ua [ub [-> [-> [_ [Ia _]]]]]].
  apply getTickInfo_positive_min. apply Hpos. exact Ia.
Qed.

Lemma setValueAxisData_positive_any_chart_witness :
  setValueAxisData decimalPlaces true true (map (map Fin) [[20; 30]; [50]])
                   dim_1000x500 no_options =
  setValueAxisData decimalPlaces true false (map (map Fin) [[20; 30]; [50]])
                   dim_1000x500 no_options.
Proof.
  apply (setValueAxisData_positive_any_chart decimalPlaces true true false
           [[20; 30]; [50]] dim_1000x500 no_options).
  - discriminate.
  - cbn. intros v Hv. intuition (subst; reflexivity).
Defined.

(** ** Charts that are too short *)

Section ShortCharts.
Variable upl : num -> nat.

(** A candidate for a tick count below 1: the step is negative. *)
Lemma makeTickInfo_few_ticks (isLineChart : bool) (t a b : Q)
  (userMin userMax : num) (isMinus : bool) (opts : options) (lo0 hi0 : Q) :
  makeTickInfo_scale (Fin a) (Fin b) isMinus opts = mkScale (Fin lo0) (Fin hi0) ->
  lo0 < hi0 -> t < 1 ->
  makeTickInfo upl isLineChart (Fin t) (Fin a) (Fin b) userMin userMax isMinus opts
    = Err RangeError.
Proof.
  intros Hsc Hlt Ht. unfold makeTickInfo. rewrite Hsc.
  rewrite getScaleStep_fin by lra.
  rewrite normalizeStep_neg; [reflexivity|].
  assert (E : (hi0 - lo0) / (t - 1) == - ((hi0 - lo0) / (1 - t))) by (field; lra).
  assert (P : 0 < (hi0 - lo0) / (1 - t)) by (apply Qlt_shift_div_l; lra).
  lra.
Qed.

Lemma getTickInfo_few_ticks (isVertical isLineChart : bool) (ua ub : Q)
  (dim : dimension) (opts : options) (t : Q) (tcs : list num) :
  opt_min opts = None -> opt_max opts = None -> ua < ub ->
  getTickInfo_tickCounts isVertical dim opts = Ok (Fin t :: tcs) -> t < 1 ->
  getTickInfo upl isVertical isLineChart (Fin ua) (Fin ub) dim opts = Err RangeError.
Proof.
  intros Hmin Hmax Hlt Htcs Ht. unfold getTickInfo. rewrite Htcs. cbn [bind].
  assert (G : forall x y o, opt_min o = None -> opt_max o = None -> x < y ->
            getTickInfoCandidates upl isLineChart (Fin x) (Fin y) (Fin t :: tcs) o
              = Err RangeError).
  { intros x y o Omin Omax Hxy. unfold getTickInfoCandidates.
    destruct (_ && _); cbn [Num.neg mapM].
    - destruct (makeTickInfo_scale_none (- y) (- x) o Omin Omax)
        as [_ [lo [hi [E [_ [_ [H3 _]]]]]]]; [lra|].
      rewrite (makeTickInfo_few_ticks isLineChart t (- y) (- x) _ _ true o lo hi);
        try assumption; [reflexivity|apply H3; lra].
    - destruct (makeTickInfo_scale_none x y o Omin Omax)
        as [[lo [hi [E [_ [_ [H3 _]]]]]] _]; [lra|].
      rewrite (makeTickInfo_few_ticks isLineChart t x y _ _ false o lo hi);
        try assumption; [reflexivity|apply H3; lra]. }
  unfold makeIntegerTypeInfo.
  destruct (_ || _).
  - cbn [iti_min iti_max iti_options iti_divideNum].
    rewrite G by assumption. reflexivity.
  - destruct (findMultipleNum_fin upl [Fin ua; Fin ub]) as [mm [-> Hmm]].
    rewrite Hmin, Hmax.
    cbn [iti_min iti_max iti_options iti_divideNum Num.mul].
    rewrite G; [reflexivity|reflexivity|reflexivity|nra].
Qed.

End ShortCharts.



(** ** A first candidate of one tick *)

Lemma num_lt_NaN (a : num) : (a <? NaN)%num = false.
Proof. destruct a; reflexivity. Qed.

Lemma num_add_NaN (a : num) : (a + NaN)%num = NaN.
Proof. destruct a; reflexivity. Qed.

Lemma range_loop_NaN (fuel : nat) (flag start step : num) :
  range_loop fuel flag start NaN step = Ok [].
Proof.
  destruct fuel; cbn [range_loop]; rewrite num_lt_NaN; reflexivity.
Qed.

Section OneTick.
Variable upl : num -> nat.

(** A scale without a maximum has no label. *)
Lemma makeLabelsFromScale_NaN_max (smin step : num) :
  makeLabelsFromScale upl (mkScale smin NaN) step = Ok [].
Proof.
  unfold makeLabelsFromScale. cbn [scale_min scale_max Num.mul Num.add].
  unfold range. cbn [Num.mul]. rewrite range_loop_NaN. reflexivity.
Qed.

(** For a tick count of 1 and an infinite step the aligned scale has no
    maximum. *)
Lemma makeTickInfo_align_one_tick (isLineChart : bool) (t : Q) (sc : scale)
  (userMin userMax : num) (opts : options) :
  t == 1 ->
  scale_max (makeTickInfo_align upl isLineChart (Fin t) sc PInf userMin userMax opts)
    = NaN.
Proof.
  intros Ht. unfold makeTickInfo_align. cbn [scale_max].
  destruct (findMultipleNum_fin upl [PInf]) as [M [-> HM]].
  cbn [Num.sub Num.neg Num.add n_ Num.of_Z]. zconst.
  assert (E : (PInf * Fin M * Fin (t + - (1)))%num = NaN).
  { cbn [Num.mul]. rewrite (is_zero_false M) by lra.
    unfold Num.is_pos. rewrite (Qle_bool_false_of M 0) by lra.
    cbn [negb Num.signed_inf Num.mul].
    rewrite (is_zero_true (t + - (1))) by lra. reflexivity. }
  rewrite E, num_add_NaN. cbn [Num.div Num.neg].
  unfold Num.sub. cbn [Num.neg]. rewrite !num_add_NaN.
  cbn [Num.gt Num.lt Num.eq n_ Num.of_Z]. rewrite andb_false_r. reflexivity.
Qed.

Lemma makeTickInfo_one_tick (isLineChart : bool) (t a b : Q)
  (userMin userMax : num) (isMinus : bool) (opts : options) (lo0 hi0 : Q) :
  makeTickInfo_scale (Fin a) (Fin b) isMinus opts = mkScale (Fin lo0) (Fin hi0) ->
  lo0 < hi0 -> t == 1 ->
  exists smin,
    makeTickInfo upl isLineChart (Fin t) (Fin a) (Fin b) userMin userMax isMinus opts
      = Ok (mkTickInfo (mkScale smin NaN) PInf (Num.of_nat 0) []).
Proof.
  intros Hsc Hlt Ht. unfold makeTickInfo. rewrite Hsc.
  assert (E : getScaleStep (mkScale (Fin lo0) (Fin hi0)) (Fin t) = PInf).
  { unfold getScaleStep. cbn. zconst.
    rewrite (is_zero_true (t + - (1))) by lra.
    rewrite (is_zero_false (hi0 + - lo0)) by lra.
    unfold Num.is_pos. rewrite (Qle_bool_false_of (hi0 + - lo0) 0) by lra.
    reflexivity. }
  rewrite E, normalizeStep_PInf. cbn [bind].
  pose proof (makeTickInfo_align_one_tick isLineChart t (mkScale (Fin lo0) (Fin hi0))
                userMin userMax opts Ht) as A.
  destruct (makeTickInfo_align upl isLineChart (Fin t) (mkScale (Fin lo0) (Fin hi0))
              PInf userMin userMax opts) as [smin smax].
  cbn [scale_max] in A. subst smax. exists smin.
  unfold minimizeTickScale. cbn [ti_tickCount ti_step ti_scale].
  change (n_ 1) with (Fin 1).
  destruct (range_None_arith 1 t) as [ticks [-> [_ [_ L2]]]].
  assert (N : ticks = []).
  { destruct ticks as [|x ticks']; [reflexivity|exfalso].
    assert (P : 1 <= inject_Z (Z.of_nat (length (x :: ticks')))).
    { change 1 with (inject_Z 1). rewrite <- Zle_Qle. cbn [length]. lia. }
    specialize (L2 ltac:(discriminate)). lra. }
  subst ticks. cbn [bind forEachArray].
  rewrite makeLabelsFromScale_NaN_max. cbn [bind length].
  apply divideTickStep_no_tick.
Qed.

Lemma getComparingValue_NaN_max (smin step min max : num) :
  getComparingValue upl (mkScale smin NaN) step min max = NaN.
Proof. reflexivity. Qed.

(** A first candidate whose comparing value is [NaN] is the one
    selected. *)
Lemma selectTickInfo_NaN_head (min max : num) (c : tickInfo) (rest : list tickInfo) :
  getComparingValue upl (ti_scale c) (ti_step c) min max = NaN ->
  selectTickInfo upl min max (c :: rest) = Ok c.
Proof.
  intros H. unfold selectTickInfo. rewrite H. f_equal.
  assert (P : forEachArray rest (selectTickInfo_each upl min max) (c, NaN) = (c, NaN)).
  { apply (forEachArray_inv (fun st => st = (c, NaN))); [reflexivity|].
    intros info st _ ->. unfold selectTickInfo_each, Num.gt.
    rewrite num_lt_NaN. reflexivity. }
  rewrite P. reflexivity.
Qed.

Lemma division_NaN (d : num) : division upl NaN d = NaN.
Proof. reflexivity. Qed.

Lemma division_PInf (mm : Q) : 1 <= mm -> division upl PInf (Fin mm) = PInf.
Proof.
  intros Hmm. unfold division.
  destruct (findMultipleNum_fin upl [PInf; Fin mm]) as [M [-> HM]].
  cbn. rewrite (is_zero_false M) by lra.
  unfold Num.is_pos. rewrite (Qle_bool_false_of M 0) by lra. cbn.
  unfold Num.is_neg. rewrite (Qle_bool_true_of 0 (mm * M)) by nra. reflexivity.
Qed.

(** The candidates of a non-degenerate range for tick counts that start
    with 1 and go on above 1: they are computed, and the first has no
    maximum and no label. *)
Lemma getTickInfoCandidates_one_tick (isLineChart : bool) (ua ub t : Q)
  (tcs : list num) (opts : options) :
  opt_min opts = None -> opt_max opts = None -> ua < ub ->
  t == 1 -> Forall above_1 tcs ->
  exists smin cs,
    getTickInfoCandidates upl isLineChart (Fin ua) (Fin ub) (Fin t :: tcs) opts =
    Ok (mkTickInfo (mkScale smin NaN) PInf (Num.of_nat 0) [] :: cs).
Proof.
  intros Hmin Hmax Hlt Ht Htcs.
  destruct (getTickInfoCandidates_contains upl isLineChart ua ub tcs opts
              Hmin Hmax Hlt Htcs) as [cs [Ecs _]].
  unfold getTickInfoCandidates in *.
  destruct (_ && _); cbn [Num.neg mapM] in *.
  - destruct (makeTickInfo_scale_none (- ub) (- ua) opts Hmin Hmax)
      as [_ [lo [hi [E [_ [_ [H3 _]]]]]]]; [lra|].
    destruct (makeTickInfo_one_tick isLineChart t (- ub) (- ua) (Fin ua) (Fin ub)
                true opts lo hi E ltac:(apply H3; lra) Ht) as [smin ->].
    cbn [bind]. rewrite Ecs. cbn [bind]. exists smin, cs. reflexivity.
  - destruct (makeTickInfo_scale_none ua ub opts Hmin Hmax)
      as [[lo [hi [E [_ [_ [H3 _]]]]]] _]; [lra|].
    destruct (makeTickInfo_one_tick isLineChart t ua ub (Fin ua) (Fin ub)
                false opts lo hi E ltac:(apply H3; lra) Ht) as [smin ->].
    cbn [bind]. rewrite Ecs. cbn [bind]. exists smin, cs. reflexivity.
Qed.

Lemma getTickInfo_one_tick (isVertical isLineChart : bool) (ua ub t : Q)
  (dim : dimension) (opts : options) (tcs : list num) :
  opt_min opts = None -> opt_max opts = None -> ua < ub ->
  getTickInfo_tickCounts isVertical dim opts = Ok (Fin t :: tcs) ->
  t == 1 -> Forall above_1 tcs ->
  exists smin,
    getTickInfo upl isVertical isLineChart (Fin ua) (Fin ub) dim opts =
    Ok (mkTickInfo (mkScale smin NaN) PInf (Num.of_nat 0) []).
Proof.
  intros Hmin Hmax Hlt Htcs Ht Hall. unfold getTickInfo. rewrite Htcs. cbn [bind].
  unfold makeIntegerTypeInfo.
  destruct ((Num.abs (Fin ua) >=? n_ 1)%num || (Num.abs (Fin ub) >=? n_ 1)%num).
  - cbn [iti_min iti_max iti_options iti_divideNum].
    destruct (getTickInfoCandidates_one_tick isLineChart ua ub t tcs opts)
      as [smin [cs ->]]; try assumption.
    cbn [bind]. rewrite selectTickInfo_NaN_head by reflexivity. cbn [bind].
    exists smin. reflexivity.
  - destruct (findMultipleNum_fin upl [Fin ua; Fin ub]) as [mm [-> Hmm]].
    rewrite Hmin, Hmax.
    cbn [iti_min iti_max iti_options iti_divideNum Num.mul].
    destruct (getTickInfoCandidates_one_tick isLineChart (ua * mm) (ub * mm) t tcs
                (mkOptions None None None))
      as [smin [cs ->]]; try reflexivity; try assumption; [nra|].
    cbn [bind]. rewrite selectTickInfo_NaN_head by reflexivity. cbn [bind].
    unfold makeOriginalTypeTickInfo. cbn [Num.eq n_ Num.of_Z].
    destruct (Qeq_bool mm (inject_Z 1)).
    + exists smin. reflexivity.
    + cbn [ti_scale ti_step ti_tickCount ti_labels scale_min scale_max map].
      rewrite division_NaN, (division_PInf mm Hmm).
      eexists. reflexivity.
Qed.

End OneTick.


